(** * tmuxg: session materialization from a YAML model

    A shallow embedding of [main.go] (and of the sibling revision kept in
    [unnamed/part_000] where the two differ), with the properties of the
    materialization protocol proved over it.

    Layout:
    - Go library functions the program calls ([os.ExpandEnv], [os.Getenv],
      [strings.TrimSpace], [fmt.Sprintf "%d"]);
    - the data model ([session], [window]) and the operating-system state the
      program acts on (process environment, files, spawned processes);
    - the functions of [main.go], in a small state-and-error monad;
    - the properties. *)

From stdpp Require Import base strings gmap list pretty.
From Stdlib Require Import Ascii.

Local Open Scope stdpp_scope.
#[local] Set Warnings "-clear-no-such-hyp".

(** ** Strings as byte sequences

    A Go [string] is a sequence of bytes; [string] is a sequence of 8-bit
    [ascii] values, so the two coincide. *)

Fixpoint drop_bytes (n : nat) (s : string) : string :=
  match n, s with
  | S n', String _ s' => drop_bytes n' s'
  | _, _ => s
  end.

Fixpoint take_while (p : ascii → bool) (s : string) : string :=
  match s with
  | String c s' => if p c then String c (take_while p s') else EmptyString
  | EmptyString => EmptyString
  end.

Fixpoint has_byte (c : ascii) (s : string) : bool :=
  match s with
  | String d s' => if decide (c = d) then true else has_byte c s'
  | EmptyString => false
  end.

Definition byte (n : nat) : ascii := ascii_of_nat n.

(** ** Package [strings] *)

(** Modelled from the spec: [strings.TrimSpace] belongs to the Go standard
    library, not to the repository; [main.go] only calls it (line 163).
    The definition follows the library's documentation: leading and
    trailing white space, as Unicode defines it, is removed. *)
Module strings.

(** The ASCII white space of Go's [asciiSpace] table:
    ['\t'], ['\n'], ['\v'], ['\f'], ['\r'], [' ']. *)
Definition asciiSpace (c : ascii) : bool :=
  match c with
  | "009" | "010" | "011" | "012" | "013" | " " => true
  | _ => false
  end%char.

(** The other code points of [unicode.White_Space], by their UTF-8
    encodings: U+0085 and U+00A0 take two bytes; U+1680, U+2000..U+200A,
    U+2028, U+2029, U+202F, U+205F and U+3000 take three. *)
Definition space2 (b1 b2 : ascii) : bool :=
  bool_decide (b1 = byte 194) &&
  (bool_decide (b2 = byte 133) || bool_decide (b2 = byte 160)).

Definition space3 (b1 b2 b3 : ascii) : bool :=
  let n3 := nat_of_ascii b3 in
  (bool_decide (b1 = byte 225) && bool_decide (b2 = byte 154) &&
     bool_decide (b3 = byte 128))
  || (bool_decide (b1 = byte 226) && bool_decide (b2 = byte 128) &&
        ((128 <=? n3) && (n3 <=? 138) || bool_decide (n3 = 168) ||
         bool_decide (n3 = 169) || bool_decide (n3 = 175))%nat)
  || (bool_decide (b1 = byte 226) && bool_decide (b2 = byte 129) &&
        bool_decide (b3 = byte 159))
  || (bool_decide (b1 = byte 227) && bool_decide (b2 = byte 128) &&
        bool_decide (b3 = byte 128)).

(** [TrimLeft]: drop white space from the front.  With [back := true] the
    argument is a reversed string and the multi-byte encodings are read
    backwards, which is how the trailing white space is found. *)
Fixpoint trimFront (back : bool) (s : string) : string :=
  match s with
  | EmptyString => EmptyString
  | String b1 r1 =>
      if asciiSpace b1 then trimFront back r1
      else
        match r1 with
        | EmptyString => s
        | String b2 r2 =>
            if (if back then space2 b2 b1 else space2 b1 b2)
            then trimFront back r2
            else
              match r2 with
              | EmptyString => s
              | String b3 r3 =>
                  if (if back then space3 b3 b2 b1 else space3 b1 b2 b3)
                  then trimFront back r3
                  else s
              end
        end
  end.

(** [strings.TrimSpace]: the string without its leading and trailing
    white space. *)
Definition TrimSpace (s : string) : string :=
  String.rev (trimFront true (String.rev (trimFront false s))).

End strings.

(** ** Package [os]: variable expansion *)

(** Modelled from the spec: [os.Expand], [os.ExpandEnv] and [os.Getenv]
    belong to the Go standard library, not to the repository; [main.go]
    only calls them.  The spec says that references are expanded against
    the process environment; the definitions follow the library's
    [os/env.go] for what a reference is: [$name] and [${name}]. *)
Module os.

Definition isShellSpecialVar (c : ascii) : bool :=
  match c with
  | "*" | "#" | "$" | "@" | "!" | "?" | "-"
  | "0" | "1" | "2" | "3" | "4" | "5" | "6" | "7" | "8" | "9" => true
  | _ => false
  end%char.

Definition isAlphaNum (c : ascii) : bool :=
  let n := nat_of_ascii c in
  (bool_decide (c = "_"%char)
   || (48 <=? n) && (n <=? 57)
   || (97 <=? n) && (n <=? 122)
   || (65 <=? n) && (n <=? 90))%nat.

(** The bytes of [s] before its first ['}'], if it has one. *)
Fixpoint untilBrace (s : string) : option string :=
  match s with
  | EmptyString => None
  | String c s' =>
      if decide (c = "}"%char) then Some EmptyString
      else String c <$> untilBrace s'
  end.

(** The test [len(s) > 2 && isShellSpecialVar(s[1]) && s[2] == '}'] of
    [getShellName], on [t = s[1:]]. *)
Definition bracedSpecial (t : string) : option ascii :=
  match t with
  | String c (String "}"%char _) =>
      if isShellSpecialVar c then Some c else None
  | _ => None
  end.

(** [getShellName s]: the name that begins [s] and the number of bytes it
    takes up.  [s] is what follows a ['$'] and is not empty. *)
Definition getShellName (s : string) : string * nat :=
  match s with
  | EmptyString => (EmptyString, 0)
  | String "{"%char t =>
      match bracedSpecial t with
      | Some c => (String c EmptyString, 3)
      | None =>
          match untilBrace t with
          | Some EmptyString => (EmptyString, 2)
          | Some name => (name, String.length name + 2)
          | None => (EmptyString, 1)
          end
      end
  | String c _ =>
      if isShellSpecialVar c then (String c EmptyString, 1)
      else let name := take_while isAlphaNum s in (name, String.length name)
  end.

(** The loop of [os.Expand], as of Go 1.11: a ['$'] that no name follows
    is kept, bad syntax such as [${}] is dropped (earlier versions drop
    both; they agree on every reference to a variable).  [skip] is the
    number of bytes the index [j] has still to jump over after a reference
    ([j += w]). *)
Fixpoint expandFrom (mapping : string → string) (skip : nat) (s : string)
  : string :=
  match s with
  | EmptyString => EmptyString
  | String c rest =>
      match skip with
      | S k => expandFrom mapping k rest
      | O =>
          if bool_decide (c = "$"%char) && negb (bool_decide (rest = EmptyString))
          then
            let '(name, w) := getShellName rest in
            (if bool_decide (name = EmptyString)
             then (if bool_decide (w = 0) then "$" else EmptyString)
             else mapping name)
            +:+ expandFrom mapping w rest
          else String c (expandFrom mapping 0 rest)
      end
  end.

Definition Expand (s : string) (mapping : string → string) : string :=
  expandFrom mapping 0 s.

(** [os.Getenv]: the value of the variable, empty when it is not set. *)
Definition Getenv (env : gmap string string) (key : string) : string :=
  default EmptyString (env !! key).

Definition ExpandEnv (env : gmap string string) (s : string) : string :=
  Expand s (Getenv env).

End os.


(** ** The data model ([main.go], lines 16-30) *)

Module window.
Record t := mk {
  Name : string;
  Command : string;
  Cwd : string;
  Keystrokes : list string;
}.
End window.

Module session.
Record t := mk {
  Name : string;
  SetupScript : string;
  Environment : gmap string string;
  Cwd : string;
  Windows : list window.t;
  Focus : string;
}.
End session.

(** ** The operating system as the program sees it *)

(** A standard stream of a child process: the parent's own stream, or the
    null device that [exec.Cmd] uses for a stream left [nil]. *)
Inductive stream := Inherited | DevNull.

(** [exec.Cmd], with the fields the program sets. *)
Record Cmd := mkCmd {
  Path : string;
  Args : list string;
  Dir : string;
  Stdin : stream;
  Stdout : stream;
  Stderr : stream;
}.

(** [exec.Command name arg...].  [Path] is the name as given: looking it
    up in [$PATH] is left to the host. *)
Definition exec_Command (name : string) (arg : list string) : Cmd :=
  {| Path := name; Args := name :: arg; Dir := EmptyString;
     Stdin := DevNull; Stdout := DevNull; Stderr := DevNull |}.

(** The operations the program asks of the operating system, in the order
    it asks them.  [cmd_Run] is the only one that starts a process. *)
Inductive event :=
| os_Stat (name : string)
| os_MkdirAll (path : string) (perm : N)
| ioutil_ReadFile (name : string)
| ioutil_TempFile (name : string)
| file_Write (name : string) (data : string)
| file_Close (name : string)
| os_Chmod (name : string) (mode : N)
| os_Remove (name : string)
| cmd_Run (c : Cmd).

(** File modes, which Go writes in octal: [0600], [0644], [0700]. *)
Definition mode_0600 : N := 384.
Definition mode_0644 : N := 420.
Definition mode_0700 : N := 448.

Record file := mkFile {
  isDir : bool;
  data : string;
  mode : N;
}.

(** The state the program reads and writes: the process environment, the
    files it can name, and the operations performed so far. *)
Record OS := mkOS {
  environ : gmap string string;
  files : gmap string file;
  trace : list event;
}.

Definition with_environ (f : gmap string string → gmap string string)
  (st : OS) : OS :=
  {| environ := f (environ st); files := files st; trace := trace st |}.

Definition with_files (f : gmap string file → gmap string file)
  (st : OS) : OS :=
  {| environ := environ st; files := f (files st); trace := trace st |}.

Definition record (e : event) (st : OS) : OS :=
  {| environ := environ st; files := files st; trace := trace st ++ [e] |}.

(** What the program does not decide: whether an operation fails (given
    everything that happened so far, the operation included), the name
    [ioutil.TempFile] picks, and the order in which [range] walks a map. *)
Record World := mkWorld {
  fails : list event → bool;
  tempName : list event → string;
  rangeOrder : list event → gmap string string → list (string * string);
}.

(** [range] yields every entry of the map once, in some order. *)
Definition range_ok (host : World) : Prop :=
  ∀ h m, rangeOrder host h m ≡ₚ map_to_list m.

(** Errors, as [errgo] builds them. *)
Inductive error :=
| SysError (op : event)
| ErrNotExist (op : event)
| LibError (what : string)
| New (msg : string)
| Notef (cause : error) (format : string) (args : list string)
| Mask (cause : error).

Definition os_IsNotExist (err : error) : bool :=
  match err with ErrNotExist _ => true | _ => false end.

(** ** The monad: state, and an error or a value *)

Definition M (A : Type) : Type := OS → (error + A) * OS.

Definition ret {A} (a : A) : M A := λ st, (inr a, st).

Definition fail {A} (e : error) : M A := λ st, (inl e, st).

Definition bind {A B} (m : M A) (k : A → M B) : M B :=
  λ st, match m st with
        | (inr a, st') => k a st'
        | (inl e, st') => (inl e, st')
        end.

Notation "x ←' m ; k" := (bind m (λ x, k))
  (at level 100, m at next level, k at level 200, right associativity,
   format "x  ←'  m ; '//' k").
Notation "m ;;' k" := (bind m (λ _, k))
  (at level 100, k at level 200, right associativity,
   format "m  ;;' '//' k").

(** [errgo.Notef(err, format, args...)] and [errgo.Mask(err)] on the error a
    computation returns. *)
Definition wrap {A} (f : error → error) (m : M A) : M A :=
  λ st, match m st with
        | (inl e, st') => (inl (f e), st')
        | r => r
        end.

Definition notef {A} (format : string) (args : list string) (m : M A) : M A :=
  wrap (λ e, Notef e format args) m.

Definition mask {A} (m : M A) : M A := wrap Mask m.

(** The result of a computation as a value ([x, err := f()]). *)
Definition attempt {A} (m : M A) : M (error + A) :=
  λ st, let '(r, st') := m st in (inr r, st').

(** [defer d] in front of the statements [m]: [d] runs when [m] returns,
    whatever [m] returns, and what [d] returns is dropped. *)
Definition deferred {A} (d : M unit) (m : M A) : M A :=
  λ st, let '(r, st1) := m st in (r, (d st1).2).

(** ** Operating-system and library calls *)

(** Modelled from the spec: the calls below stand for functions of the Go
    standard library ([os], [io/ioutil], [os/exec]) that [main.go] calls
    and that are not part of the repository.  Each one that can fail asks
    the host whether it does.  Two cannot: [os.Setenv], of which the spec
    says that setting a variable does not fail, and [os.Remove] of the
    temporary file, whose error [main.go] drops.  What a child process
    does to the files is not part of the model. *)
Section Calls.
Context (host : World).

(** An operation that either fails or has no effect the program reads
    back. *)
Definition sys (e : event) : M unit :=
  λ st, let st' := record e st in
        (if fails host (trace st') then inl (SysError e) else inr tt, st').

(** [os.Stat]: the file's description; [ErrNotExist] when there is no
    such file; another error when the lookup itself fails. *)
Definition os_stat (name : string) : M file :=
  λ st, let e := os_Stat name in
        let st' := record e st in
        (if fails host (trace st') then inl (SysError e)
         else match files st !! name with
              | Some f => inr f
              | None => inl (ErrNotExist e)
              end, st').

(** [os.MkdirAll]: the directory exists afterwards, or an error. *)
Definition os_mkdirAll (path : string) (perm : N) : M unit :=
  λ st, let e := os_MkdirAll path perm in
        let st' := record e st in
        if fails host (trace st') then (inl (SysError e), st')
        else match files st !! path with
             | Some f => (if isDir f then inr tt else inl (SysError e), st')
             | None =>
                 (inr tt,
                  with_files
                    <[path := {| isDir := true; data := EmptyString;
                                 mode := perm |}]> st')
             end.

(** [ioutil.ReadFile]. *)
Definition ioutil_readFile (name : string) : M string :=
  λ st, let e := ioutil_ReadFile name in
        let st' := record e st in
        (if fails host (trace st') then inl (SysError e)
         else match files st !! name with
              | Some f => if isDir f then inl (SysError e) else inr (data f)
              | None => inl (ErrNotExist e)
              end, st').

(** [ioutil.TempFile]: a new, empty file that did not exist, readable
    and writable by its owner; its name is the handle. *)
Definition ioutil_tempFile : M string :=
  λ st, let name := tempName host (trace st) in
        let e := ioutil_TempFile name in
        let st' := record e st in
        if fails host (trace st') || bool_decide (is_Some (files st !! name))
        then (inl (SysError e), st')
        else (inr name,
              with_files
                <[name := {| isDir := false; data := EmptyString;
                             mode := mode_0600 |}]> st').

(** [fmt.Fprintf(f, "%s", data)]. *)
Definition file_write (name : string) (d : string) : M unit :=
  λ st, let e := file_Write name d in
        let st' := record e st in
        if fails host (trace st') then (inl (SysError e), st')
        else (inr tt,
              with_files
                (alter (λ f, {| isDir := isDir f; data := data f +:+ d;
                                mode := mode f |}) name) st').

Definition file_close (name : string) : M unit := sys (file_Close name).

(** [os.Chmod]. *)
Definition os_chmod (name : string) (m : N) : M unit :=
  λ st, let e := os_Chmod name m in
        let st' := record e st in
        if fails host (trace st') then (inl (SysError e), st')
        else (inr tt,
              with_files
                (alter (λ f, {| isDir := isDir f; data := data f;
                                mode := m |}) name) st').

(** [os.Remove] of a file the process has created itself: the file is
    gone afterwards. *)
Definition os_remove (name : string) : M unit :=
  λ st, (inr tt, with_files (delete name) (record (os_Remove name) st)).

(** [c.Run()]: start the process and wait for it; an error when it cannot
    be started or exits with a status other than 0. *)
Definition cmd_run (c : Cmd) : M unit := sys (cmd_Run c).

(** [os.Setenv]. *)
Definition os_setenv (key value : string) : M unit :=
  λ st, (inr tt, with_environ <[key := value]> st).

Definition os_getenv (key : string) : M string :=
  λ st, (inr (os.Getenv (environ st) key), st).

Definition os_expandEnv (s : string) : M string :=
  λ st, (inr (os.ExpandEnv (environ st) s), st).

(** The entries of a map in the order a [range] loop meets them. *)
Definition range (m : gmap string string) : M (list (string * string)) :=
  λ st, (inr (rangeOrder host (trace st) m), st).

End Calls.

(** [fmt.Sprintf("%s:%d", name, i)]. *)
Definition target (name : string) (i : nat) : string :=
  name +:+ ":" +:+ pretty i.

(** ** [main.go]

    The functions of [main.go], statement by statement.  What the program
    writes to its log is left out. *)

Module Main.
Section Program.
Context (host : World).

(** The command [session.tmux] builds (lines 142-146). *)
Definition tmuxCmd (s : session.t) (env : gmap string string)
  (args : list string) : Cmd :=
  let c := exec_Command "tmux" ("-L" :: session.Name s :: args) in
  {| Path := Path c; Args := Args c;
     Dir := os.ExpandEnv env (session.Cwd s);
     Stdin := Inherited; Stdout := Inherited; Stderr := Inherited |}.

Definition tmux (s : session.t) (args : list string) : M unit :=
  λ st, mask (cmd_run host (tmuxCmd s (environ st) args)) st.

(** The command [session.setupScript] builds (lines 176-179). *)
Definition scriptCmd (name : string) : Cmd :=
  let c := exec_Command name [] in
  {| Path := Path c; Args := Args c; Dir := Dir c;
     Stdin := Inherited; Stdout := Inherited; Stderr := Inherited |}.

Definition setupScript (s : session.t) : M unit :=
  if decide (session.SetupScript s = EmptyString) then ret tt
  else
    f ←' notef "failed to create temporary file for script" []
           (ioutil_tempFile host);
    deferred (os_remove f) (
    deferred (file_close host f) (
      notef "failed to write temporary script file" []
        (file_write host f (strings.TrimSpace (session.SetupScript s))) ;;'
      notef "error closing temporary script file" []
        (file_close host f) ;;'
      notef "error setting temporary script executable" []
        (os_chmod host f mode_0700) ;;'
      mask (cmd_run host (scriptCmd f)))).

(** The loop of [session.create] (lines 194-200). *)
Fixpoint setEnvironment (s : session.t) (kvs : list (string * string))
  : M unit :=
  match kvs with
  | [] => ret tt
  | (k, v) :: kvs' =>
      v' ←' os_expandEnv v;
      notef "failed to set environment variable %q" [k]
        (tmux s ["set-environment"; k; v']) ;;'
      setEnvironment s kvs'
  end.

Definition create (s : session.t) : M unit :=
  match session.Windows s with
  | [] => fail (New "no windows configured for this session!")
  | w0 :: _ =>
      cmd ←' os_expandEnv (window.Command w0);
      notef "failed to start tmux session" []
        (tmux s ["new-session"; "-d"; "-s"; session.Name s; cmd]) ;;'
      kvs ←' range host (session.Environment s);
      setEnvironment s kvs
  end.

Definition createWindow (s : session.t) (i : nat) (w : window.t) : M unit :=
  let cwd := window.Cwd w in
  let cwd := if decide (cwd = EmptyString) then session.Cwd s else cwd in
  cwd ←' os_expandEnv cwd;
  cmd ←' os_expandEnv (window.Command w);
  notef "failed to create window %q" [window.Name w]
    (tmux s ["new-window"; "-d"; "-t"; target (session.Name s) i;
             "-c"; cwd; cmd]).

Definition sendKeys (s : session.t) (w : window.t) : M unit :=
  if decide (0 < length (window.Keystrokes w)) then
    notef "failed to send keystrokes to window %q" [window.Name w]
      (tmux s ("send-keys" :: window.Keystrokes w))
  else ret tt.

Definition focus (s : session.t) (i : nat) : M unit :=
  notef "failed to set window focus" []
    (tmux s ["select-window"; "-t"; target (session.Name s) i]).

(** The loop of [run] over [session.Environment] (lines 59-61). *)
Fixpoint setenvAll (kvs : list (string * string)) : M unit :=
  match kvs with
  | [] => ret tt
  | (k, v) :: kvs' =>
      v' ←' os_expandEnv v;
      os_setenv k v' ;;'
      setenvAll kvs'
  end.

(** The loop of [run] over [session.Windows] (lines 75-92): [i] is the
    index of the first window of [ws], [focus] the variable of that
    name; the result is its value when the loop ends. *)
Fixpoint windowLoop (s : session.t) (i : nat) (ws : list window.t)
  (focus : nat) : M nat :=
  match ws with
  | [] => ret focus
  | w :: ws' =>
      (if decide (0 < i) then mask (createWindow s i w) else ret tt) ;;'
      mask (sendKeys s w) ;;'
      windowLoop s (S i) ws'
        (if decide (session.Focus s = window.Name w) then i else focus)
  end.

(** [run] from the moment the session is loaded (lines 59-99). *)
Definition materialize (s : session.t) : M unit :=
  kvs ←' range host (session.Environment s);
  setenvAll kvs ;;'
  notef "failed to execute setup script" [] (setupScript s) ;;'
  mask (create s) ;;'
  i ←' windowLoop s 0 (session.Windows s) 0;
  mask (focus s i) ;;'
  mask (tmux s ["attach"; "-t"; session.Name s]).

(** Library functions that are taken as given: [filepath.Join] and
    [yaml.Unmarshal] into a [session]. *)
Context (filepath_Join : list string → string).
Context (yaml_Unmarshal : string → error + session.t).

Definition locateSession (name : string) : M string :=
  r ←' attempt (os_stat host name);
  match r with
  | inr _ => ret name
  | inl err =>
      if negb (os_IsNotExist err) then
        fail (Notef err "failed to open session file %q" [name])
      else
        configDir ←' os_getenv "XDG_CONFIG_HOME";
        configDir ←'
          (if decide (configDir = EmptyString) then
             home ←' os_getenv "HOME";
             ret (filepath_Join [home; ".config"])
           else ret configDir);
        let tmuxgConfigDir := filepath_Join [configDir; "tmuxg"] in
        notef "failed to create config directory %q" [tmuxgConfigDir]
          (os_mkdirAll host tmuxgConfigDir mode_0644) ;;'
        let path := filepath_Join [tmuxgConfigDir; name +:+ ".yaml"] in
        notef "failed to resolve session %q file %q" [name; path]
          (os_stat host path) ;;'
        ret path
  end.

Definition newSession (path : string) : M session.t :=
  contents ←' notef "failed to read session file" []
                (ioutil_readFile host path);
  match yaml_Unmarshal contents with
  | inl err => fail (Notef err "failed to parse session file" [])
  | inr s => ret s
  end.

(** [run]; [args] is [os.Args]. *)
Definition run (args : list string) : M unit :=
  if decide (length args < 2) then
    fail (New "missing session file argument")
  else
    name ←' mask (locateSession (default EmptyString (args !! 1)));
    s ←' mask (newSession name);
    materialize s.

End Program.
End Main.

(** ** The revision in [unnamed/part_000], where it differs *)

Module Part000.
Section Program.
Context (host : World).
Context (filepath_Join : list string → string).
Context (yaml_Unmarshal : string → error + session.t).

(** The rest of [locateSession] once the argument is not taken as a
    path (lines 130-148). *)
Definition inConfigDir (name : string) : M string :=
  configDir ←' os_getenv "XDG_CONFIG_HOME";
  configDir ←'
    (if decide (configDir = EmptyString) then
       home ←' os_getenv "HOME";
       ret (filepath_Join [home; ".config"])
     else ret configDir);
  let tmuxgConfigDir := filepath_Join [configDir; "tmuxg"] in
  notef "failed to create config directory %q" [tmuxgConfigDir]
    (os_mkdirAll host tmuxgConfigDir mode_0644) ;;'
  let confPath := filepath_Join [tmuxgConfigDir; name +:+ ".yaml"] in
  r ←' attempt (os_stat host confPath);
  match r with
  | inl err =>
      if os_IsNotExist err then fail err
      else fail (Notef err "failed to resolve session %q file %q"
                   [name; confPath])
  | inr _ => ret confPath
  end.

(** Lines 123-149. *)
Definition locateSession (name : string) : M string :=
  r ←' attempt (os_stat host name);
  match r with
  | inr info => if negb (isDir info) then ret name else inConfigDir name
  | inl err =>
      if negb (os_IsNotExist err) then
        fail (Notef err "failed to open session file %q" [name])
      else inConfigDir name
  end.

(** Lines 245-263. *)
Definition newSession (confPath : string) : M session.t :=
  contents ←' notef "failed to read session file" []
                (ioutil_readFile host confPath);
  match yaml_Unmarshal contents with
  | inl err => fail (Notef err "failed to parse session file" [])
  | inr s =>
      ret {| session.Name := session.Name s;
             session.SetupScript := session.SetupScript s;
             session.Environment := session.Environment s;
             session.Cwd := session.Cwd s;
             session.Windows :=
               (λ w, if decide (window.Command w = EmptyString)
                     then {| window.Name := window.Name w;
                             window.Command := "bash";
                             window.Cwd := window.Cwd w;
                             window.Keystrokes := window.Keystrokes w |}
                     else w) <$> session.Windows s;
             session.Focus := session.Focus s |}
  end.

End Program.
End Part000.

(** ** What a run is expected to do *)

(** The tmux subcommand of an operation: [Args] is
    [tmux -L <name> <subcommand> ...]. *)
Definition subcommand (e : event) : option string :=
  match e with
  | cmd_Run c => Args c !! 3
  | _ => None
  end.

(** Create-session and create-window invocations. *)
Definition isCreation (e : event) : Prop :=
  subcommand e = Some "new-session" ∨ subcommand e = Some "new-window".

Global Instance isCreation_dec e : Decision (isCreation e) := or_dec _ _.

(** The invocation carries [-t <sessionName>:<windowIndex>]. *)
Definition carriesTarget (name : string) (e : event) : Prop :=
  ∃ c i pre post,
    e = cmd_Run c ∧ Args c = pre ++ "-t" :: target name i :: post.

Definition is_error {A} (r : error + A) : bool :=
  match r with inl _ => true | inr _ => false end.

(** The error of [session.create] for a session without windows. *)
Definition NoWindowsConfigured : error :=
  New "no windows configured for this session!".

(** The process environment once the entries [kvs] have been committed in
    that order (the loop of [run], lines 59-61, as a function). *)
Fixpoint commitEnv (kvs : list (string * string)) (env : gmap string string)
  : gmap string string :=
  match kvs with
  | [] => env
  | (k, v) :: kvs' => commitEnv kvs' (<[k := os.ExpandEnv env v]> env)
  end.

Section Plan.
Context (s : session.t) (env : gmap string string).

Definition newSessionOp (w0 : window.t) : event :=
  cmd_Run (Main.tmuxCmd s env
    ["new-session"; "-d"; "-s"; session.Name s;
     os.ExpandEnv env (window.Command w0)]).

Definition setEnvironmentOp (kv : string * string) : event :=
  cmd_Run (Main.tmuxCmd s env
    ["set-environment"; kv.1; os.ExpandEnv env kv.2]).

Definition newWindowOp (i : nat) (w : window.t) : event :=
  cmd_Run (Main.tmuxCmd s env
    ["new-window"; "-d"; "-t"; target (session.Name s) i; "-c";
     os.ExpandEnv env (if decide (window.Cwd w = EmptyString)
                       then session.Cwd s else window.Cwd w);
     os.ExpandEnv env (window.Command w)]).

Definition sendKeysOp (w : window.t) : event :=
  cmd_Run (Main.tmuxCmd s env ("send-keys" :: window.Keystrokes w)).

Definition selectWindowOp (i : nat) : event :=
  cmd_Run (Main.tmuxCmd s env
    ["select-window"; "-t"; target (session.Name s) i]).

Definition attachOp : event :=
  cmd_Run (Main.tmuxCmd s env ["attach"; "-t"; session.Name s]).

(** What one turn of the loop over the windows asks for. *)
Definition windowOps (i : nat) (w : window.t) : list event :=
  (if decide (0 < i) then [newWindowOp i w] else [])
  ++ (if decide (0 < length (window.Keystrokes w)) then [sendKeysOp w]
      else []).

Fixpoint loopOps (i : nat) (ws : list window.t) : list event :=
  match ws with
  | [] => []
  | w :: ws' => windowOps i w ++ loopOps (S i) ws'
  end.

(** The value of [focus] after the loop: the index of the last window
    whose name is [session.Focus], [acc] when there is none. *)
Fixpoint lastFocus (i : nat) (ws : list window.t) (acc : nat) : nat :=
  match ws with
  | [] => acc
  | w :: ws' =>
      lastFocus (S i) ws'
        (if decide (session.Focus s = window.Name w) then i else acc)
  end.

(** Every tmux invocation of a run in which none fails; [h] is what
    happened before the first of them. *)
Definition tmuxOps (host : World) (h : list event) : list event :=
  match session.Windows s with
  | [] => []
  | w0 :: _ =>
      (newSessionOp w0
       :: (setEnvironmentOp
             <$> rangeOrder host (h ++ [newSessionOp w0])
                   (session.Environment s)))
      ++ loopOps 0 (session.Windows s)
      ++ [selectWindowOp (lastFocus 0 (session.Windows s) 0); attachOp]
  end.
End Plan.

Section Attempted.
Context (host : World).

(** The operations performed when [es] are asked for in order and the
    first failure ends the run, and whether all of them succeeded. *)
Fixpoint attempted (h : list event) (es : list event) : list event * bool :=
  match es with
  | [] => ([], true)
  | e :: es' =>
      if fails host (h ++ [e]) then ([e], false)
      else let r := attempted (h ++ [e]) es' in (e :: r.1, r.2)
  end.

(** [m], started in [st], performs the operations [es] in order until one
    fails, changes nothing else, and returns [a] when none fails. *)
Definition performs {A} (m : M A) (st : OS) (es : list event) (a : A)
  : Prop :=
  (m st).2 = {| environ := environ st; files := files st;
                trace := trace st ++ (attempted (trace st) es).1 |}
  ∧ if (attempted (trace st) es).2 then (m st).1 = inr a
    else is_error (m st).1 = true.

(** The operations a run of [materialize] adds to the trace. *)
Definition issued (s : session.t) (st : OS) : list event :=
  drop (length (trace st)) (trace (Main.materialize host s st).2).

(** [run] from [session.create] on (lines 70-99). *)
Definition tmuxPart (s : session.t) : M unit :=
  mask (Main.create host s) ;;'
  i ←' Main.windowLoop host s 0 (session.Windows s) 0;
  mask (Main.focus host s i) ;;'
  mask (Main.tmux host s ["attach"; "-t"; session.Name s]).
End Attempted.

(** The create-session invocation and the create-window invocations of a
    session, window by window. *)
Definition creationPlan (s : session.t) (env : gmap string string)
  : list event :=
  match session.Windows s with
  | [] => []
  | w0 :: ws =>
      newSessionOp s env w0 :: imap (λ j w, newWindowOp s env (S j) w) ws
  end.

(** The operations a call of [setupScript] adds to the trace. *)
Definition setupIssued (host : World) (s : session.t) (st : OS) : list event :=
  drop (length (trace st)) (trace (Main.setupScript host s st).2).

(** The path [locateSession] looks for in the configuration directory
    (lines 109-120). *)
Definition configPath (join : list string → string)
  (env : gmap string string) (name : string) : string :=
  let configDir :=
    if decide (os.Getenv env "XDG_CONFIG_HOME" = EmptyString)
    then join [os.Getenv env "HOME"; ".config"]
    else os.Getenv env "XDG_CONFIG_HOME" in
  join [join [configDir; "tmuxg"]; name +:+ ".yaml"].

Definition configDirOf (join : list string → string)
  (env : gmap string string) : string :=
  let configDir :=
    if decide (os.Getenv env "XDG_CONFIG_HOME" = EmptyString)
    then join [os.Getenv env "HOME"; ".config"]
    else os.Getenv env "XDG_CONFIG_HOME" in
  join [configDir; "tmuxg"].

(** ** Sample hosts, sessions and documents *)

(** A host on which nothing fails and [range] follows the map's own list. *)
Definition calm : World :=
  {| fails := λ _, false;
     tempName := λ _, "/tmp/tmuxg-setup042";
     rangeOrder := λ _ m, map_to_list m |}.

(** A host whose tmux server refuses every command, as when a session of
    that name is running already. *)
Definition refusing : World :=
  {| fails := λ t, match last t with
                   | Some (cmd_Run c) => bool_decide (Path c = "tmux")
                   | _ => false
                   end;
     tempName := λ _, "/tmp/tmuxg-setup042";
     rangeOrder := λ _ m, map_to_list m |}.

(** A host on which the first operation fails: the argument cannot be
    examined. *)
Definition unreadable : World :=
  {| fails := λ t, bool_decide (length t = 1);
     tempName := λ _, "/tmp/tmuxg-setup042";
     rangeOrder := λ _ m, map_to_list m |}.

Definition boot : OS :=
  {| environ := {[ "HOME" := "/home/u" ]}; files := ∅; trace := [] |}.

(** The example of the README, shortened to three windows. *)
Definition myproject : session.t :=
  {| session.Name := "myproject";
     session.SetupScript := EmptyString;
     session.Environment := {[ "GOPATH" := "${HOME}/myproject/gopath" ]};
     session.Cwd := "${GOPATH}/src/github.com/cmars/myproject";
     session.Windows :=
       [ window.mk "editor" "vim" EmptyString ["\n"];
         window.mk "shell" EmptyString EmptyString [];
         window.mk "top" "top" EmptyString [] ];
     session.Focus := "top" |}.

(** The same with a [focus] that names no window. *)
Definition unfocused : session.t :=
  {| session.Name := session.Name myproject;
     session.SetupScript := session.SetupScript myproject;
     session.Environment := session.Environment myproject;
     session.Cwd := session.Cwd myproject;
     session.Windows := session.Windows myproject;
     session.Focus := "missing" |}.

(** A session with a setup script and no window. *)
Definition scriptOnly : session.t :=
  {| session.Name := "bare";
     session.SetupScript := String "010" "#!/bin/bash
mkdir -p ${GOPATH}
";
     session.Environment := ∅;
     session.Cwd := EmptyString;
     session.Windows := [];
     session.Focus := EmptyString |}.

(** [filepath.Join] on elements that are clean and not empty. *)
Definition plainJoin (elem : list string) : string := String.concat "/" elem.

(** A decoder that knows one document. *)
Definition decodeAs (s : session.t) (contents : string)
  : error + session.t :=
  if decide (contents = "name: myproject ...") then inr s
  else inl (LibError "yaml").

(** A file system holding that document in the configuration directory. *)
Definition configured : OS :=
  {| environ := {[ "HOME" := "/home/u" ]};
     files := {[ "/home/u/.config/tmuxg/myproject.yaml" :=
                   {| isDir := false; data := "name: myproject ...";
                      mode := mode_0644 |} ]};
     trace := [] |}.

(** ** Predicates on names and on what [locateSession] does *)

Fixpoint all_bytes (p : ascii → bool) (s : string) : bool :=
  match s with
  | EmptyString => true
  | String c s' => p c && all_bytes p s'
  end.

(** [s] does not go on with a byte that could belong to a name. *)
Definition stops (s : string) : bool :=
  match s with
  | EmptyString => true
  | String c _ => negb (os.isAlphaNum c)
  end.

(** What both revisions of [locateSession] do with an argument that is an
    existing file other than a directory, with one that cannot be examined,
    and with one that does not exist: then [os.MkdirAll] fails exactly when
    the host refuses it or the name is taken by something that is not a
    directory, and the call fails there; otherwise the directory is there,
    nothing else has changed, and the path in it is returned exactly when
    the second [os.Stat] is not refused and the file exists. *)
Definition resolves (host : World) (join : list string → string)
  (loc : string → M string) : Prop :=
  ∀ name st,
    let stat1 := os_Stat name in
    let dir := configDirOf join (environ st) in
    let path := configPath join (environ st) name in
    let mk := os_MkdirAll dir mode_0644 in
    let stat2 := os_Stat path in
    let out := loc name st in
    (fails host (trace st ++ [stat1]) = true →
       out = (inl (Notef (SysError stat1) "failed to open session file %q"
                     [name]),
              record stat1 st))
    ∧ (fails host (trace st ++ [stat1]) = false →
       ∀ f, files st !! name = Some f → isDir f = false →
            out = (inr name, record stat1 st))
    ∧ (fails host (trace st ++ [stat1]) = false →
       files st !! name = None →
       environ out.2 = environ st
       ∧ if fails host (trace st ++ [stat1; mk])
            || match files st !! dir with
               | Some d => negb (isDir d)
               | None => false
               end
         then
           out = (inl (Notef (SysError mk)
                         "failed to create config directory %q" [dir]),
                  record mk (record stat1 st))
         else
           trace out.2 = trace st ++ [stat1; mk; stat2]
           ∧ (∃ d, files out.2 !! dir = Some d ∧ isDir d = true)
           ∧ (∀ p, p ≠ dir → files out.2 !! p = files st !! p)
           ∧ if fails host (trace st ++ [stat1; mk; stat2])
                || bool_decide (files out.2 !! path = None)
             then is_error out.1 = true
             else out.1 = inr path).

(** ** More of [unnamed/part_000] *)

(** The first revision (lines 1-359): [create], which differs from that of
    [main.go] in the target and in the message of [set-environment];
    [tmux] (lines 265-273) is that of [main.go]. *)
Module Part000a.
Section Program.
Context (host : World).

(** The loop of [session.create] (lines 318-324). *)
Fixpoint setEnvironment (s : session.t) (kvs : list (string * string))
  : M unit :=
  match kvs with
  | [] => ret tt
  | (k, v) :: kvs' =>
      v' ←' os_expandEnv v;
      notef "warning: failed to set environment variable %q" [k]
        (Main.tmux host s
           ["set-environment"; "-t"; session.Name s; k; v']) ;;'
      setEnvironment s kvs'
  end.

(** Lines 307-327. *)
Definition create (s : session.t) : M unit :=
  match session.Windows s with
  | [] => fail (New "no windows configured for this session!")
  | w0 :: _ =>
      cmd ←' os_expandEnv (window.Command w0);
      notef "failed to start tmux session" []
        (Main.tmux host s
           ["new-session"; "-d"; "-s"; session.Name s; cmd]) ;;'
      kvs ←' range host (session.Environment s);
      setEnvironment s kvs
  end.

End Program.
End Part000a.

(** [run] of the first revision (lines 50-121).  [args] is [flag.Args()],
    [editFlag] and [setupFlag] are the values of [-edit] and [-setup].
    [newSessionFile] (lines 182-243), which writes a new session file from
    a template and opens an editor on it, is not modelled: it is a
    parameter, and what is proved of [run] holds whatever it does.
    [os.Exit(0)] ends the process as a [run] that returns [nil] does.
    [setupScript], [createWindow], [sendKeys], [focus] and [tmux] are those
    of [main.go]. *)
Module Part000r.
Section Program.
Context (host : World).
Context (filepath_Join : list string → string).
Context (yaml_Unmarshal : string → error + session.t).
Context (editFlag setupFlag : bool).
Context (newSessionFile : string → M unit).

(** [os.IsNotExist] of an [err] that may be [nil]. *)
Definition isNotExist {A} (r : error + A) : bool :=
  match r with inl err => os_IsNotExist err | inr _ => false end.

(** [run] from the moment the session is loaded (lines 75-120); [setup] is
    the value of [*setupFlag] at that moment. *)
Definition materialize (setup : bool) (s : session.t) : M unit :=
  kvs ←' range host (session.Environment s);
  Main.setenvAll kvs ;;'
  r ←' attempt (os_stat host (session.Cwd s));
  let setup := setup || isNotExist r in
  (if setup then
     notef "failed to execute setup script" [] (Main.setupScript host s)
   else ret tt) ;;'
  mask (Part000a.create host s) ;;'
  i ←' Main.windowLoop host s 0 (session.Windows s) 0;
  mask (Main.focus host s i) ;;'
  mask (Main.tmux host s ["attach"; "-t"; session.Name s]).

Definition run (args : list string) : M unit :=
  if decide (length args < 1) then
    fail (New "missing session file argument")
  else
    let arg := default EmptyString (args !! 0) in
    r ←' attempt (Part000.locateSession host filepath_Join arg);
    let name := match r with inr n => n | inl _ => EmptyString end in
    p ←' (if isNotExist r || editFlag then
            r' ←' attempt (newSessionFile arg);
            ret (true, match r' with inl e => Some e | inr _ => None end)
          else
            ret (setupFlag, match r with inl e => Some e | inr _ => None end));
    match p.2 with
    | Some err => fail (Mask err)
    | None =>
        if editFlag then ret tt
        else
          s ←' mask (Part000.newSession host yaml_Unmarshal name);
          materialize p.1 s
    end.

End Program.
End Part000r.

(** The second revision (lines 360-527): no configuration directory, no
    setup script, the default tmux server.  Its [session] has no
    [SetupScript] field; the field of [session.t] is not read here. *)
Module Part000b.
Section Program.
Context (host : World).

(** The command [session.tmux] builds (lines 466-470). *)
Definition tmuxCmd (s : session.t) (env : gmap string string)
  (args : list string) : Cmd :=
  let c := exec_Command "tmux" args in
  {| Path := Path c; Args := Args c;
     Dir := os.ExpandEnv env (session.Cwd s);
     Stdin := Inherited; Stdout := Inherited; Stderr := Inherited |}.

Definition tmux (s : session.t) (args : list string) : M unit :=
  λ st, mask (cmd_run host (tmuxCmd s (environ st) args)) st.

(** Lines 475-485. *)
Definition create (s : session.t) : M unit :=
  match session.Windows s with
  | [] => fail (New "no windows configured for this session!")
  | w0 :: _ =>
      cmd ←' os_expandEnv (window.Command w0);
      notef "failed to start tmux session" []
        (tmux s ["new-session"; "-d"; "-s"; session.Name s; cmd])
  end.

(** The loop of [session.updateEnvironment] (lines 488-493). *)
Fixpoint setEnvironment (s : session.t) (kvs : list (string * string))
  : M unit :=
  match kvs with
  | [] => ret tt
  | (k, v) :: kvs' =>
      v' ←' os_expandEnv v;
      notef "failed to set session environment variables" []
        (tmux s ["set-environment"; "-t"; session.Name s; k; v']) ;;'
      setEnvironment s kvs'
  end.

(** Lines 487-495. *)
Definition updateEnvironment (s : session.t) : M unit :=
  kvs ←' range host (session.Environment s);
  setEnvironment s kvs.

(** Lines 497-509. *)
Definition createWindow (s : session.t) (i : nat) (w : window.t) : M unit :=
  let cwd := window.Cwd w in
  let cwd := if decide (cwd = EmptyString) then session.Cwd s else cwd in
  cwd ←' os_expandEnv cwd;
  cmd ←' os_expandEnv (window.Command w);
  notef "failed to create window %q" [window.Name w]
    (tmux s ["new-window"; "-t"; target (session.Name s) i;
             "-c"; cwd; cmd]).

(** Lines 511-519. *)
Definition sendKeys (s : session.t) (w : window.t) : M unit :=
  if decide (0 < length (window.Keystrokes w)) then
    notef "failed to send keystrokes to window %q" [window.Name w]
      (tmux s ("send-keys" :: window.Keystrokes w))
  else ret tt.

(** Lines 521-527. *)
Definition focus (s : session.t) (i : nat) : M unit :=
  notef "failed to set window focus" []
    (tmux s ["select-window"; "-t"; target (session.Name s) i]).

(** The loop of [run] over [session.Windows] (lines 424-441). *)
Fixpoint windowLoop (s : session.t) (i : nat) (ws : list window.t)
  (focus : nat) : M nat :=
  match ws with
  | [] => ret focus
  | w :: ws' =>
      (if decide (0 < i) then mask (createWindow s i w) else ret tt) ;;'
      mask (sendKeys s w) ;;'
      windowLoop s (S i) ws'
        (if decide (session.Focus s = window.Name w) then i else focus)
  end.

(** [run] from the moment the session is loaded (lines 410-448); the loop
    over [session.Environment] is that of [main.go]. *)
Definition materialize (s : session.t) : M unit :=
  kvs ←' range host (session.Environment s);
  Main.setenvAll kvs ;;'
  mask (create s) ;;'
  mask (updateEnvironment s) ;;'
  i ←' windowLoop s 0 (session.Windows s) 0;
  mask (focus s i) ;;'
  mask (tmux s ["attach"; "-t"; session.Name s]).

Context (yaml_Unmarshal : string → error + session.t).

(** Lines 451-463. *)
Definition newSession (path : string) : M session.t :=
  contents ←' notef "failed to read session file" []
                (ioutil_readFile host path);
  match yaml_Unmarshal contents with
  | inl err => fail (Notef err "failed to parse session file" [])
  | inr s => ret s
  end.

(** [run] (lines 399-449); [args] is [os.Args]. *)
Definition run (args : list string) : M unit :=
  if decide (length args < 2) then
    fail (New "missing session file argument")
  else
    s ←' mask (newSession (default EmptyString (args !! 1)));
    materialize s.

End Program.
End Part000b.

(** ** Steps and the errors they are reported with *)

Section Blame.
Context (host : World).

(** The error of the first of the steps [es] that fails; a step is an
    operation together with the error that is returned when it fails. *)
Fixpoint firstFailure (h : list event) (es : list (event * error))
  : option error :=
  match es with
  | [] => None
  | (e, err) :: es' =>
      if fails host (h ++ [e]) then Some err
      else firstFailure (h ++ [e]) es'
  end.

(** [m], started in [st], performs the operations of the steps [es] in
    order until one fails, changes nothing else, and returns that step's
    error, or [a] when no step fails. *)
Definition reports {A} (m : M A) (st : OS) (es : list (event * error))
  (a : A) : Prop :=
  (m st).2 = {| environ := environ st; files := files st;
                trace := trace st ++ (attempted host (trace st) es.*1).1 |}
  ∧ (m st).1 = match firstFailure (trace st) es with
               | Some err => inl err
               | None => inr a
               end.

(** The operations a run of [Main.run] adds to the trace. *)
Definition ran (join : list string → string)
  (unmarshal : string → error + session.t) (args : list string) (st : OS)
  : list event :=
  drop (length (trace st)) (trace (Main.run host join unmarshal args st).2).

End Blame.

(** The step of an operation whose failure is passed through [f]. *)
Definition step (f : error → error) (e : event) : event * error :=
  (e, f (SysError e)).

(** The steps of [main.go]: the operations of the plan, each with the error
    [run] returns when it fails. *)
Section Steps.
Context (s : session.t) (env : gmap string string).

Definition newSessionStep (w0 : window.t) : event * error :=
  step (λ x, Mask (Notef (Mask x) "failed to start tmux session" []))
    (newSessionOp s env w0).

Definition setEnvironmentStep (kv : string * string) : event * error :=
  step (λ x, Mask (Notef (Mask x) "failed to set environment variable %q"
                     [kv.1]))
    (setEnvironmentOp s env kv).

Definition newWindowStep (i : nat) (w : window.t) : event * error :=
  step (λ x, Mask (Notef (Mask x) "failed to create window %q"
                     [window.Name w]))
    (newWindowOp s env i w).

Definition sendKeysStep (w : window.t) : event * error :=
  step (λ x, Mask (Notef (Mask x) "failed to send keystrokes to window %q"
                     [window.Name w]))
    (sendKeysOp s env w).

Definition selectWindowStep (i : nat) : event * error :=
  step (λ x, Mask (Notef (Mask x) "failed to set window focus" []))
    (selectWindowOp s env i).

Definition attachStep : event * error :=
  step (λ x, Mask (Mask x)) (attachOp s env).

Definition windowSteps (i : nat) (w : window.t) : list (event * error) :=
  (if decide (0 < i) then [newWindowStep i w] else [])
  ++ (if decide (0 < length (window.Keystrokes w)) then [sendKeysStep w]
      else []).

Fixpoint loopSteps (i : nat) (ws : list window.t) : list (event * error) :=
  match ws with
  | [] => []
  | w :: ws' => windowSteps i w ++ loopSteps (S i) ws'
  end.

Definition tmuxSteps (host : World) (h : list event)
  : list (event * error) :=
  match session.Windows s with
  | [] => []
  | w0 :: _ =>
      (newSessionStep w0
       :: (setEnvironmentStep
             <$> rangeOrder host (h ++ [newSessionOp s env w0])
                   (session.Environment s)))
      ++ loopSteps 0 (session.Windows s)
      ++ [selectWindowStep (lastFocus s 0 (session.Windows s) 0);
          attachStep]
  end.

(** The steps of [create] in the first revision of [unnamed/part_000]. *)
Definition setEnvironmentStepA (kv : string * string) : event * error :=
  step (λ x, Notef (Mask x) "warning: failed to set environment variable %q"
               [kv.1])
    (cmd_Run (Main.tmuxCmd s env
       ["set-environment"; "-t"; session.Name s; kv.1;
        os.ExpandEnv env kv.2])).

Definition createStepsA (host : World) (h : list event)
  : list (event * error) :=
  match session.Windows s with
  | [] => []
  | w0 :: _ =>
      step (λ x, Notef (Mask x) "failed to start tmux session" [])
        (newSessionOp s env w0)
      :: (setEnvironmentStepA
            <$> rangeOrder host (h ++ [newSessionOp s env w0])
                  (session.Environment s))
  end.

(** The steps of the first revision's [run] from [session.create] on. *)
Definition tmuxStepsA (host : World) (h : list event)
  : list (event * error) :=
  match session.Windows s with
  | [] => []
  | _ :: _ =>
      (prod_map id Mask <$> createStepsA host h)
      ++ loopSteps 0 (session.Windows s)
      ++ [selectWindowStep (lastFocus s 0 (session.Windows s) 0);
          attachStep]
  end.

(** The steps of the second revision of [unnamed/part_000]. *)
Definition stepB (f : error → error) (args : list string) : event * error :=
  step f (cmd_Run (Part000b.tmuxCmd s env args)).

Definition newSessionStepB (w0 : window.t) : event * error :=
  stepB (λ x, Mask (Notef (Mask x) "failed to start tmux session" []))
    ["new-session"; "-d"; "-s"; session.Name s;
     os.ExpandEnv env (window.Command w0)].

Definition setEnvironmentStepB (kv : string * string) : event * error :=
  stepB (λ x, Mask (Notef (Mask x)
                      "failed to set session environment variables" []))
    ["set-environment"; "-t"; session.Name s; kv.1; os.ExpandEnv env kv.2].

Definition newWindowStepB (i : nat) (w : window.t) : event * error :=
  stepB (λ x, Mask (Notef (Mask x) "failed to create window %q"
                      [window.Name w]))
    ["new-window"; "-t"; target (session.Name s) i; "-c";
     os.ExpandEnv env (if decide (window.Cwd w = EmptyString)
                       then session.Cwd s else window.Cwd w);
     os.ExpandEnv env (window.Command w)].

Definition sendKeysStepB (w : window.t) : event * error :=
  stepB (λ x, Mask (Notef (Mask x) "failed to send keystrokes to window %q"
                      [window.Name w]))
    ("send-keys" :: window.Keystrokes w).

Definition windowStepsB (i : nat) (w : window.t) : list (event * error) :=
  (if decide (0 < i) then [newWindowStepB i w] else [])
  ++ (if decide (0 < length (window.Keystrokes w)) then [sendKeysStepB w]
      else []).

Fixpoint loopStepsB (i : nat) (ws : list window.t) : list (event * error) :=
  match ws with
  | [] => []
  | w :: ws' => windowStepsB i w ++ loopStepsB (S i) ws'
  end.

Definition stepsB (host : World) (h : list event) : list (event * error) :=
  match session.Windows s with
  | [] => []
  | w0 :: _ =>
      (newSessionStepB w0
       :: (setEnvironmentStepB
             <$> rangeOrder host (h ++ [(newSessionStepB w0).1])
                   (session.Environment s)))
      ++ loopStepsB 0 (session.Windows s)
      ++ [stepB (λ x, Mask (Notef (Mask x) "failed to set window focus" []))
            ["select-window"; "-t";
             target (session.Name s) (lastFocus s 0 (session.Windows s) 0)];
          stepB (λ x, Mask (Mask x)) ["attach"; "-t"; session.Name s]]
  end.
End Steps.

(** The operations of a setup script that runs: [p] is the temporary file,
    [c] what is written to it. *)
Definition setupOps (p c : string) : list event :=
  [ioutil_TempFile p; file_Write p c; file_Close p; os_Chmod p mode_0700;
   cmd_Run (Main.scriptCmd p); file_Close p; os_Remove p].

Definition isSendKeys (e : event) : Prop := subcommand e = Some "send-keys".

Definition isSetEnvironment (e : event) : Prop :=
  subcommand e = Some "set-environment".

Global Instance isSendKeys_dec e : Decision (isSendKeys e) :=
  decide (subcommand e = Some "send-keys").

Global Instance isSetEnvironment_dec e : Decision (isSetEnvironment e) :=
  decide (subcommand e = Some "set-environment").

(** The fallible operations of a setup script, each with the error
    [setupScript] returns when it fails (lines 156-180). *)
Definition setupSteps (p c : string) : list (event * error) :=
  [step (λ x, Notef x "failed to create temporary file for script" [])
     (ioutil_TempFile p);
   step (λ x, Notef x "failed to write temporary script file" [])
     (file_Write p c);
   step (λ x, Notef x "error closing temporary script file" [])
     (file_Close p);
   step (λ x, Notef x "error setting temporary script executable" [])
     (os_Chmod p mode_0700);
   step Mask (cmd_Run (Main.scriptCmd p))].

(** The operations a run of the second revision's [run] adds to the
    trace. *)
Definition ranB (host : World) (unmarshal : string → error + session.t)
  (args : list string) (st : OS) : list event :=
  drop (length (trace st)) (trace (Part000b.run host unmarshal args st).2).

(** ** More sample hosts, sessions and file systems *)

(** A host on which the operation that brings the trace to length [n]
    fails, and no other. *)
Definition flaky (n : nat) : World :=
  {| fails := λ t, bool_decide (length t = n);
     tempName := λ _, "/tmp/tmuxg-setup042";
     rangeOrder := λ _ m, map_to_list m |}.

(** The README's example with a setup script. *)
Definition bootstrapped : session.t :=
  {| session.Name := session.Name myproject;
     session.SetupScript := session.SetupScript scriptOnly;
     session.Environment := session.Environment myproject;
     session.Cwd := session.Cwd myproject;
     session.Windows := session.Windows myproject;
     session.Focus := session.Focus myproject |}.

(** A file system in which the session's name is also the name of a
    directory, as when tmuxg is started next to the project's checkout. *)
Definition crowded : OS :=
  {| environ := environ configured;
     files := <[ "myproject" := {| isDir := true; data := EmptyString;
                                   mode := mode_0700 |} ]> (files configured);
     trace := [] |}.

(** A session whose [environment] refers to the variable it sets. *)
Definition nested : session.t :=
  {| session.Name := "nested";
     session.SetupScript := EmptyString;
     session.Environment := {[ "HOME" := "${HOME}/work" ]};
     session.Cwd := EmptyString;
     session.Windows := [ window.mk "shell" "bash" EmptyString [] ];
     session.Focus := EmptyString |}.

(** A stand-in for [newSessionFile]: it leaves a session file in the
    configuration directory and reports no error. *)
Definition scaffold (join : list string → string) (name : string) : M unit :=
  λ st, (inr tt,
         with_files
           <[configPath join (environ st) name :=
               {| isDir := false; data := "name: myproject ...";
                  mode := mode_0644 |}]> st).

(** A file system in which the project of the README's example is checked
    out where its [cwd] points to. *)
Definition checkedOut : OS :=
  {| environ := environ configured;
     files := <[ "/home/u/myproject/gopath/src/github.com/cmars/myproject" :=
                   {| isDir := true; data := EmptyString;
                      mode := mode_0700 |} ]> (files configured);
     trace := [] |}.


(** ** Texts with references *)

(** A text as a sequence of parts: text free of ['$'], a reference
    [${name}], a reference [$name], and a reference [$c] to a variable whose
    name is one of the special bytes. *)
Inductive part :=
| Text (t : string)
| Braced (name : string)
| Bare (name : string)
| Special (c : ascii).

(** The part as it is written. *)
Definition written (p : part) : string :=
  match p with
  | Text t => t
  | Braced name => "${" +:+ name +:+ "}"
  | Bare name => "$" +:+ name
  | Special c => String "$" (String c EmptyString)
  end.

Fixpoint source (ps : list part) : string :=
  match ps with
  | [] => EmptyString
  | p :: ps' => written p +:+ source ps'
  end.

(** A name that [$name] can refer to: a letter or an underscore, then
    letters, digits and underscores. *)
Definition bareName (name : string) : bool :=
  match name with
  | EmptyString => false
  | String c name' =>
      os.isAlphaNum c && negb (os.isShellSpecialVar c)
      && all_bytes os.isAlphaNum name'
  end.

(** Every part is what it is meant to be: text holds no ['$'], a name in
    braces is not empty and holds no ['}'], a bare name ends where the
    next part begins. *)
Fixpoint parsed (ps : list part) : bool :=
  match ps with
  | [] => true
  | p :: ps' =>
      match p with
      | Text t => negb (has_byte "$" t)
      | Braced name =>
          negb (bool_decide (name = EmptyString)) && negb (has_byte "}" name)
      | Bare name => bareName name && stops (source ps')
      | Special c => os.isShellSpecialVar c
      end && parsed ps'
  end.

(** A session without [focus] whose windows have no names. *)
Definition anonymous : session.t :=
  {| session.Name := "anon";
     session.SetupScript := EmptyString;
     session.Environment := ∅;
     session.Cwd := EmptyString;
     session.Windows :=
       [ window.mk EmptyString "vim" EmptyString [];
         window.mk EmptyString "top" EmptyString [] ];
     session.Focus := EmptyString |}.

(** * Properties *)

(** ** Strings *)

Lemma app_cons c s t : String c s +:+ t = String c (s +:+ t).
Proof. reflexivity. Qed.

Lemma app_empty_l s : EmptyString +:+ s = s.
Proof. reflexivity. Qed.

Lemma app_empty_r s : s +:+ EmptyString = s.
Proof. induction s as [|c s IH]; [done|]. by rewrite app_cons, IH. Qed.

Lemma app_assoc_s s t u : (s +:+ t) +:+ u = s +:+ t +:+ u.
Proof. induction s as [|c s IH]; [done|]. by rewrite !app_cons, IH. Qed.

Lemma drop_bytes_app s t : drop_bytes (String.length s) (s +:+ t) = t.
Proof. induction s as [|c s IH]; [by destruct t|]. by rewrite app_cons. Qed.

Lemma length_app_s s t :
  String.length (s +:+ t) = String.length s + String.length t.
Proof.
  induction s as [|c s IH]; [done|]. rewrite app_cons. simpl. by rewrite IH.
Qed.

Lemma drop_bytes_0 s : drop_bytes 0 s = s.
Proof. by destruct s. Qed.

Section Expand.
Import os.

Lemma expandFrom_skip mapping k s :
  expandFrom mapping k s = expandFrom mapping 0 (drop_bytes k s).
Proof.
  revert k. induction s as [|c s IH]; intros [|k]; try done.
  simpl. apply IH.
Qed.

Lemma expandFrom_plain mapping c s :
  c ≠ "$"%char →
  expandFrom mapping 0 (String c s) = String c (expandFrom mapping 0 s).
Proof. intros Hc. simpl. by rewrite bool_decide_eq_false_2. Qed.

Lemma expandFrom_literal mapping p s :
  has_byte "$" p = false →
  expandFrom mapping 0 (p +:+ s) = p +:+ expandFrom mapping 0 s.
Proof.
  induction p as [|c p IH]; [done|]. simpl has_byte. case_decide; [done|].
  intros Hp. rewrite !app_cons, expandFrom_plain by done. by rewrite IH.
Qed.

Lemma untilBrace_app name rest :
  has_byte "}" name = false →
  untilBrace (name +:+ String "}" rest) = Some name.
Proof.
  induction name as [|c name IH]; simpl has_byte.
  - intros _. rewrite app_empty_l. cbn [untilBrace]. by rewrite decide_True.
  - case_decide; [done|]. intros Hn. rewrite app_cons. cbn [untilBrace].
    rewrite decide_False by done. by rewrite IH.
Qed.

Lemma getShellName_braced name rest :
  name ≠ EmptyString → has_byte "}" name = false →
  getShellName (String "{" (name +:+ String "}" rest))
  = (name, String.length name + 2).
Proof.
  intros Hne Hb. unfold getShellName.
  destruct (bracedSpecial (name +:+ String "}" rest)) as [c|] eqn:Hs.
  - unfold bracedSpecial in Hs.
    destruct name as [|c1 [|c2 name]]; try done.
    + rewrite app_cons, app_empty_l in Hs. case_match; by simplify_eq.
    + rewrite !app_cons in Hs. simpl in Hb.
      repeat case_decide; try done. repeat case_match; simplify_eq.
  - rewrite untilBrace_app by done. by destruct name.
Qed.

Lemma expandFrom_dollar mapping rest :
  rest ≠ EmptyString →
  expandFrom mapping 0 (String "$" rest)
  = (let '(name, w) := getShellName rest in
     (if bool_decide (name = EmptyString)
      then (if bool_decide (w = 0) then "$" else EmptyString)
      else mapping name) +:+ expandFrom mapping w rest).
Proof.
  intros Hr. change (expandFrom mapping 0 (String "$" rest)) with
    (if bool_decide ("$"%char = "$"%char) && negb (bool_decide (rest = EmptyString))
     then let '(name, w) := getShellName rest in
          (if bool_decide (name = EmptyString)
           then (if bool_decide (w = 0) then "$" else EmptyString)
           else mapping name) +:+ expandFrom mapping w rest
     else String "$" (expandFrom mapping 0 rest)).
  by rewrite bool_decide_eq_true_2, (bool_decide_eq_false_2 (rest = _)).
Qed.

Lemma expandFrom_braced mapping name rest :
  name ≠ EmptyString → has_byte "}" name = false →
  expandFrom mapping 0 (String "$" (String "{" (name +:+ String "}" rest)))
  = mapping name +:+ expandFrom mapping 0 rest.
Proof.
  intros Hne Hb.
  rewrite expandFrom_dollar by done.
  rewrite getShellName_braced by done.
  rewrite (bool_decide_eq_false_2 (name = _)) by done.
  f_equal. rewrite (expandFrom_skip _ (_ + 2)).
  replace (String.length name + 2) with (S (String.length (name +:+ "}"))).
  2:{ rewrite length_app_s. simpl. lia. }
  cbn [drop_bytes].
  replace (name +:+ String "}" rest) with ((name +:+ "}") +:+ rest).
  2:{ by rewrite app_assoc_s. }
  by rewrite drop_bytes_app.
Qed.
End Expand.

Section AttemptedFacts.
Context (host : World).

Lemma attempted_prefix h es : (attempted host h es).1 `prefix_of` es.
Proof.
  revert h. induction es as [|e es IH]; intros h; simpl; [done|].
  destruct (fails _ _); simpl.
  - by exists es.
  - by apply prefix_cons.
Qed.

Lemma attempted_all h es :
  (attempted host h es).2 = true → (attempted host h es).1 = es.
Proof.
  revert h. induction es as [|e es IH]; intros h; simpl; [done|].
  destruct (fails _ _); simpl; [done|]. intros ?. f_equal. by apply IH.
Qed.

Lemma attempted_app h es1 es2 :
  attempted host h (es1 ++ es2) =
    if (attempted host h es1).2
    then let r := attempted host (h ++ es1) es2 in (es1 ++ r.1, r.2)
    else ((attempted host h es1).1, false).
Proof.
  revert h. induction es1 as [|e es1 IH]; intros h; simpl.
  - rewrite app_nil_r. by destruct (attempted host h es2).
  - destruct (fails _ _); simpl; [done|].
    rewrite IH. rewrite <-app_assoc. simpl.
    by destruct (attempted host (h ++ [e]) es1).2.
Qed.

Lemma attempted_calm h es :
  (∀ t, fails host t = false) → attempted host h es = (es, true).
Proof.
  intros Hc. revert h. induction es as [|e es IH]; intros h; simpl; [done|].
  by rewrite Hc, IH.
Qed.

Lemma OS_eta st :
  {| environ := environ st; files := files st; trace := trace st |} = st.
Proof. by destruct st. Qed.

Lemma performs_ret {A} (a : A) st : performs host (ret a) st [] a.
Proof. split; simpl; [|done]. by rewrite app_nil_r, OS_eta. Qed.

Lemma performs_wrap {A} f (m : M A) st es a :
  performs host m st es a → performs host (wrap f m) st es a.
Proof.
  unfold performs, wrap. destruct (m st) as [[e|x] st']; simpl; [|done].
  intros [-> H]. split; [done|]. by destruct (attempted host _ _).2.
Qed.

Lemma performs_bind {A B} (m : M A) (k : A → M B) st es1 es2 a b :
  performs host m st es1 a →
  (∀ st1, environ st1 = environ st → files st1 = files st →
          trace st1 = trace st ++ es1 → performs host (k a) st1 es2 b) →
  performs host (bind m k) st (es1 ++ es2) b.
Proof.
  unfold performs at 1 3, bind. intros [Hst Hr] Hk.
  rewrite attempted_app.
  destruct (attempted host (trace st) es1).2 eqn:Hok.
  - apply attempted_all in Hok as Hl. rewrite Hl in Hst.
    destruct (m st) as [r st1]; simpl in *. subst r st1.
    destruct (Hk {| environ := environ st; files := files st;
                    trace := trace st ++ es1 |} eq_refl eq_refl eq_refl)
      as [Hst2 Hr2]. simpl in *.
    rewrite Hst2. split; [by rewrite app_assoc|done].
  - destruct (m st) as [[e|x] st1]; simpl in *; [done|done].
Qed.

Lemma performs_sys e st : performs host (sys host e) st [e] tt.
Proof.
  unfold performs, sys, record. simpl.
  destruct (fails host _); simpl; done.
Qed.

Lemma performs_tmux s args st :
  performs host (Main.tmux host s args) st
    [cmd_Run (Main.tmuxCmd s (environ st) args)] tt.
Proof. apply performs_wrap, performs_sys. Qed.
End AttemptedFacts.

Section Materializer.
Context (host : World) (s : session.t).

Lemma performs_env {A} (m : M A) st es es' a :
  es = es' → performs host m st es a → performs host m st es' a.
Proof. by intros ->. Qed.

Lemma performs_createWindow i w st :
  performs host (Main.createWindow host s i w) st
    [newWindowOp s (environ st) i w] tt.
Proof. apply (performs_wrap host _ (Main.tmux host s _)), performs_tmux. Qed.

Lemma performs_sendKeys w st :
  performs host (Main.sendKeys host s w) st
    (if decide (0 < length (window.Keystrokes w))
     then [sendKeysOp s (environ st) w] else []) tt.
Proof.
  unfold Main.sendKeys. case_decide.
  - apply performs_wrap, performs_tmux.
  - apply performs_ret.
Qed.

Lemma performs_focus i st :
  performs host (Main.focus host s i) st [selectWindowOp s (environ st) i] tt.
Proof. apply performs_wrap, performs_tmux. Qed.

Lemma performs_windowLoop ws i acc st :
  performs host (Main.windowLoop host s i ws acc) st
    (loopOps s (environ st) i ws) (lastFocus s i ws acc).
Proof.
  revert i acc st. induction ws as [|w ws IH]; intros i acc st.
  - apply performs_ret.
  - cbn [Main.windowLoop loopOps]. unfold windowOps. rewrite <-app_assoc.
    eapply performs_bind.
    { case_decide.
      - apply performs_wrap, performs_createWindow.
      - apply performs_ret. }
    intros st1 He1 _ _. eapply performs_bind.
    { rewrite <-He1. apply performs_wrap, performs_sendKeys. }
    intros st2 He2 _ _. rewrite <-He1, <-He2. apply IH.
Qed.

Lemma performs_setEnvironment kvs st :
  performs host (Main.setEnvironment host s kvs) st
    (setEnvironmentOp s (environ st) <$> kvs) tt.
Proof.
  revert st. induction kvs as [|[k v] kvs IH]; intros st.
  - apply performs_ret.
  - cbn [Main.setEnvironment fmap list_fmap].
    apply (performs_bind host _ _ st [_] _ tt tt).
    { apply (performs_wrap host _ (Main.tmux host s _)), performs_tmux. }
    intros st1 He1 _ _. rewrite <-He1. apply IH.
Qed.

Lemma performs_create st w0 ws :
  session.Windows s = w0 :: ws →
  performs host (Main.create host s) st
    (newSessionOp s (environ st) w0
     :: (setEnvironmentOp s (environ st)
           <$> rangeOrder host (trace st ++ [newSessionOp s (environ st) w0])
                 (session.Environment s))) tt.
Proof.
  intros Hw. unfold Main.create. rewrite Hw.
  apply (performs_bind host _ _ st [_] _ tt tt).
  { apply (performs_wrap host _ (Main.tmux host s _)), performs_tmux. }
  intros st1 He1 _ Ht1.
  eapply performs_env;
    [|apply (performs_setEnvironment (rangeOrder host (trace st1) _) st1)].
  by rewrite He1, Ht1.
Qed.

Lemma performs_tmuxPart st :
  session.Windows s ≠ [] →
  performs host (tmuxPart host s) st (tmuxOps s (environ st) host (trace st)) tt.
Proof.
  intros Hw. unfold tmuxPart, tmuxOps.
  destruct (session.Windows s) as [|w0 ws] eqn:Hws; [done|].
  eapply performs_bind.
  { apply performs_wrap, (performs_create _ w0 ws). done. }
  intros st1 He1 _ _. eapply performs_bind.
  { rewrite <-He1. apply performs_windowLoop. }
  intros st2 He2 _ _.
  apply (performs_bind host _ _ st2 [_] [_] tt tt).
  { rewrite <-He1, <-He2. apply performs_wrap, performs_focus. }
  intros st3 He3 _ _. rewrite <-He1, <-He2, <-He3.
  apply performs_wrap, performs_tmux.
Qed.
End Materializer.

Section Setup.
Context (host : World) (s : session.t).

Lemma setupScript_empty st :
  session.SetupScript s = EmptyString →
  Main.setupScript host s st = (inr tt, st).
Proof. intros H. unfold Main.setupScript. by rewrite decide_True. Qed.

Lemma setupScript_outcomes st :
  session.SetupScript s ≠ EmptyString →
  let p := tempName host (trace st) in
  let c := strings.TrimSpace (session.SetupScript s) in
  let r := (Main.setupScript host s st).1 in
  let st' := (Main.setupScript host s st).2 in
  environ st' = environ st ∧ files st' = files st ∧
  ∃ l, trace st' = trace st ++ l ∧
    ((l = [ioutil_TempFile p] ∧ is_error r = true)
     ∨ (files st !! p = None ∧ files st' !! p = None ∧
        ((l = [ioutil_TempFile p; file_Write p c; file_Close p; os_Remove p]
          ∧ is_error r = true)
         ∨ (l = [ioutil_TempFile p; file_Write p c; file_Close p;
                 file_Close p; os_Remove p]
            ∧ is_error r = true)
         ∨ (l = [ioutil_TempFile p; file_Write p c; file_Close p;
                 os_Chmod p mode_0700; file_Close p; os_Remove p]
            ∧ is_error r = true)
         ∨ (l = [ioutil_TempFile p; file_Write p c; file_Close p;
                 os_Chmod p mode_0700; cmd_Run (Main.scriptCmd p);
                 file_Close p; os_Remove p]
            ∧ (r = inr tt ↔
               fails host (trace st ++
                 [ioutil_TempFile p; file_Write p c; file_Close p;
                  os_Chmod p mode_0700; cmd_Run (Main.scriptCmd p)])
               = false))))).
Proof.
  intros Hne p c r st'. subst r st'. unfold Main.setupScript.
  rewrite decide_False by done.
  unfold bind, notef, wrap, deferred, ioutil_tempFile, file_write,
    file_close, os_chmod, cmd_run, os_remove, sys, mask, wrap.
  fold p. fold c. cbn [record trace files environ with_files fst snd].
  destruct (fails host (trace st ++ [ioutil_TempFile p])) eqn:Hf1;
    cbn [orb record trace files environ with_files fst snd].
  { split_and!; [done..|]. eexists. split; [done|]. by left. }
  case_bool_decide as Hex;
    cbn [orb record trace files environ with_files fst snd].
  { split_and!; [done..|]. eexists. split; [done|]. by left. }
  rewrite <-eq_None_not_Some in Hex.
  replace (trace st ++ [ioutil_TempFile p; file_Write p c; file_Close p;
                        os_Chmod p mode_0700; cmd_Run (Main.scriptCmd p)])
    with (((((trace st ++ [ioutil_TempFile p]) ++ [file_Write p c])
             ++ [file_Close p]) ++ [os_Chmod p mode_0700])
             ++ [cmd_Run (Main.scriptCmd p)])
    by (by rewrite <-!app_assoc).
  repeat match goal with
    | |- context [fails host ?t] =>
        destruct (fails host t) eqn:?;
        cbn [record trace files environ with_files fst snd]
    end;
  (split_and!; [done | by rewrite ?delete_alter_eq, delete_insert_id |]);
  (eexists; split; [by rewrite <-?app_assoc|]);
  right; (split; [done|]);
  (split; [by rewrite ?delete_alter_eq, delete_insert_id|]);
  repeat match goal with
    | H : fails host _ = _ |- _ => rewrite <-?app_assoc in H; simpl in H
    end.
  all: try first
    [ left; split; [reflexivity|done]
    | right; left; split; [reflexivity|done]
    | right; right; left; split; [reflexivity|done]
    | right; right; right; split; [reflexivity|]; split; congruence ].
Qed.

End Setup.

Section MaterializeSpec.
Context (host : World) (s : session.t).

Lemma setenvAll_spec kvs st :
  Main.setenvAll kvs st = (inr tt, with_environ (commitEnv kvs) st).
Proof.
  revert st. induction kvs as [|[k v] kvs IH]; intros st.
  - by destruct st.
  - change (Main.setenvAll ((k, v) :: kvs) st) with
      (Main.setenvAll kvs
         (with_environ <[k := os.ExpandEnv (environ st) v]> st)).
    by rewrite IH.
Qed.

Lemma setup_summary st :
  let r := (Main.setupScript host s st).1 in
  let st' := (Main.setupScript host s st).2 in
  environ st' = environ st ∧ files st' = files st ∧
  ∃ l, trace st' = trace st ++ l ∧
    (∀ e, e ∈ l → subcommand e = None) ∧
    (∀ c, cmd_Run c ∈ l →
       session.SetupScript s ≠ EmptyString ∧
       c = Main.scriptCmd (tempName host (trace st))) ∧
    (session.SetupScript s = EmptyString → l = [] ∧ r = inr tt).
Proof.
  intros r st'. subst r st'.
  destruct (decide (session.SetupScript s = EmptyString)) as [He|Hne].
  - rewrite setupScript_empty by done. simpl. split_and!; [done..|].
    exists []. rewrite app_nil_r. split_and!; [done|set_solver..|done].
  - destruct (setupScript_outcomes host s st Hne)
      as (He & Hf & l & Ht & Hl).
    split_and!; [done..|]. exists l. split; [done|].
    assert (∀ e, e ∈ l →
              subcommand e = None ∧
              ∀ c, e = cmd_Run c →
                   c = Main.scriptCmd (tempName host (trace st))) as Hall.
    { intros e Hin.
      destruct Hl as [[-> _]|(_ & _ & [[-> _]|[[-> _]|[[-> _]|[-> _]]]])];
        repeat (apply elem_of_cons in Hin as [->|Hin]);
        try (by apply elem_of_nil in Hin);
        (split; [done|]); intros c' Hc'; by simplify_eq. }
    split_and!.
    + intros e Hin. by apply Hall.
    + intros c Hin. split; [done|]. by eapply Hall.
    + done.
Qed.

Lemma tmuxPart_summary st :
  let r := (tmuxPart host s st).1 in
  let st' := (tmuxPart host s st).2 in
  environ st' = environ st ∧ files st' = files st ∧
  ∃ l, trace st' = trace st ++ l ∧
    l `prefix_of` tmuxOps s (environ st) host (trace st) ∧
    (r = inr tt →
       l = tmuxOps s (environ st) host (trace st) ∧ session.Windows s ≠ []) ∧
    (session.Windows s = [] → r = inl (Mask NoWindowsConfigured)).
Proof.
  intros r st'. subst r st'.
  destruct (decide (session.Windows s = [])) as [Hw|Hw].
  - unfold tmuxPart, tmuxOps, bind, mask, wrap, Main.create, fail.
    rewrite Hw. simpl. split_and!; [done..|].
    exists []. rewrite app_nil_r. split_and!; done.
  - destruct (performs_tmuxPart host s st Hw) as [Hst Hr].
    rewrite Hst. simpl. split_and!; [done..|].
    eexists. split; [done|]. split_and!.
    + apply attempted_prefix.
    + intros Hok.
      destruct (attempted host (trace st) _).2 eqn:Hb.
      * split; [|done]. by apply attempted_all.
      * by rewrite Hok in Hr.
    + done.
Qed.

Lemma materialize_unfold st :
  Main.materialize host s st =
    let st1 := with_environ
                 (commitEnv (rangeOrder host (trace st)
                               (session.Environment s))) st in
    match Main.setupScript host s st1 with
    | (inl e, st2) =>
        (inl (Notef e "failed to execute setup script" []), st2)
    | (inr _, st2) => tmuxPart host s st2
    end.
Proof.
  unfold Main.materialize. unfold bind at 1 2, range. cbn beta iota.
  rewrite setenvAll_spec. unfold bind at 1, notef, wrap. cbn zeta.
  by destruct (Main.setupScript host s _) as [[e|[]] st2].
Qed.

Lemma materialize_spec st :
  let kvs := rangeOrder host (trace st) (session.Environment s) in
  let env' := commitEnv kvs (environ st) in
  let r := (Main.materialize host s st).1 in
  let st' := (Main.materialize host s st).2 in
  environ st' = env' ∧ files st' = files st ∧
  ∃ l1 l2, issued host s st = l1 ++ l2 ∧
    (∀ e, e ∈ l1 → subcommand e = None) ∧
    (∀ c, cmd_Run c ∈ l1 →
       session.SetupScript s ≠ EmptyString ∧
       c = Main.scriptCmd (tempName host (trace st))) ∧
    (session.SetupScript s = EmptyString → l1 = []) ∧
    l2 `prefix_of` tmuxOps s env' host (trace st ++ l1) ∧
    (r = inr tt →
       l2 = tmuxOps s env' host (trace st ++ l1) ∧ session.Windows s ≠ []) ∧
    (session.Windows s = [] →
       match (Main.setupScript host s
                (with_environ (commitEnv kvs) st)).1 with
       | inr _ => r = inl (Mask NoWindowsConfigured)
       | inl e =>
           session.SetupScript s ≠ EmptyString
           ∧ r = inl (Notef e "failed to execute setup script" [])
       end).
Proof.
  intros kvs env' r st'. subst r st'. unfold issued.
  rewrite materialize_unfold. cbn zeta. fold kvs.
  set (st1 := with_environ (commitEnv kvs) st).
  destruct (setup_summary st1) as (He1 & Hf1 & l1 & Ht1 & Hsub & Hcmd & Hemp).
  destruct (Main.setupScript host s st1) as [[e|[]] st2] eqn:Hsetup;
    simpl in He1, Hf1, Ht1, Hemp.
  - simpl. split_and!; [done..|]. exists l1, [].
    rewrite Ht1. simpl. rewrite drop_app_length, app_nil_r.
    split_and!; try done.
    + intros Hs. by destruct (Hemp Hs).
    + apply prefix_nil.
    + intros _. split; [|done].
      intros Hs. by destruct (Hemp Hs).
  - destruct (tmuxPart_summary st2) as (He2 & Hf2 & l2 & Ht2 & Hpre & Hok & Hnw).
    split_and!; [by rewrite He2, He1|by rewrite Hf2, Hf1|].
    exists l1, l2. rewrite Ht2, Ht1. simpl.
    rewrite <-app_assoc, drop_app_length.
    rewrite He1, Ht1 in Hpre, Hok. simpl in Hpre, Hok.
    split_and!; try done.
    intros Hs. by destruct (Hemp Hs).
Qed.
End MaterializeSpec.

Section PlanFacts.
Context (s : session.t) (env : gmap string string).

Lemma filter_setEnvironmentOps kvs :
  filter isCreation (setEnvironmentOp s env <$> kvs) = [].
Proof.
  induction kvs as [|kv kvs IH]; [done|]. rewrite fmap_cons.
  rewrite filter_cons_False; [done|]. by intros [?|?].
Qed.

Lemma filter_windowOps i w :
  filter isCreation (windowOps s env i w)
  = if decide (0 < i) then [newWindowOp s env i w] else [].
Proof.
  unfold windowOps. rewrite filter_app.
  assert (filter isCreation
            (if decide (0 < length (window.Keystrokes w))
             then [sendKeysOp s env w] else []) = []) as ->.
  { case_decide; [|done]. rewrite filter_cons_False; [done|].
    by intros [?|?]. }
  rewrite app_nil_r. case_decide; [|done].
  rewrite filter_cons_True; [done|]. by right.
Qed.

Lemma filter_loopOps i ws :
  0 < i →
  filter isCreation (loopOps s env i ws)
  = imap (λ j w, newWindowOp s env (i + j) w) ws.
Proof.
  revert i. induction ws as [|w ws IH]; intros i Hi; [done|].
  cbn [loopOps]. rewrite filter_app, filter_windowOps, decide_True by done.
  rewrite IH by lia. rewrite imap_cons, Nat.add_0_r. simpl. f_equal.
  apply imap_ext. intros j w' _. simpl. f_equal. lia.
Qed.

Lemma filter_tmuxOps host h w0 ws :
  session.Windows s = w0 :: ws →
  filter isCreation (tmuxOps s env host h)
  = newSessionOp s env w0 :: imap (λ j w, newWindowOp s env (S j) w) ws.
Proof.
  intros Hw. unfold tmuxOps. rewrite Hw.
  rewrite !filter_app. rewrite filter_cons_True by (by left).
  rewrite filter_setEnvironmentOps. cbn [loopOps].
  rewrite filter_app, filter_windowOps, decide_False by lia.
  rewrite filter_loopOps by lia.
  rewrite filter_cons_False by (by intros [?|?]).
  rewrite filter_cons_False by (by intros [?|?]).
  by rewrite filter_nil, app_nil_r.
Qed.

(** Which operations [loopOps] holds. *)
Lemma elem_of_loopOps e i ws :
  e ∈ loopOps s env i ws →
  (∃ j w, ws !! j = Some w ∧ 0 < i + j ∧ e = newWindowOp s env (i + j) w)
  ∨ (∃ w, w ∈ ws ∧ window.Keystrokes w ≠ [] ∧ e = sendKeysOp s env w).
Proof.
  revert i. induction ws as [|w ws IH]; intros i; cbn [loopOps].
  - by intros ?%elem_of_nil.
  - intros [Hin|Hin]%elem_of_app.
    + unfold windowOps in Hin. apply elem_of_app in Hin as [Hin|Hin].
      * case_decide; [|by apply elem_of_nil in Hin].
        apply list_elem_of_singleton in Hin as ->. left.
        exists 0, w. by rewrite Nat.add_0_r.
      * case_decide as Hk; [|by apply elem_of_nil in Hin].
        apply list_elem_of_singleton in Hin as ->. right.
        exists w. split_and!; [by left| |done].
        intros Hnil. rewrite Hnil in Hk. simpl in Hk. lia.
    + destruct (IH _ Hin) as [(j & w' & Hj & Hpos & ->)|(w' & Hw' & Hk & ->)].
      * left. exists (S j), w'. split_and!; [done|lia|].
        by replace (i + S j) with (S i + j) by lia.
      * right. exists w'. split_and!; [by right|done..].
Qed.

Lemma elem_of_tmuxOps host h e :
  e ∈ tmuxOps s env host h →
  (∃ w0, head (session.Windows s) = Some w0 ∧ e = newSessionOp s env w0)
  ∨ (∃ w0 kv, head (session.Windows s) = Some w0
       ∧ kv ∈ rangeOrder host (h ++ [newSessionOp s env w0])
                (session.Environment s)
       ∧ e = setEnvironmentOp s env kv)
  ∨ (∃ i w, session.Windows s !! i = Some w ∧ 0 < i
       ∧ e = newWindowOp s env i w)
  ∨ (∃ w, w ∈ session.Windows s ∧ window.Keystrokes w ≠ []
       ∧ e = sendKeysOp s env w)
  ∨ (session.Windows s ≠ []
       ∧ e = selectWindowOp s env (lastFocus s 0 (session.Windows s) 0))
  ∨ e = attachOp s env.
Proof.
  unfold tmuxOps. destruct (session.Windows s) as [|w0 ws] eqn:Hw.
  { by intros ?%elem_of_nil. }
  rewrite !elem_of_app, elem_of_cons, list_elem_of_fmap.
  intros [[->|(kv & -> & Hkv)]|[Hin|Hin]].
  - left. by exists w0.
  - right; left. by exists w0, kv.
  - destruct (elem_of_loopOps _ _ _ Hin) as [(j & w' & Hj & Hpos & ->)|Hs].
    + right; right; left. exists j, w'. split_and!; [done|lia|done].
    + right; right; right; left. done.
  - apply elem_of_cons in Hin as [->|Hin].
    + right; right; right; right; left. done.
    + apply list_elem_of_singleton in Hin as ->. by repeat right.
Qed.

(** [lastFocus]: the greatest index of a window named [session.Focus],
    the start value when no window has that name. *)
Lemma lastFocus_none i ws acc :
  (∀ w, w ∈ ws → window.Name w ≠ session.Focus s) →
  lastFocus s i ws acc = acc.
Proof.
  revert i acc. induction ws as [|w ws IH]; intros i acc Hno; [done|].
  cbn [lastFocus]. rewrite decide_False.
  - apply IH. intros w' Hw'. apply Hno. by right.
  - intros Heq. by apply (Hno w); [left|].
Qed.

Lemma lastFocus_some i ws acc :
  (∃ w, w ∈ ws ∧ window.Name w = session.Focus s) →
  ∃ j w, lastFocus s i ws acc = i + j ∧ ws !! j = Some w
         ∧ window.Name w = session.Focus s
         ∧ ∀ k w', j < k → ws !! k = Some w' →
                   window.Name w' ≠ session.Focus s.
Proof.
  revert i acc. induction ws as [|w ws IH]; intros i acc (w1 & Hin & Hn).
  { by apply elem_of_nil in Hin. }
  cbn [lastFocus].
  destruct (decide (Exists (λ w2, window.Name w2 = session.Focus s) ws))
    as [Hex%Exists_exists|Hno]; [|rewrite Exists_exists in Hno].
  - destruct (IH (S i) (if decide (session.Focus s = window.Name w)
                        then i else acc) Hex)
      as (j & w' & Hl & Hj & Hname & Hlast).
    exists (S j), w'. split_and!; [lia|done..|].
    intros [|k] w'' Hk; [lia|]. simpl. apply Hlast. lia.
  - assert (∀ w2, w2 ∈ ws → window.Name w2 ≠ session.Focus s) as Hno'.
    { intros w2 Hw2 Heq. apply Hno. by exists w2. }
    rewrite lastFocus_none by done.
    apply elem_of_cons in Hin as [->|Hin]; [|by destruct (Hno' _ Hin)].
    rewrite decide_True by done. exists 0, w.
    split_and!; [lia|done..|].
    intros [|k] w'' Hk; [lia|]. simpl. intros Hlk.
    apply Hno'. by eapply list_elem_of_lookup_2.
Qed.
End PlanFacts.

(** ** General facts about lists of operations *)

Lemma filter_prefix {A} (P : A → Prop) `{∀ x, Decision (P x)} (l k : list A) :
  l `prefix_of` k → filter P l `prefix_of` filter P k.
Proof. intros [m ->]. rewrite filter_app. by eexists. Qed.

Lemma filter_none {A} (P : A → Prop) `{∀ x, Decision (P x)} (l : list A) :
  (∀ x, x ∈ l → ¬ P x) → filter P l = [].
Proof.
  induction l as [|x l IH]; intros Hl; [done|].
  rewrite filter_cons_False by (apply Hl; by left).
  apply IH. intros y Hy. apply Hl. by right.
Qed.

Lemma prefix_app_cases {A} (l a b : list A) :
  l `prefix_of` a ++ b → l `prefix_of` a ∨ ∃ b', l = a ++ b' ∧ b' `prefix_of` b.
Proof.
  revert l. induction a as [|x a IH]; intros l Hl.
  - right. by exists l.
  - destruct l as [|y l]; [left; apply prefix_nil|].
    simpl in Hl. apply prefix_cons_inv_1 in Hl as Hxy. subst y.
    apply prefix_cons_inv_2 in Hl.
    destruct (IH _ Hl) as [Hp|(b' & -> & Hb')].
    + left. by apply prefix_cons.
    + right. by exists b'.
Qed.

Section Claims.
Context (host : World) (s : session.t) (st : OS).

(** Every tmux invocation of a run is one of the plan, built from the
    environment the run ends with. *)
Lemma issued_tmux e :
  e ∈ issued host s st → is_Some (subcommand e) →
  ∃ h, e ∈ tmuxOps s (environ (Main.materialize host s st).2) host h.
Proof.
  intros Hin [x Hx].
  destruct (materialize_spec host s st)
    as (He & _ & l1 & l2 & Hiss & Hsub & _ & _ & Hpre & _).
  rewrite Hiss in Hin. apply elem_of_app in Hin as [Hin|Hin].
  - apply Hsub in Hin. congruence.
  - exists (trace st ++ l1). rewrite He.
    destruct Hpre as [k Hk]. rewrite Hk. apply elem_of_app. by left.
Qed.

Lemma creations_issued :
  filter isCreation (issued host s st)
    `prefix_of` creationPlan s (environ (Main.materialize host s st).2)
  ∧ (((Main.materialize host s st).1 = inr tt
      ∨ ∃ e, e ∈ issued host s st ∧ subcommand e = Some "select-window") →
     filter isCreation (issued host s st)
     = creationPlan s (environ (Main.materialize host s st).2)).
Proof.
  destruct (materialize_spec host s st)
    as (He & _ & l1 & l2 & Hiss & Hsub & _ & _ & Hpre & Hok & _).
  rewrite Hiss, filter_app, He.
  rewrite (filter_none _ l1), app_nil_l.
  2:{ intros e Hin [Hc|Hc]; apply Hsub in Hin; congruence. }
  set (env := commitEnv _ _) in *. set (h := trace st ++ l1) in *.
  unfold creationPlan.
  destruct (session.Windows s) as [|w0 ws] eqn:Hw.
  { unfold tmuxOps in Hpre. rewrite Hw in Hpre.
    apply prefix_nil_inv in Hpre as ->. split; [done|].
    by rewrite filter_nil. }
  rewrite <-(filter_tmuxOps s env host h w0 ws Hw).
  split; [by apply filter_prefix|].
  intros [Hr|(e & Hin & Hsel)].
  { by destruct (Hok Hr) as [-> _]. }
  apply elem_of_app in Hin as [Hin|Hin].
  { apply Hsub in Hin. congruence. }
  unfold tmuxOps in *. rewrite Hw in *.
  rewrite app_assoc in Hpre |- *.
  apply prefix_app_cases in Hpre as [Hp|(b' & -> & Hb')].
  - exfalso. destruct Hp as [k Hk].
    assert (e ∈ (newSessionOp s env w0
                 :: (setEnvironmentOp s env
                       <$> rangeOrder host (h ++ [newSessionOp s env w0])
                             (session.Environment s)))
                ++ loopOps s env 0 (w0 :: ws)) as He'.
    { rewrite Hk. apply elem_of_app. by left. }
    rewrite elem_of_app, elem_of_cons, list_elem_of_fmap in He'.
    destruct He' as [[->|(kv & -> & _)]|Hl]; [done..|].
    apply elem_of_loopOps in Hl as [(j & w & _ & _ & ->)|(w & _ & _ & ->)];
      done.
  - rewrite !filter_app. f_equal.
    apply (filter_prefix isCreation) in Hb'.
    rewrite !filter_cons_False, filter_nil in Hb' by (by intros [?|?]).
    apply prefix_nil_inv in Hb' as ->.
    by rewrite !filter_cons_False, filter_nil by (by intros [?|?]).
Qed.
End Claims.

(** Claim C1, as amended.  For a session with at least one window, the
    create-session and create-window invocations that materialization
    issues are an initial part of: one [new-session] running window 0's
    expanded command, then one [new-window] for each window of index
    [i >= 1], in ascending order.  They are the whole of that sequence when
    materialization succeeds, and already when it gets as far as the
    select-window step. *)
Theorem C1_creation_sequence host s st w0 ws :
  session.Windows s = w0 :: ws →
  let env := environ (Main.materialize host s st).2 in
  let made := filter isCreation (issued host s st) in
  let plan :=
    newSessionOp s env w0 :: imap (λ j w, newWindowOp s env (S j) w) ws in
  made `prefix_of` plan
  ∧ ((∃ e, e ∈ issued host s st ∧ subcommand e = Some "select-window") →
     made = plan)
  ∧ ((Main.materialize host s st).1 = inr tt → made = plan).
Proof.
  intros Hw env made plan.
  destruct (creations_issued host s st) as [Hpre Hall].
  unfold creationPlan in Hpre, Hall. rewrite Hw in Hpre, Hall.
  split_and!; [done|intros ?; apply Hall; by right|intros ?; apply Hall; by left].
Qed.

Lemma C1_creation_sequence_witness :
  session.Windows myproject
  = window.mk "editor" "vim" EmptyString ["\n"]
    :: [ window.mk "shell" EmptyString EmptyString [];
         window.mk "top" "top" EmptyString [] ]
  ∧ length (filter isCreation (issued calm myproject boot)) = 3.
Proof.
  split; [reflexivity|].
  destruct (C1_creation_sequence calm myproject boot _ _ eq_refl)
    as (_ & _ & Hall).
  rewrite Hall; reflexivity.
Defined.

(** Claim C1 as stated fails: when the tmux server refuses [new-session],
    materialization stops there and no [new-window] is issued. *)
Lemma C1_counterexample :
  ¬ (∀ host s st,
       session.Windows s ≠ [] →
       filter isCreation (issued host s st)
       = creationPlan s (environ (Main.materialize host s st).2)).
Proof.
  intros H. specialize (H refusing myproject boot).
  assert (session.Windows myproject ≠ []) as Hw by done.
  specialize (H Hw). vm_compute in H. discriminate.
Qed.

(** Claim C2, as amended.  For a session without windows no tmux command is
    ever issued: the only process materialization can start is the setup
    script, and it starts none when [setupScript] is empty.  Materialization
    fails with [NoWindowsConfigured] once the setup script, if there is one,
    has succeeded, and with the setup script's failure otherwise. *)
Theorem C2_no_windows host s st :
  session.Windows s = [] →
  let r := (Main.materialize host s st).1 in
  let st1 :=
    with_environ
      (commitEnv (rangeOrder host (trace st) (session.Environment s))) st in
  (∀ e, e ∈ issued host s st → subcommand e = None)
  ∧ (∀ c, cmd_Run c ∈ issued host s st →
       session.SetupScript s ≠ EmptyString
       ∧ c = Main.scriptCmd (tempName host (trace st)))
  ∧ (session.SetupScript s = EmptyString →
       issued host s st = [] ∧ r = inl (Mask NoWindowsConfigured))
  ∧ match (Main.setupScript host s st1).1 with
    | inr _ => r = inl (Mask NoWindowsConfigured)
    | inl e => r = inl (Notef e "failed to execute setup script" [])
    end.
Proof.
  intros Hw r st1. subst r st1.
  destruct (materialize_spec host s st)
    as (_ & _ & l1 & l2 & Hiss & Hsub & Hcmd & Hemp & Hpre & _ & Hnw).
  unfold tmuxOps in Hpre. rewrite Hw in Hpre.
  apply prefix_nil_inv in Hpre as ->. rewrite app_nil_r in Hiss.
  specialize (Hnw Hw). rewrite Hiss. split_and!; [done..| |].
  - intros He. rewrite (Hemp He). split; [done|].
    rewrite setupScript_empty in Hnw by done. done.
  - destruct (Main.setupScript host s _).1; [by destruct Hnw|done].
Qed.

Lemma C2_no_windows_witness :
  session.Windows scriptOnly = []
  ∧ (Main.materialize calm scriptOnly boot).1
    = inl (Mask NoWindowsConfigured).
Proof.
  split; [reflexivity|].
  exact (proj2 (proj2 (proj2
    (C2_no_windows calm scriptOnly boot eq_refl)))).
Defined.

(** Claim C2 as stated fails: with a setup script and no window, the script is
    run before the missing windows are noticed. *)
Lemma C2_counterexample :
  ¬ (∀ host s st,
       session.Windows s = [] →
       (Main.materialize host s st).1 = inl (Mask NoWindowsConfigured)
       ∧ ∀ c, cmd_Run c ∉ issued host s st).
Proof.
  intros H. destruct (H calm scriptOnly boot eq_refl) as [_ Hno].
  apply (Hno (Main.scriptCmd "/tmp/tmuxg-setup042")).
  vm_compute. repeat constructor.
Qed.

(** Claim C3, as amended.  Every select-window invocation of a run is
    [tmux -L <name> select-window -t <name>:<i>] for one index [i]: the
    index of the last window whose name is the string [focus] when there is
    such a window, index 0 otherwise.  An absent [focus] is the empty
    string, and is the name of a window without a name.  A run that
    succeeds has issued the invocation. *)
Theorem C3_focus_resolution host s st :
  ∃ i,
    (∀ e, e ∈ issued host s st → subcommand e = Some "select-window" →
       ∃ c, e = cmd_Run c
            ∧ Args c = ["tmux"; "-L"; session.Name s; "select-window"; "-t";
                        session.Name s +:+ ":" +:+ pretty i])
    ∧ ((Main.materialize host s st).1 = inr tt →
       ∃ c, cmd_Run c ∈ issued host s st
            ∧ Args c = ["tmux"; "-L"; session.Name s; "select-window"; "-t";
                        session.Name s +:+ ":" +:+ pretty i])
    ∧ ((∃ w, w ∈ session.Windows s ∧ window.Name w = session.Focus s) →
       ∃ w, session.Windows s !! i = Some w
            ∧ window.Name w = session.Focus s
            ∧ ∀ k w', i < k → session.Windows s !! k = Some w' →
                      window.Name w' ≠ session.Focus s)
    ∧ ((∀ w, w ∈ session.Windows s → window.Name w ≠ session.Focus s) →
       i = 0).
Proof.
  exists (lastFocus s 0 (session.Windows s) 0). split_and!.
  - intros e Hin Hsel.
    destruct (issued_tmux host s st e Hin) as [h Hh]; [by rewrite Hsel|].
    apply elem_of_tmuxOps in Hh
      as [(w0 & _ & ->)|[(w0 & kv & _ & _ & ->)|[(i & w & _ & _ & ->)|
          [(w & _ & _ & ->)|[[_ ->]| ->]]]]]; try done.
    by eexists.
  - intros Hok.
    destruct (materialize_spec host s st)
      as (He & _ & l1 & l2 & Hiss & _ & _ & _ & _ & Hall & _).
    destruct (Hall Hok) as [-> Hw].
    exists (Main.tmuxCmd s (environ (Main.materialize host s st).2)
              ["select-window"; "-t";
               target (session.Name s)
                 (lastFocus s 0 (session.Windows s) 0)]).
    split; [|done]. rewrite Hiss. apply elem_of_app. right.
    unfold tmuxOps. destruct (session.Windows s) as [|w0 ws]; [done|].
    rewrite !elem_of_app. right; right. rewrite He. by left.
  - intros Hex. destruct (lastFocus_some s 0 _ 0 Hex)
      as (j & w & -> & Hj & Hn & Hlast). by exists w.
  - intros Hno. by apply lastFocus_none.
Qed.

(** Claim C3 as stated fails: with no [focus] and windows without names, the
    empty [focus] is the name of every window, and the last of them is
    selected, not the first. *)
Lemma C3_counterexample :
  ¬ (∀ host s st e,
       session.Windows s ≠ [] →
       e ∈ issued host s st → subcommand e = Some "select-window" →
       session.Focus s = EmptyString
       ∨ (∀ w, w ∈ session.Windows s → window.Name w ≠ session.Focus s) →
       ∃ c, e = cmd_Run c
            ∧ Args c = ["tmux"; "-L"; session.Name s; "select-window"; "-t";
                        session.Name s +:+ ":0"]).
Proof.
  intros H.
  destruct (H calm anonymous boot
              (selectWindowOp anonymous (environ boot) 1))
    as (c & Hc & Hargs).
  - done.
  - vm_compute. repeat constructor.
  - done.
  - by left.
  - injection Hc as <-. discriminate Hargs.
Qed.

Example C3_focus_top :
  cmd_Run (Main.tmuxCmd myproject
             (environ (Main.materialize calm myproject boot).2)
             ["select-window"; "-t"; "myproject:2"])
  ∈ issued calm myproject boot.
Proof. vm_compute. repeat constructor. Qed.

Example C3_focus_missing :
  cmd_Run (Main.tmuxCmd unfocused
             (environ (Main.materialize calm unfocused boot).2)
             ["select-window"; "-t"; "myproject:0"])
  ∈ issued calm unfocused boot.
Proof. vm_compute. repeat constructor. Qed.

(** Claim C4, as amended.  Every new-window and every select-window invocation
    carries [-t <sessionName>:<windowIndex>], the index being that of a
    window of the session; a set-environment invocation carries no target:
    its arguments are the variable and its value.  Every tmux invocation
    addresses the server named after the session ([-L <sessionName>]). *)
Theorem C4_targets host s st e :
  e ∈ issued host s st →
  let env := environ (Main.materialize host s st).2 in
  (subcommand e = Some "new-window" →
     ∃ i w, session.Windows s !! i = Some w ∧ 0 < i
            ∧ e = newWindowOp s env i w
            ∧ carriesTarget (session.Name s) e)
  ∧ (subcommand e = Some "select-window" →
     ∃ i, i < length (session.Windows s)
          ∧ e = selectWindowOp s env i
          ∧ carriesTarget (session.Name s) e)
  ∧ (subcommand e = Some "set-environment" →
     ∃ k v, e = cmd_Run (Main.tmuxCmd s env
                  ["set-environment"; k; os.ExpandEnv env v]))
  ∧ (is_Some (subcommand e) →
     ∃ args, e = cmd_Run (Main.tmuxCmd s env args)
             ∧ take 3 (Args (Main.tmuxCmd s env args))
               = ["tmux"; "-L"; session.Name s]).
Proof.
  intros Hin env.
  assert (is_Some (subcommand e) →
          ∃ h, e ∈ tmuxOps s env host h) as Hop.
  { intros Hs. by apply issued_tmux. }
  split_and!; intros Hsub.
  - destruct Hop as [h Hh]; [by rewrite Hsub|].
    apply elem_of_tmuxOps in Hh
      as [(w0 & _ & ->)|[(w0 & kv & _ & _ & ->)|[(i & w & Hi & Hpos & ->)|
          [(w & _ & _ & ->)|[[_ ->]| ->]]]]]; try done.
    exists i, w. split_and!; [done..|].
    eexists _, i, ["tmux"; "-L"; session.Name s; "new-window"; "-d"], _.
    split; reflexivity.
  - destruct Hop as [h Hh]; [by rewrite Hsub|].
    apply elem_of_tmuxOps in Hh
      as [(w0 & _ & ->)|[(w0 & kv & _ & _ & ->)|[(i & w & Hi & Hpos & ->)|
          [(w & _ & _ & ->)|[[Hw ->]| ->]]]]]; try done.
    eexists. split_and!; [|done|].
    + destruct (decide (Exists (λ w, window.Name w = session.Focus s)
                          (session.Windows s))) as [Hex%Exists_exists|Hno].
      * destruct (lastFocus_some s 0 _ 0 Hex) as (j & w & -> & Hj & _).
        by apply lookup_lt_Some in Hj.
      * rewrite lastFocus_none.
        -- destruct (session.Windows s); [done|simpl; lia].
        -- intros w Hw' Hn. apply Hno, Exists_exists. by exists w.
    + eexists _, _, ["tmux"; "-L"; session.Name s; "select-window"], [].
      split; reflexivity.
  - destruct Hop as [h Hh]; [by rewrite Hsub|].
    apply elem_of_tmuxOps in Hh
      as [(w0 & _ & ->)|[(w0 & [k v] & _ & _ & ->)|[(i & w & Hi & Hpos & ->)|
          [(w & _ & _ & ->)|[[Hw ->]| ->]]]]]; try done.
    by exists k, v.
  - destruct (Hop Hsub) as [h Hh].
    apply elem_of_tmuxOps in Hh
      as [(w0 & _ & ->)|[(w0 & [k v] & _ & _ & ->)|[(i & w & Hi & Hpos & ->)|
          [(w & _ & _ & ->)|[[Hw ->]| ->]]]]]; by eexists.
Qed.

Lemma C4_targets_witness :
  newWindowOp myproject (environ (Main.materialize calm myproject boot).2) 2
    (window.mk "top" "top" EmptyString [])
    ∈ issued calm myproject boot
  ∧ carriesTarget "myproject"
      (newWindowOp myproject
         (environ (Main.materialize calm myproject boot).2) 2
         (window.mk "top" "top" EmptyString [])).
Proof.
  assert (newWindowOp myproject
            (environ (Main.materialize calm myproject boot).2) 2
            (window.mk "top" "top" EmptyString [])
            ∈ issued calm myproject boot) as Hin.
  { vm_compute. repeat constructor. }
  split; [exact Hin|].
  destruct (C4_targets calm myproject boot _ Hin) as (Hnew & _).
  destruct (Hnew eq_refl) as (i & w & _ & _ & _ & Ht). exact Ht.
Defined.

(** Claim C4 as stated fails: a set-environment invocation carries no
    [-t <sessionName>:<windowIndex>]. *)
Lemma C4_counterexample :
  ¬ (∀ host s st e,
       e ∈ issued host s st →
       subcommand e ∈ [Some "set-environment"; Some "new-window";
                       Some "send-keys"; Some "select-window"] →
       carriesTarget (session.Name s) e).
Proof.
  intros H.
  specialize (H calm myproject boot
    (setEnvironmentOp myproject
       (environ (Main.materialize calm myproject boot).2)
       ("GOPATH", "${HOME}/myproject/gopath"))).
  destruct H as (c & i & pre & post & Hc & Hargs).
  - vm_compute. repeat constructor.
  - by left.
  - injection Hc as <-.
    assert ("-t" ∈ pre ++ "-t" :: target (session.Name myproject) i :: post)
      as Hin.
    { apply elem_of_app. right. by left. }
    rewrite <-Hargs in Hin.
    vm_compute in Hin.
    repeat (apply elem_of_cons in Hin as [Hin|Hin]; [discriminate|]).
    by apply elem_of_nil in Hin.
Qed.

(** ** The environment *)

Lemma commitEnv_app kvs1 kvs2 env :
  commitEnv (kvs1 ++ kvs2) env = commitEnv kvs2 (commitEnv kvs1 env).
Proof.
  revert env. induction kvs1 as [|[k v] kvs1 IH]; intros env; [done|].
  simpl. apply IH.
Qed.

Lemma commitEnv_other kvs env k :
  k ∉ kvs.*1 → commitEnv kvs env !! k = env !! k.
Proof.
  revert env. induction kvs as [|[k' v'] kvs IH]; intros env Hk; [done|].
  rewrite fmap_cons, not_elem_of_cons in Hk. destruct Hk as [Hne Hk].
  simpl. rewrite IH by done. by rewrite lookup_insert_ne.
Qed.

(** An entry committed at some point of the loop keeps the value it was
    given there, when no later entry has the same name. *)
Lemma commitEnv_entry pre k v post env :
  k ∉ post.*1 →
  commitEnv (pre ++ (k, v) :: post) env !! k
  = Some (os.ExpandEnv (commitEnv pre env) v).
Proof.
  intros Hk. rewrite commitEnv_app. simpl.
  rewrite commitEnv_other by done. by rewrite lookup_insert_eq.
Qed.

Lemma ExpandEnv_reference env k :
  k ≠ EmptyString → has_byte "}" k = false →
  os.ExpandEnv env ("${" +:+ k +:+ "}") = os.Getenv env k.
Proof.
  intros Hne Hb. unfold os.ExpandEnv, os.Expand.
  change ("${" +:+ k +:+ "}") with (String "$" (String "{" (k +:+ String "}" EmptyString))).
  rewrite expandFrom_braced by done. simpl. apply app_empty_r.
Qed.

(** Claim C5.  Each [environment] entry is expanded against the process
    environment as it stands when the loop reaches the entry, and the result
    is what the variable holds from then on; every tmux invocation - its
    working directory, the command of [new-session] and the directory and
    command of [new-window] - is expanded against the environment so
    extended, in which a reference to the variable yields the substituted
    value. *)
Theorem C5_environment host s st :
  range_ok host →
  let kvs := rangeOrder host (trace st) (session.Environment s) in
  let env := environ (Main.materialize host s st).2 in
  (∀ k v, session.Environment s !! k = Some v →
     ∃ pre post, kvs = pre ++ (k, v) :: post
       ∧ env !! k = Some (os.ExpandEnv (commitEnv pre (environ st)) v)
       ∧ (k ≠ EmptyString → has_byte "}" k = false →
          os.ExpandEnv env ("${" +:+ k +:+ "}")
          = os.ExpandEnv (commitEnv pre (environ st)) v))
  ∧ (∀ e, e ∈ issued host s st →
       (is_Some (subcommand e) →
          ∃ args, e = cmd_Run (Main.tmuxCmd s env args)
                  ∧ Dir (Main.tmuxCmd s env args)
                    = os.ExpandEnv env (session.Cwd s))
       ∧ (subcommand e = Some "new-session" →
          ∃ w0, head (session.Windows s) = Some w0
                ∧ e = newSessionOp s env w0)
       ∧ (subcommand e = Some "new-window" →
          ∃ i w, session.Windows s !! i = Some w
                 ∧ e = newWindowOp s env i w)).
Proof.
  intros Hrange kvs env. split.
  - intros k v Hkv.
    assert ((k, v) ∈ kvs) as Hin.
    { unfold kvs. rewrite (Hrange _ _). by apply elem_of_map_to_list. }
    apply list_elem_of_split in Hin as (pre & post & Hsplit).
    assert (NoDup kvs.*1) as Hnd.
    { unfold kvs. rewrite (Hrange _ _). apply NoDup_fst_map_to_list. }
    rewrite Hsplit, fmap_app, fmap_cons in Hnd.
    apply NoDup_app in Hnd as (_ & _ & Hnd).
    apply NoDup_cons in Hnd as [Hk _]. simpl in Hk.
    assert (env !! k = Some (os.ExpandEnv (commitEnv pre (environ st)) v))
      as Hval.
    { subst env. destruct (materialize_spec host s st) as (-> & _).
      fold kvs. rewrite Hsplit. by apply commitEnv_entry. }
    exists pre, post. split_and!; [done..|].
    intros Hne Hb. rewrite ExpandEnv_reference by done.
    unfold os.Getenv. by rewrite Hval.
  - intros e Hin.
    assert (is_Some (subcommand e) → ∃ h, e ∈ tmuxOps s env host h) as Hop.
    { intros Hs. by apply issued_tmux. }
    split_and!; intros Hsub.
    + destruct (Hop Hsub) as [h Hh].
      apply elem_of_tmuxOps in Hh
        as [(w0 & _ & ->)|[(w0 & [k v] & _ & _ & ->)|[(i & w & Hi & Hpos & ->)|
            [(w & _ & _ & ->)|[[Hw ->]| ->]]]]]; by eexists.
    + destruct Hop as [h Hh]; [by rewrite Hsub|].
      apply elem_of_tmuxOps in Hh
        as [(w0 & Hw0 & ->)|[(w0 & [k v] & _ & _ & ->)|[(i & w & Hi & Hpos & ->)|
            [(w & _ & _ & ->)|[[Hw ->]| ->]]]]]; try done.
      by exists w0.
    + destruct Hop as [h Hh]; [by rewrite Hsub|].
      apply elem_of_tmuxOps in Hh
        as [(w0 & Hw0 & ->)|[(w0 & [k v] & _ & _ & ->)|[(i & w & Hi & Hpos & ->)|
            [(w & _ & _ & ->)|[[Hw ->]| ->]]]]]; try done.
      by exists i, w.
Qed.

Lemma calm_range_ok : range_ok calm.
Proof. intros h m. reflexivity. Defined.

Lemma C5_environment_witness :
  range_ok calm
  ∧ environ (Main.materialize calm myproject boot).2 !! "GOPATH"
    = Some "/home/u/myproject/gopath"
  ∧ os.ExpandEnv (environ (Main.materialize calm myproject boot).2)
      (session.Cwd myproject)
    = "/home/u/myproject/gopath/src/github.com/cmars/myproject".
Proof.
  split; [exact calm_range_ok|].
  destruct (C5_environment calm myproject boot calm_range_ok) as [Hent _].
  destruct (Hent "GOPATH" "${HOME}/myproject/gopath" eq_refl)
    as (pre & post & _ & _ & _).
  split; reflexivity.
Defined.

(** ** The setup script *)

Lemma rev_app_length s t :
  String.length (String.rev_app s t) = String.length s + String.length t.
Proof.
  revert t. induction s as [|c s IH]; intros t; [done|].
  simpl. rewrite IH. simpl. lia.
Qed.

Lemma rev_length s : String.length (String.rev s) = String.length s.
Proof. unfold String.rev. rewrite rev_app_length. simpl. lia. Qed.

Lemma trimFront_length back s :
  String.length (strings.trimFront back s) ≤ String.length s.
Proof.
  remember (String.length s) as n eqn:Hn. revert s Hn.
  induction n as [n IH] using lt_wf_ind. intros s ->.
  assert (∀ t, String.length t < String.length s →
               String.length (strings.trimFront back t) ≤ String.length s)
    as Hrec.
  { intros t Ht. etrans; [by eapply IH|lia]. }
  clear IH. destruct s as [|b1 r1]; [done|].
  change (strings.trimFront back (String b1 r1)) with
    (if strings.asciiSpace b1 then strings.trimFront back r1
     else match r1 with
          | EmptyString => String b1 r1
          | String b2 r2 =>
              if (if back then strings.space2 b2 b1 else strings.space2 b1 b2)
              then strings.trimFront back r2
              else match r2 with
                   | EmptyString => String b1 r1
                   | String b3 r3 =>
                       if (if back then strings.space3 b3 b2 b1
                           else strings.space3 b1 b2 b3)
                       then strings.trimFront back r3
                       else String b1 r1
                   end
          end).
  destruct (strings.asciiSpace b1); [apply Hrec; simpl; lia|].
  destruct r1 as [|b2 r2]; [done|].
  destruct (if back then _ else _); [apply Hrec; simpl; lia|].
  destruct r2 as [|b3 r3]; [done|].
  destruct (if back then _ else _); [apply Hrec; simpl; lia|done].
Qed.

Lemma TrimSpace_length s :
  String.length (strings.TrimSpace s) ≤ String.length s.
Proof.
  unfold strings.TrimSpace. rewrite rev_length.
  etrans; [apply trimFront_length|]. rewrite rev_length.
  apply trimFront_length.
Qed.

(** A field that begins with white space is not written as it stands. *)
Lemma TrimSpace_strips c rest :
  strings.asciiSpace c = true →
  strings.TrimSpace (String c rest) ≠ String c rest.
Proof.
  intros Hc Heq. apply (f_equal String.length) in Heq.
  unfold strings.TrimSpace in Heq. rewrite rev_length in Heq.
  pose proof (trimFront_length true
                (String.rev (strings.trimFront false (String c rest)))) as H1.
  rewrite rev_length in H1.
  assert (strings.trimFront false (String c rest)
          = strings.trimFront false rest) as Hstep.
  { simpl. by rewrite Hc. }
  rewrite Hstep in H1, Heq. pose proof (trimFront_length false rest) as H2.
  change (String.length (String c rest)) with (S (String.length rest)) in Heq.
  lia.
Qed.

Lemma setupIssued_spec host s st l :
  trace (Main.setupScript host s st).2 = trace st ++ l →
  setupIssued host s st = l.
Proof. intros H. unfold setupIssued. by rewrite H, drop_app_length. Qed.



(** Claim C9.  What is written to the temporary file is
    [strings.TrimSpace(s.SetupScript)]: nothing else is ever written, the
    file that is run has been written so, and a field that begins with
    white space is therefore not written verbatim. *)
Theorem C9_script_is_trimmed host s st :
  session.SetupScript s ≠ EmptyString →
  let p := tempName host (trace st) in
  let c := strings.TrimSpace (session.SetupScript s) in
  (∀ q d, file_Write q d ∈ setupIssued host s st → q = p ∧ d = c)
  ∧ (∀ x, cmd_Run x ∈ setupIssued host s st →
       ∃ pre post, setupIssued host s st
                   = pre ++ file_Write p c :: post
                   ∧ cmd_Run x ∈ post)
  ∧ (∀ b rest, session.SetupScript s = String b rest →
       strings.asciiSpace b = true → c ≠ session.SetupScript s).
Proof.
  intros Hne p c.
  destruct (setupScript_outcomes host s st Hne) as (_ & _ & l & Ht & Hl).
  rewrite (setupIssued_spec _ _ _ _ Ht). fold p c in Hl. split_and!.
  - intros q d Hin.
    destruct Hl as [[-> _]|(_ & _ & [[-> _]|[[-> _]|[[-> _]|[-> _]]]])];
      set_solver.
  - intros x Hin.
    destruct Hl as [[-> _]|(_ & _ & [[-> _]|[[-> _]|[[-> _]|[-> _]]]])];
      try (exfalso; set_solver).
    exists [ioutil_TempFile p], [file_Close p; os_Chmod p mode_0700;
      cmd_Run (Main.scriptCmd p); file_Close p; os_Remove p].
    split; [done|]. set_solver.
  - intros b rest Hs Hb. subst c. rewrite Hs. by apply TrimSpace_strips.
Qed.

Lemma C9_script_is_trimmed_witness :
  session.SetupScript scriptOnly ≠ EmptyString
  ∧ file_Write "/tmp/tmuxg-setup042" "#!/bin/bash
mkdir -p ${GOPATH}" ∈ setupIssued calm scriptOnly boot
  ∧ strings.TrimSpace (session.SetupScript scriptOnly)
    ≠ session.SetupScript scriptOnly.
Proof.
  assert (session.SetupScript scriptOnly ≠ EmptyString) as Hne by done.
  split; [exact Hne|].
  destruct (C9_script_is_trimmed calm scriptOnly boot Hne) as (_ & _ & Hv).
  split; [vm_compute; repeat constructor|].
  exact (Hv _ _ eq_refl eq_refl).
Defined.

(** ** Variable expansion *)

Section Expand2.
Import os.

Lemma take_while_app p name rest :
  all_bytes p name = true →
  (match rest with EmptyString => true | String c _ => negb (p c) end) = true →
  take_while p (name +:+ rest) = name.
Proof.
  intros Hall Hstop. induction name as [|c name IH].
  - rewrite app_empty_l. destruct rest as [|c rest]; [done|].
    simpl. apply negb_true_iff in Hstop. by rewrite Hstop.
  - simpl in Hall. apply andb_true_iff in Hall as [Hc Hall].
    rewrite app_cons. simpl. rewrite Hc. f_equal. by apply IH.
Qed.

Lemma getShellName_plain c t :
  c ≠ "{"%char →
  getShellName (String c t)
  = if isShellSpecialVar c then (String c EmptyString, 1)
    else (take_while isAlphaNum (String c t),
          String.length (take_while isAlphaNum (String c t))).
Proof.
  intros Hc. destruct c as [[] [] [] [] [] [] [] []]; done.
Qed.

Lemma getShellName_bare c name rest :
  isAlphaNum c = true → isShellSpecialVar c = false →
  all_bytes isAlphaNum name = true → stops rest = true →
  getShellName (String c (name +:+ rest))
  = (String c name, S (String.length name)).
Proof.
  intros Hc Hs Hall Hstop.
  rewrite getShellName_plain by (by intros ->).
  rewrite Hs. rewrite <-app_cons, take_while_app; [done| |done].
  simpl. by rewrite Hc, Hall.
Qed.

Lemma expandFrom_bare mapping c name rest :
  isAlphaNum c = true → isShellSpecialVar c = false →
  all_bytes isAlphaNum name = true → stops rest = true →
  expandFrom mapping 0 (String "$" (String c (name +:+ rest)))
  = mapping (String c name) +:+ expandFrom mapping 0 rest.
Proof.
  intros Hc Hs Hall Hstop.
  rewrite expandFrom_dollar by done.
  rewrite getShellName_bare by done.
  rewrite bool_decide_eq_false_2 by done. f_equal.
  rewrite expandFrom_skip. cbn [drop_bytes]. by rewrite drop_bytes_app.
Qed.
End Expand2.

Section Parts.
Import os.

Lemma expandFrom_special mapping c rest :
  isShellSpecialVar c = true →
  expandFrom mapping 0 (String "$" (String c rest))
  = mapping (String c EmptyString) +:+ expandFrom mapping 0 rest.
Proof.
  intros Hc. rewrite expandFrom_dollar by done.
  rewrite getShellName_plain by (by intros ->). rewrite Hc.
  rewrite bool_decide_eq_false_2 by done. f_equal.
Qed.

Lemma expandFrom_source mapping ps :
  parsed ps = true →
  expandFrom mapping 0 (source ps)
  = foldr (λ p acc,
             match p with
             | Text t => t
             | Braced name | Bare name => mapping name
             | Special c => mapping (String c EmptyString)
             end +:+ acc) EmptyString ps.
Proof.
  induction ps as [|p ps IH]; [done|]. cbn [parsed source foldr].
  intros [Hp Hps]%andb_true_iff. rewrite <-IH by done.
  destruct p as [t|name|name|c]; cbn [written].
  - apply negb_true_iff in Hp. by apply expandFrom_literal.
  - apply andb_true_iff in Hp as [Hne Hb].
    apply negb_true_iff, bool_decide_eq_false in Hne.
    apply negb_true_iff in Hb.
    change (("${" +:+ name +:+ "}") +:+ source ps)
      with (String "$" (String "{" ((name +:+ "}") +:+ source ps))).
    rewrite app_assoc_s.
    change ("}" +:+ source ps) with (String "}" (source ps)).
    by apply expandFrom_braced.
  - apply andb_true_iff in Hp as [Hn Hstop].
    destruct name as [|c name]; [done|]. cbn [bareName] in Hn.
    apply andb_true_iff in Hn as [[Hc Hs]%andb_true_iff Hall].
    apply negb_true_iff in Hs.
    change (("$" +:+ String c name) +:+ source ps)
      with (String "$" (String c (name +:+ source ps))).
    by apply expandFrom_bare.
  - by apply expandFrom_special.
Qed.

Lemma stops_source_app ps qs :
  stops (source (ps ++ qs)) = true → stops (source ps) = true.
Proof.
  induction ps as [|q ps IH]; [done|]. cbn [app source].
  destruct (written q) as [|c t]; [by rewrite !app_empty_l|done].
Qed.

Lemma parsed_app ps qs :
  parsed (ps ++ qs) = true → parsed ps = true ∧ parsed qs = true.
Proof.
  induction ps as [|p ps IH]; [done|]. cbn [app parsed].
  intros [Hp Hps]%andb_true_iff. destruct (IH Hps) as [Hl Hr].
  split; [|done]. rewrite Hl, andb_true_r.
  destruct p as [t|name|name|c]; try done.
  apply andb_true_iff in Hp as [Hn Hstop]. rewrite Hn. cbn [andb].
  by apply stops_source_app in Hstop.
Qed.
End Parts.

Section Parts2.
Import os.

Lemma stops_app a b :
  stops a = true → stops b = true → stops (a +:+ b) = true.
Proof. destruct a; [by rewrite app_empty_l|done]. Qed.

(** The parts [ps] followed by any text that cannot continue a name. *)
Lemma expandFrom_source_app mapping ps rest :
  parsed ps = true → stops rest = true →
  expandFrom mapping 0 (source ps +:+ rest)
  = expandFrom mapping 0 (source ps) +:+ expandFrom mapping 0 rest.
Proof.
  intros Hps Hrest. induction ps as [|p ps IH].
  { by rewrite !app_empty_l. }
  cbn [parsed] in Hps. apply andb_true_iff in Hps as [Hp Hps].
  cbn [source]. rewrite app_assoc_s.
  destruct p as [t|name|name|c]; cbn [written].
  - apply negb_true_iff in Hp.
    rewrite !(expandFrom_literal _ t) by done. by rewrite IH, app_assoc_s.
  - apply andb_true_iff in Hp as [Hne Hb].
    apply negb_true_iff, bool_decide_eq_false in Hne.
    apply negb_true_iff in Hb.
    change (("${" +:+ name +:+ "}") +:+ ?r)
      with (String "$" (String "{" ((name +:+ "}") +:+ r))).
    rewrite !(app_assoc_s name).
    change ("}" +:+ ?r) with (String "}" r).
    rewrite !expandFrom_braced by done. by rewrite IH, app_assoc_s.
  - apply andb_true_iff in Hp as [Hn Hstop].
    destruct name as [|c name]; [done|]. cbn [bareName] in Hn.
    apply andb_true_iff in Hn as [[Hc Hs]%andb_true_iff Hall].
    apply negb_true_iff in Hs.
    change (("$" +:+ String c name) +:+ ?r)
      with (String "$" (String c (name +:+ r))).
    rewrite !expandFrom_bare by (done || by apply stops_app).
    by rewrite IH, app_assoc_s.
  - change (String "$" (String c EmptyString) +:+ ?r)
      with (String "$" (String c r)).
    rewrite !expandFrom_special by done. by rewrite IH, app_assoc_s.
Qed.
End Parts2.

(** Claim C10.  A reference to a variable that is not set - [${name}],
    [$name] followed by something that cannot continue the name, or [$c]
    for a special byte - is replaced by the empty string wherever it
    stands, also after other references: the expansion of the whole text is
    the expansion of what comes before the reference followed by the
    expansion of what comes after it, whatever that is.  In general the
    expansion of a text puts, for each reference, the value of the
    variable, and nothing when the variable is not set, and keeps the
    rest. *)
Theorem C10_unset_variable_expands_to_empty
  (env : gmap string string) (pre : list part) (ref : part)
  (name post : string) :
  env !! name = None →
  ref = Braced name ∨ ref = Bare name
  ∨ (∃ c, name = String c EmptyString ∧ ref = Special c) →
  parsed (pre ++ [ref]) = true →
  (ref = Bare name → stops post = true) →
  os.ExpandEnv env (source pre +:+ written ref +:+ post)
  = os.ExpandEnv env (source pre) +:+ os.ExpandEnv env post
  ∧ ∀ ps, parsed ps = true →
      os.ExpandEnv env (source ps)
      = foldr (λ p acc,
                 match p with
                 | Text t => t
                 | Braced n | Bare n => default EmptyString (env !! n)
                 | Special c =>
                     default EmptyString (env !! String c EmptyString)
                 end +:+ acc) EmptyString ps.
Proof.
  intros Hunset Href Hparsed Hpost. split.
  2:{ intros ps Hps. unfold os.ExpandEnv, os.Expand.
      by rewrite expandFrom_source. }
  destruct (parsed_app _ _ Hparsed) as [Hpre Hone].
  cbn [parsed] in Hone. rewrite andb_true_r in Hone.
  unfold os.ExpandEnv, os.Expand.
  rewrite expandFrom_source_app; [|done|].
  2:{ by destruct Href as [->|[->|(c & -> & ->)]]. }
  f_equal.
  assert (os.Getenv env name = EmptyString) as Hval.
  { unfold os.Getenv. by rewrite Hunset. }
  destruct Href as [->|[->|(c & -> & ->)]]; cbn [written].
  - apply andb_true_iff in Hone as [Hne Hb].
    apply negb_true_iff, bool_decide_eq_false in Hne.
    apply negb_true_iff in Hb.
    change (("${" +:+ name +:+ "}") +:+ post)
      with (String "$" (String "{" ((name +:+ "}") +:+ post))).
    rewrite app_assoc_s. change ("}" +:+ post) with (String "}" post).
    rewrite expandFrom_braced by done. by rewrite Hval, app_empty_l.
  - apply andb_true_iff in Hone as [Hn _].
    destruct name as [|c name]; [done|]. cbn [bareName] in Hn.
    apply andb_true_iff in Hn as [[Hc Hs]%andb_true_iff Hall].
    apply negb_true_iff in Hs.
    change (("$" +:+ String c name) +:+ post)
      with (String "$" (String c (name +:+ post))).
    rewrite expandFrom_bare by (done || by apply Hpost).
    by rewrite Hval, app_empty_l.
  - change (String "$" (String c EmptyString) +:+ post)
      with (String "$" (String c post)).
    rewrite expandFrom_special by done. by rewrite Hval, app_empty_l.
Qed.

Lemma C10_unset_variable_expands_to_empty_witness :
  environ boot !! "NOPE" = None
  ∧ parsed ([Text "cd "; Braced "HOME"; Text "/"] ++ [Braced "NOPE"]) = true
  ∧ os.ExpandEnv (environ boot) "cd ${HOME}/${NOPE}/$GOPATH/src"
    = "cd /home/u///src".
Proof.
  assert (environ boot !! "NOPE" = None) as Hunset by reflexivity.
  split; [exact Hunset|]. split; [reflexivity|].
  destruct (C10_unset_variable_expands_to_empty (environ boot)
              [Text "cd "; Braced "HOME"; Text "/"] (Braced "NOPE") "NOPE"
              "/$GOPATH/src" Hunset (or_introl eq_refl) eq_refl)
    as [Hsplit _]; [discriminate|].
  change "cd ${HOME}/${NOPE}/$GOPATH/src"
    with (source [Text "cd "; Braced "HOME"; Text "/"]
          +:+ written (Braced "NOPE") +:+ "/$GOPATH/src").
  rewrite Hsplit. reflexivity.
Defined.

(** ** Locating and loading the session file *)

Section Locate.
Context (host : World) (join : list string → string).

Lemma configDir_bind {A} (k : string → M A) st :
  (configDir ←' os_getenv "XDG_CONFIG_HOME";
   configDir ←'
     (if decide (configDir = EmptyString) then
        home ←' os_getenv "HOME";
        ret (join [home; ".config"])
      else ret configDir);
   k configDir) st
  = k (if decide (os.Getenv (environ st) "XDG_CONFIG_HOME" = EmptyString)
       then join [os.Getenv (environ st) "HOME"; ".config"]
       else os.Getenv (environ st) "XDG_CONFIG_HOME") st.
Proof. unfold bind, os_getenv, ret. by case_decide. Qed.

Ltac locate_step2 :=
  cbn [record trace files environ with_files fst snd is_error
         os_IsNotExist negb isDir orb];
  match goal with
  | |- context [fails host ?t] => destruct (fails host t) eqn:?
  | |- context [match ?m !! ?p with _ => _ end] =>
      destruct (m !! p) as [[[] ? ?]|] eqn:?
  end.

Ltac locate_tail2 name st :=
  replace (trace st ++ [os_Stat name;
             os_MkdirAll (configDirOf join (environ st)) mode_0644])
    with ((trace st ++ [os_Stat name])
           ++ [os_MkdirAll (configDirOf join (environ st)) mode_0644])
    by (by rewrite <-!app_assoc);
  cbn [os_IsNotExist negb];
  rewrite configDir_bind; cbn [record trace files environ];
  unfold configDirOf, configPath;
  set (cd := if decide (_ = EmptyString) then _ else _);
  unfold bind, attempt, os_stat, os_mkdirAll, notef, wrap, ret, fail;
  repeat locate_step2;
  cbn [record trace files environ with_files fst snd is_error
         os_IsNotExist negb isDir orb];
  intros ->;
  cbn [record trace files environ with_files fst snd is_error orb];
  rewrite <-?app_assoc; cbn [app];
  (split; [done|]);
  try done;
  (split; [done|]);
  (split; [rewrite ?lookup_insert_eq; by eauto|]);
  (split; [by intros; rewrite ?lookup_insert_ne|]);
  try (rewrite bool_decide_true by done);
  try (rewrite bool_decide_false by congruence);
  done.

Lemma Main_locateSession_resolves :
  resolves host join (Main.locateSession host join).
Proof.
  intros name st stat1 dir path mk stat2 out.
  subst stat1 dir path mk stat2.
  replace (trace st ++ [os_Stat name;
             os_MkdirAll (configDirOf join (environ st)) mode_0644;
             os_Stat (configPath join (environ st) name)])
    with (((trace st ++ [os_Stat name])
           ++ [os_MkdirAll (configDirOf join (environ st)) mode_0644])
           ++ [os_Stat (configPath join (environ st) name)])
    by (by rewrite <-!app_assoc).
  assert (out = Main.locateSession host join name st) as Hout by done.
  clearbody out. unfold Main.locateSession in Hout.
  split_and!.
  - intros Hf. subst out. unfold bind at 1; unfold attempt, os_stat;
      cbn [record trace files environ with_files fst snd]. by rewrite Hf.
  - intros Hf f Hname Hdir. subst out. unfold bind at 1;
      unfold attempt, os_stat;
      cbn [record trace files environ with_files fst snd].
    by rewrite Hf, Hname.
  - intros Hf Hname. revert Hout. unfold bind at 1;
      unfold attempt, os_stat;
      cbn [record trace files environ with_files fst snd].
    rewrite Hf, Hname. locate_tail2 name st.
Qed.
Lemma Part000_locateSession_resolves :
  resolves host join (Part000.locateSession host join).
Proof.
  intros name st stat1 dir path mk stat2 out.
  subst stat1 dir path mk stat2.
  replace (trace st ++ [os_Stat name;
             os_MkdirAll (configDirOf join (environ st)) mode_0644;
             os_Stat (configPath join (environ st) name)])
    with (((trace st ++ [os_Stat name])
           ++ [os_MkdirAll (configDirOf join (environ st)) mode_0644])
           ++ [os_Stat (configPath join (environ st) name)])
    by (by rewrite <-!app_assoc).
  assert (out = Part000.locateSession host join name st) as Hout by done.
  clearbody out. unfold Part000.locateSession in Hout.
  split_and!.
  - intros Hf. subst out. unfold bind at 1; unfold attempt, os_stat;
      cbn [record trace files environ with_files fst snd]. by rewrite Hf.
  - intros Hf f Hname Hdir. subst out. unfold bind at 1;
      unfold attempt, os_stat;
      cbn [record trace files environ with_files fst snd].
    by rewrite Hf, Hname, Hdir.
  - intros Hf Hname. revert Hout. unfold bind at 1;
      unfold attempt, os_stat;
      cbn [record trace files environ with_files fst snd].
    rewrite Hf, Hname. unfold Part000.inConfigDir. locate_tail2 name st.
Qed.
End Locate.

(** Claim C8, as amended.  In both revisions of [locateSession]: an argument
    that names an existing file which is not a directory is returned as it
    is, after a single [os.Stat] and nothing else; when [os.Stat] reports
    that there is no such file, the directory
    [Join(configDir, "tmuxg")] is created if need be - [configDir] being
    [$XDG_CONFIG_HOME], or [Join($HOME, ".config")] when that variable is
    unset or empty.  The call fails there, with the error of [os.MkdirAll],
    exactly when the directory cannot be created; otherwise
    [Join(dir, name + ".yaml")] is examined, and it is returned exactly when
    it can be examined and exists, an error otherwise.  When [os.Stat] of
    the argument fails in any other way, the call fails at once. *)
Theorem C8_config_resolution host join :
  resolves host join (Main.locateSession host join)
  ∧ resolves host join (Part000.locateSession host join).
Proof.
  split;
    [apply Main_locateSession_resolves|apply Part000_locateSession_resolves].
Qed.

Example C8_by_name :
  (Main.locateSession calm plainJoin "myproject" configured).1
  = inr "/home/u/.config/tmuxg/myproject.yaml".
Proof. reflexivity. Qed.

Example C8_by_path :
  Main.locateSession calm plainJoin "/home/u/.config/tmuxg/myproject.yaml"
    configured
  = (inr "/home/u/.config/tmuxg/myproject.yaml",
     record (os_Stat "/home/u/.config/tmuxg/myproject.yaml") configured).
Proof. reflexivity. Qed.

(** Claim C8 as stated fails: an argument that cannot be examined is not an
    existing regular file as far as the loader can tell, and yet the
    configuration directory is not consulted, although the file is there. *)
Lemma C8_counterexample :
  ¬ (∀ host join name st,
       ¬ (∃ f, files st !! name = Some f ∧ isDir f = false) →
       is_Some (files st !! configPath join (environ st) name) →
       (Main.locateSession host join name st).1
       = inr (configPath join (environ st) name)).
Proof.
  intros H. specialize (H unreadable plainJoin "myproject" configured).
  assert ((Main.locateSession unreadable plainJoin "myproject" configured).1
          = inl (Notef (SysError (os_Stat "myproject"))
                   "failed to open session file %q" ["myproject"])) as Hrun.
  { reflexivity. }
  rewrite Hrun in H. discriminate H.
  - intros (f & Hf & _). vm_compute in Hf. discriminate.
  - vm_compute. by eexists.
Qed.

(** ** Decoding *)

Section Decode.
Context (host : World) (unmarshal : string → error + session.t).

(** [newSession] of [main.go] returns what the decoder returns. *)
Lemma Main_newSession_decoded path st s :
  (Main.newSession host unmarshal path st).1 = inr s →
  ∃ f, files st !! path = Some f ∧ unmarshal (data f) = inr s.
Proof.
  unfold Main.newSession, bind, notef, wrap, ioutil_readFile, ret, fail.
  cbn [record trace files fst snd].
  destruct (fails host _); [done|].
  destruct (files st !! path) as [f|]; [|done].
  destruct (isDir f); [done|].
  destruct (unmarshal (data f)) as [e|s'] eqn:Hs; [done|].
  intros [= ->]. by exists f.
Qed.

(** [run] materializes the session that [newSession] returns. *)
Lemma run_materialize join prog arg rest st name st1 s st2 :
  Main.locateSession host join arg st = (inr name, st1) →
  Main.newSession host unmarshal name st1 = (inr s, st2) →
  Main.run host join unmarshal (prog :: arg :: rest) st
  = Main.materialize host s st2.
Proof.
  intros Hloc Hnew. unfold Main.run. rewrite decide_False by (simpl; lia).
  change (default EmptyString ((prog :: arg :: rest) !! 1)) with arg.
  unfold bind at 1, mask at 1, wrap. rewrite Hloc.
  unfold bind at 1, mask at 1, wrap. by rewrite Hnew.
Qed.

(** [newSession] of the sibling revision fills in ["bash"]. *)
Lemma Part000_newSession_defaults path st s :
  (Part000.newSession host unmarshal path st).1 = inr s →
  ∀ w, w ∈ session.Windows s → window.Command w ≠ EmptyString.
Proof.
  unfold Part000.newSession, bind, notef, wrap, ioutil_readFile, ret, fail.
  cbn [record trace files fst snd].
  destruct (fails host _); [done|].
  destruct (files st !! path) as [f|]; [|done].
  destruct (isDir f); [done|].
  destruct (unmarshal (data f)) as [e|s'] eqn:Hs; [done|].
  intros [= <-] w. cbn [session.Windows].
  intros (w' & -> & _)%list_elem_of_fmap. by case_decide.
Qed.
End Decode.

(** Claim C7 on [main.go]: the README's own example has a window, [shell],
    without a command.  [newSession] returns it with the command still
    empty, and the empty string is what [new-window] is given; the sibling
    revision returns ["bash"] for it. *)
Theorem C7_main_keeps_empty_command :
  let path := "/home/u/.config/tmuxg/myproject.yaml" in
  let shell := window.mk "shell" EmptyString EmptyString [] in
  (Main.newSession calm (decodeAs myproject) path configured).1
  = inr myproject
  ∧ session.Windows myproject !! 1 = Some shell
  ∧ cmd_Run (Main.tmuxCmd myproject
       (environ (Main.materialize calm myproject configured).2)
       ["new-window"; "-d"; "-t"; "myproject:1"; "-c";
        "/home/u/myproject/gopath/src/github.com/cmars/myproject";
        EmptyString])
    ∈ issued calm myproject configured
  ∧ (window.Command <$>
       from_option session.Windows []
         (match (Part000.newSession calm (decodeAs myproject) path
                   configured).1 with
          | inr s => Some s
          | inl _ => None
          end))
    = ["vim"; "bash"; "top"].
Proof.
  split_and!; [reflexivity..| |reflexivity].
  vm_compute. repeat constructor.
Qed.

(** * Further properties of the code *)

(** ** Steps and their errors *)

Section BlameFacts.
Context (host : World).

Lemma firstFailure_attempted h es :
  (attempted host h es.*1).2 = bool_decide (firstFailure host h es = None).
Proof.
  revert h. induction es as [|[e err] es IH]; intros h; simpl; [done|].
  destruct (fails _ _); simpl; [done|]. apply IH.
Qed.

Lemma firstFailure_app h es1 es2 :
  firstFailure host h (es1 ++ es2) =
    match firstFailure host h es1 with
    | Some err => Some err
    | None => firstFailure host (h ++ es1.*1) es2
    end.
Proof.
  revert h. induction es1 as [|[e err] es1 IH]; intros h; simpl.
  - by rewrite app_nil_r.
  - destruct (fails _ _); [done|]. rewrite IH, <-app_assoc. done.
Qed.

Lemma firstFailure_calm h es :
  (∀ t, fails host t = false) → firstFailure host h es = None.
Proof.
  intros Hc. revert h. induction es as [|[e err] es IH]; intros h; simpl;
    [done|]. by rewrite Hc, IH.
Qed.

(** The error reported is that of a step, and that step is the last
    operation performed. *)
Lemma firstFailure_last h es err :
  firstFailure host h es = Some err →
  ∃ e, (e, err) ∈ es ∧ last (attempted host h es.*1).1 = Some e
       ∧ fails host (h ++ (attempted host h es.*1).1) = true.
Proof.
  revert h. induction es as [|[e err'] es IH]; intros h; simpl; [done|].
  destruct (fails _ _) eqn:Hf; simpl.
  - intros [= ->]. exists e. split_and!; [by left|done..].
  - intros Hff. destruct (IH _ Hff) as (e' & Hin & Hl & Hfail).
    exists e'. split_and!; [by right| |by rewrite <-app_assoc in Hfail].
    revert Hl. by destruct (attempted host (h ++ [e]) _).1.
Qed.

Lemma reports_ret {A} (a : A) st : reports host (ret a) st [] a.
Proof. split; simpl; [|done]. by rewrite app_nil_r, OS_eta. Qed.

Lemma reports_env {A} (m : M A) st es es' a :
  es = es' → reports host m st es a → reports host m st es' a.
Proof. by intros ->. Qed.

Lemma reports_wrap {A} f (m : M A) st es a :
  reports host m st es a →
  reports host (wrap f m) st (prod_map id f <$> es) a.
Proof.
  unfold reports, wrap. intros [Hst Hr].
  assert ((prod_map id f <$> es).*1 = es.*1) as ->.
  { rewrite <-list_fmap_compose. by apply list_fmap_ext; intros ? []. }
  assert (firstFailure host (trace st) (prod_map id f <$> es)
          = f <$> firstFailure host (trace st) es) as ->.
  { generalize (trace st). clear. induction es as [|[e err] es IH];
      intros h; simpl; [done|]. destruct (fails _ _); [done|]. apply IH. }
  destruct (m st) as [[e|x] st']; simpl in *;
    destruct (firstFailure host _ _); simplify_eq/=; done.
Qed.

Lemma reports_bind {A B} (m : M A) (k : A → M B) st es1 es2 a b :
  reports host m st es1 a →
  (∀ st1, environ st1 = environ st → files st1 = files st →
          trace st1 = trace st ++ es1.*1 → reports host (k a) st1 es2 b) →
  reports host (bind m k) st (es1 ++ es2) b.
Proof.
  unfold reports at 1 3, bind. intros [Hst Hr] Hk.
  rewrite fmap_app, attempted_app, firstFailure_app.
  rewrite firstFailure_attempted.
  destruct (firstFailure host (trace st) es1) as [err|] eqn:Hff; simpl.
  - destruct (m st) as [r st1]; simpl in *. by subst r st1.
  - assert ((attempted host (trace st) es1.*1).1 = es1.*1) as Hl.
    { apply attempted_all. by rewrite firstFailure_attempted, Hff. }
    rewrite Hl in Hst.
    destruct (m st) as [r st1]; simpl in *. subst r st1.
    destruct (Hk {| environ := environ st; files := files st;
                    trace := trace st ++ es1.*1 |} eq_refl eq_refl eq_refl)
      as [Hst2 Hr2]. simpl in *.
    rewrite Hst2. split; [by rewrite app_assoc|done].
Qed.

Lemma reports_sys e st : reports host (sys host e) st [step id e] tt.
Proof.
  unfold reports, sys, record. simpl.
  destruct (fails host _); simpl; done.
Qed.

Lemma reports_tmux s args st :
  reports host (Main.tmux host s args) st
    [step Mask (cmd_Run (Main.tmuxCmd s (environ st) args))] tt.
Proof.
  exact (reports_wrap Mask
           (cmd_run host (Main.tmuxCmd s (environ st) args)) st [_] tt
           (reports_sys _ st)).
Qed.

Lemma reports_tmuxB s args st :
  reports host (Part000b.tmux host s args) st
    [stepB s (environ st) Mask args] tt.
Proof.
  exact (reports_wrap Mask
           (cmd_run host (Part000b.tmuxCmd s (environ st) args)) st [_] tt
           (reports_sys _ st)).
Qed.

(** What a computation that reports returns, and the state it leaves. *)
Lemma reports_run {A} (m : M A) st es a :
  reports host m st es a →
  m st = (match firstFailure host (trace st) es with
          | Some err => inl err
          | None => inr a
          end,
          {| environ := environ st; files := files st;
             trace := trace st ++ (attempted host (trace st) es.*1).1 |}).
Proof. intros [Hst Hr]. destruct (m st). simpl in *. by subst. Qed.
End BlameFacts.

Section MainSteps.
Context (host : World) (s : session.t).

Lemma loopSteps_ops env i ws :
  (loopSteps s env i ws).*1 = loopOps s env i ws.
Proof.
  revert i. induction ws as [|w ws IH]; intros i; [done|].
  cbn [loopSteps loopOps]. rewrite fmap_app, IH. f_equal.
  unfold windowSteps, windowOps. rewrite fmap_app.
  by repeat case_decide.
Qed.

Lemma tmuxSteps_ops env h :
  (tmuxSteps s env host h).*1 = tmuxOps s env host h.
Proof.
  unfold tmuxSteps, tmuxOps. destruct (session.Windows s) as [|w0 ws]; [done|].
  rewrite !fmap_app, fmap_cons, loopSteps_ops, <-list_fmap_compose.
  done.
Qed.

Lemma reports_createWindow i w st :
  reports host (mask (Main.createWindow host s i w)) st
    [newWindowStep s (environ st) i w] tt.
Proof.
  exact (reports_wrap host Mask _ st [_] tt
           (reports_wrap host _ (Main.tmux host s _) st [_] tt
              (reports_tmux host s _ st))).
Qed.

Lemma reports_sendKeys w st :
  reports host (mask (Main.sendKeys host s w)) st
    (if decide (0 < length (window.Keystrokes w))
     then [sendKeysStep s (environ st) w] else []) tt.
Proof.
  unfold Main.sendKeys. case_decide.
  - exact (reports_wrap host Mask _ st [_] tt
             (reports_wrap host _ (Main.tmux host s _) st [_] tt
                (reports_tmux host s _ st))).
  - apply (reports_wrap host Mask _ st []), reports_ret.
Qed.

Lemma reports_focus i st :
  reports host (mask (Main.focus host s i)) st
    [selectWindowStep s (environ st) i] tt.
Proof.
  exact (reports_wrap host Mask _ st [_] tt
           (reports_wrap host _ (Main.tmux host s _) st [_] tt
              (reports_tmux host s _ st))).
Qed.

Lemma reports_attach st :
  reports host (mask (Main.tmux host s ["attach"; "-t"; session.Name s])) st
    [attachStep s (environ st)] tt.
Proof.
  exact (reports_wrap host Mask _ st [_] tt (reports_tmux host s _ st)).
Qed.

Lemma reports_windowLoop ws i acc st :
  reports host (Main.windowLoop host s i ws acc) st
    (loopSteps s (environ st) i ws) (lastFocus s i ws acc).
Proof.
  revert i acc st. induction ws as [|w ws IH]; intros i acc st.
  - apply reports_ret.
  - cbn [Main.windowLoop loopSteps]. unfold windowSteps. rewrite <-app_assoc.
    eapply reports_bind.
    { case_decide.
      - apply reports_createWindow.
      - apply reports_ret. }
    intros st1 He1 _ _. eapply reports_bind.
    { rewrite <-He1. apply reports_sendKeys. }
    intros st2 He2 _ _. rewrite <-He1, <-He2. apply IH.
Qed.

Lemma reports_setEnvironment kvs st :
  reports host (Main.setEnvironment host s kvs) st
    ((λ kv, step (λ x, Notef (Mask x)
                         "failed to set environment variable %q" [kv.1])
              (setEnvironmentOp s (environ st) kv)) <$> kvs) tt.
Proof.
  revert st. induction kvs as [|[k v] kvs IH]; intros st.
  - apply reports_ret.
  - cbn [Main.setEnvironment fmap list_fmap].
    apply (reports_bind host _ _ st [_] _ tt tt).
    { exact (reports_wrap host _ (Main.tmux host s _) st [_] tt
               (reports_tmux host s _ st)). }
    intros st1 He1 _ _. rewrite <-He1. apply IH.
Qed.

Lemma reports_create st w0 ws :
  session.Windows s = w0 :: ws →
  reports host (mask (Main.create host s)) st
    (newSessionStep s (environ st) w0
     :: (setEnvironmentStep s (environ st)
           <$> rangeOrder host (trace st ++ [newSessionOp s (environ st) w0])
                 (session.Environment s))) tt.
Proof.
  intros Hw. unfold Main.create. rewrite Hw.
  eapply reports_env; [|apply reports_wrap].
  2:{ eapply (reports_bind host _ _ st
               [step (λ x, Notef (Mask x) "failed to start tmux session" [])
                  (newSessionOp s (environ st) w0)] _ tt tt).
      { exact (reports_wrap host _ (Main.tmux host s _) st [_] tt
                 (reports_tmux host s _ st)). }
      intros st1 He1 _ Ht1.
      eapply reports_env;
        [|apply (reports_setEnvironment (rangeOrder host (trace st1) _) st1)].
      rewrite He1, Ht1. reflexivity. }
  cbn [fmap list_fmap app]. f_equal.
  rewrite <-list_fmap_compose.
  apply list_fmap_ext. intros _ [k v] _. reflexivity.
Qed.

Lemma reports_tmuxPart st :
  session.Windows s ≠ [] →
  reports host (tmuxPart host s) st
    (tmuxSteps s (environ st) host (trace st)) tt.
Proof.
  intros Hw. unfold tmuxPart, tmuxSteps.
  destruct (session.Windows s) as [|w0 ws] eqn:Hws; [done|].
  eapply reports_bind.
  { apply (reports_create _ w0 ws). done. }
  intros st1 He1 _ _. eapply reports_bind.
  { rewrite <-He1. apply reports_windowLoop. }
  intros st2 He2 _ _.
  apply (reports_bind host _ _ st2 [_] [_] tt tt).
  { rewrite <-He1, <-He2. apply reports_focus. }
  intros st3 He3 _ _. rewrite <-He1, <-He2, <-He3.
  apply reports_attach.
Qed.
End MainSteps.

Section SetupSteps.
Context (host : World) (s : session.t).

Lemma setupScript_steps st :
  session.SetupScript s ≠ EmptyString →
  let p := tempName host (trace st) in
  let c := strings.TrimSpace (session.SetupScript s) in
  files st !! p = None →
  Main.setupScript host s st
  = (match firstFailure host (trace st) (setupSteps p c) with
     | Some err => inl err
     | None => inr tt
     end,
     {| environ := environ st; files := files st;
        trace := trace st
                 ++ (attempted host (trace st) (setupSteps p c).*1).1
                 ++ (if fails host (trace st ++ [ioutil_TempFile p]) then []
                     else [file_Close p; os_Remove p]) |}).
Proof.
  intros Hne p c Hfresh. unfold Main.setupScript.
  rewrite decide_False by done.
  unfold bind, notef, wrap, deferred, ioutil_tempFile, file_write,
    file_close, os_chmod, cmd_run, os_remove, sys, mask, wrap.
  fold p. fold c. rewrite Hfresh.
  cbn [record trace files environ with_files fst snd setupSteps step
       fmap list_fmap attempted firstFailure bool_decide orb].
  rewrite bool_decide_false by (by intros [? ?]).
  destruct (fails host (trace st ++ [ioutil_TempFile p])) eqn:Hf1;
    cbn [orb record trace files environ with_files fst snd app].
  { done. }
  repeat match goal with
    | |- context [fails host ?t] =>
        destruct (fails host t) eqn:?;
        cbn [record trace files environ with_files fst snd app]
    end;
  unfold with_files, record; cbn [trace files environ];
  rewrite <-?app_assoc; cbn [app];
  by rewrite ?delete_alter_eq, delete_insert_id.
Qed.
End SetupSteps.

(** Property X1.  With a setup script and a temporary file that is new,
    [setupScript] performs, in this order, the creation of the file, the
    write, the close, the chmod and the run of the script, up to the first
    that fails, and returns that step's error: annotated with the step's own
    message, and only masked for the script itself; it returns [nil] when
    none fails.  Unless the file could not be created, the deferred close
    and remove follow whatever happened. *)
Theorem setupScript_reports_first_failure host s st :
  session.SetupScript s ≠ EmptyString →
  let p := tempName host (trace st) in
  let c := strings.TrimSpace (session.SetupScript s) in
  files st !! p = None →
  (Main.setupScript host s st).1
  = match firstFailure host (trace st) (setupSteps p c) with
    | Some err => inl err
    | None => inr tt
    end
  ∧ setupIssued host s st
    = (attempted host (trace st) (setupSteps p c).*1).1
      ++ (if fails host (trace st ++ [ioutil_TempFile p]) then []
          else [file_Close p; os_Remove p]).
Proof.
  intros Hne p c Hfresh. unfold setupIssued.
  rewrite (setupScript_steps host s st Hne Hfresh). simpl.
  split; [done|]. by rewrite drop_app_length.
Qed.

Lemma setupScript_reports_first_failure_witness :
  session.SetupScript scriptOnly ≠ EmptyString
  ∧ files boot !! tempName (flaky 4) (trace boot) = None
  ∧ (Main.setupScript (flaky 4) scriptOnly boot).1
    = inl (Notef (SysError (os_Chmod "/tmp/tmuxg-setup042" mode_0700))
             "error setting temporary script executable" []).
Proof.
  assert (session.SetupScript scriptOnly ≠ EmptyString) as Hne by done.
  split; [exact Hne|]. split; [reflexivity|].
  destruct (setupScript_reports_first_failure (flaky 4) scriptOnly boot Hne
              eq_refl) as [Hr _].
  rewrite Hr. reflexivity.
Defined.

Section MaterializeSteps.
Context (host : World) (s : session.t).

(** [materialize] once the setup script has succeeded or was not there. *)
Lemma materialize_tmuxSteps st st2 :
  session.Windows s ≠ [] →
  Main.setupScript host s
    (with_environ
       (commitEnv (rangeOrder host (trace st) (session.Environment s))) st)
  = (inr tt, st2) →
  let env' := commitEnv (rangeOrder host (trace st) (session.Environment s))
                (environ st) in
  environ st2 = env' ∧ files st2 = files st ∧
  Main.materialize host s st
  = (match firstFailure host (trace st2)
             (tmuxSteps s env' host (trace st2)) with
     | Some err => inl err
     | None => inr tt
     end,
     {| environ := env'; files := files st;
        trace := trace st2
                 ++ (attempted host (trace st2)
                       (tmuxOps s env' host (trace st2))).1 |}).
Proof.
  intros Hw Hsetup env'.
  destruct (setup_summary host s
              (with_environ
                 (commitEnv (rangeOrder host (trace st)
                               (session.Environment s))) st))
    as (He & Hf & _).
  rewrite Hsetup in He, Hf. simpl in He, Hf.
  split_and!; [done..|].
  rewrite materialize_unfold. cbn zeta. rewrite Hsetup.
  rewrite (reports_run host _ _ _ _ (reports_tmuxPart host s st2 Hw)).
  by rewrite tmuxSteps_ops, He, Hf.
Qed.
End MaterializeSteps.

(** Property X2.  Once the setup script has succeeded (or there is none),
    [run] on a session with windows issues the tmux invocations of the plan
    in order up to the first that fails and returns the error of that
    invocation - the error of the process, masked by [tmux], annotated by
    the function that issued it with its message and the variable or window
    it names, and masked by [run]; the error of [attach] is masked twice and
    not annotated.  It returns [nil] when no invocation fails. *)
Theorem run_returns_error_of_first_failing_invocation host s st st2 :
  session.Windows s ≠ [] →
  Main.setupScript host s
    (with_environ
       (commitEnv (rangeOrder host (trace st) (session.Environment s))) st)
  = (inr tt, st2) →
  let env' := commitEnv (rangeOrder host (trace st) (session.Environment s))
                (environ st) in
  (Main.materialize host s st).1
  = match firstFailure host (trace st2)
            (tmuxSteps s env' host (trace st2)) with
    | Some err => inl err
    | None => inr tt
    end
  ∧ trace (Main.materialize host s st).2
    = trace st2
      ++ (attempted host (trace st2) (tmuxOps s env' host (trace st2))).1.
Proof.
  intros Hw Hsetup env'.
  destruct (materialize_tmuxSteps host s st st2 Hw Hsetup) as (_ & _ & ->).
  done.
Qed.

Lemma run_returns_error_of_first_failing_invocation_witness :
  session.Windows myproject ≠ []
  ∧ (Main.materialize (flaky 2) myproject boot).1
    = inl (Mask (Notef
             (Mask (SysError
                (cmd_Run (Main.tmuxCmd myproject
                   (<["GOPATH" := "/home/u/myproject/gopath"]> (environ boot))
                   ["set-environment"; "GOPATH";
                    "/home/u/myproject/gopath"]))))
             "failed to set environment variable %q" ["GOPATH"])).
Proof.
  assert (session.Windows myproject ≠ []) as Hw by done.
  split; [exact Hw|].
  destruct (run_returns_error_of_first_failing_invocation (flaky 2) myproject
              boot _ Hw eq_refl) as [Hr _].
  rewrite Hr. reflexivity.
Defined.

(** Property X3.  When [run] returns an error after the setup script, on a
    session with windows, the last operation it has performed is a tmux
    invocation, that invocation failed, and the error returned is the one of
    that invocation's step: nothing is issued after a failure. *)
Theorem run_stops_at_failing_invocation host s st st2 err :
  session.Windows s ≠ [] →
  Main.setupScript host s
    (with_environ
       (commitEnv (rangeOrder host (trace st) (session.Environment s))) st)
  = (inr tt, st2) →
  (Main.materialize host s st).1 = inl err →
  let env' := commitEnv (rangeOrder host (trace st) (session.Environment s))
                (environ st) in
  ∃ e, last (trace (Main.materialize host s st).2) = Some e
       ∧ is_Some (subcommand e)
       ∧ (e, err) ∈ tmuxSteps s env' host (trace st2)
       ∧ fails host (trace (Main.materialize host s st).2) = true.
Proof.
  intros Hw Hsetup Herr env'.
  destruct (materialize_tmuxSteps host s st st2 Hw Hsetup) as (_ & _ & Hm).
  rewrite Hm in Herr |- *. cbn [fst snd trace] in *.
  destruct (firstFailure host _ _) as [err'|] eqn:Hff; [|done].
  injection Herr as ->.
  destruct (firstFailure_last host _ _ _ Hff) as (e & Hin & Hl & Hf).
  rewrite tmuxSteps_ops in Hl, Hf.
  exists e. split_and!; [|..|done|done].
  - rewrite last_app, Hl. done.
  - assert (e ∈ tmuxOps s env' host (trace st2)) as Hop.
    { rewrite <-tmuxSteps_ops. apply list_elem_of_fmap. by exists (e, err). }
    apply elem_of_tmuxOps in Hop
      as [(w0 & _ & ->)|[(w0 & [k v] & _ & _ & ->)|[(i & w & Hi & Hpos & ->)|
          [(w & _ & _ & ->)|[[_ ->]| ->]]]]]; by eexists.
Qed.

Lemma run_stops_at_failing_invocation_witness :
  session.Windows myproject ≠ []
  ∧ (∃ err, (Main.materialize refusing myproject boot).1 = inl err)
  ∧ length (trace (Main.materialize refusing myproject boot).2) = 1.
Proof.
  assert (session.Windows myproject ≠ []) as Hw by done.
  split; [exact Hw|].
  destruct (run_stops_at_failing_invocation refusing myproject boot _ _ Hw
              eq_refl eq_refl) as (e & _ & _ & _ & _).
  split; [by eexists|reflexivity].
Defined.

(** Property X4.  On a host where no operation fails, [run] on a session
    with at least one window returns [nil], and what it has done is exactly:
    the seven operations of the setup script when there is one, then every
    tmux invocation of the plan, built from the environment the loop over
    [environment] has left. *)
Theorem run_without_failure host s st :
  (∀ t, fails host t = false) →
  session.Windows s ≠ [] →
  let p := tempName host (trace st) in
  let c := strings.TrimSpace (session.SetupScript s) in
  (session.SetupScript s ≠ EmptyString → files st !! p = None) →
  let env' := commitEnv (rangeOrder host (trace st) (session.Environment s))
                (environ st) in
  let pre := if decide (session.SetupScript s = EmptyString) then []
             else setupOps p c in
  (Main.materialize host s st).1 = inr tt
  ∧ environ (Main.materialize host s st).2 = env'
  ∧ issued host s st = pre ++ tmuxOps s env' host (trace st ++ pre).
Proof.
  intros Hcalm Hw p c Hfresh env' pre.
  set (st1 := with_environ
                (commitEnv (rangeOrder host (trace st)
                              (session.Environment s))) st).
  assert (Main.setupScript host s st1
          = (inr tt, {| environ := env'; files := files st;
                        trace := trace st ++ pre |})) as Hsetup.
  { subst pre. case_decide as Hs.
    - rewrite setupScript_empty by done. by rewrite app_nil_r.
    - rewrite (setupScript_steps host s st1 Hs (Hfresh Hs)).
      rewrite firstFailure_calm, attempted_calm, Hcalm by done. done. }
  unfold issued.
  destruct (materialize_tmuxSteps host s st _ Hw Hsetup) as (_ & _ & ->).
  fold env'. cbn [fst snd trace environ].
  rewrite firstFailure_calm, attempted_calm by done.
  split_and!; [done..|]. cbn [fst].
  by rewrite <-app_assoc, drop_app_length.
Qed.

Lemma run_without_failure_witness :
  (∀ t, fails calm t = false)
  ∧ session.Windows bootstrapped ≠ []
  ∧ (session.SetupScript bootstrapped ≠ EmptyString →
     files boot !! tempName calm (trace boot) = None)
  ∧ (Main.materialize calm bootstrapped boot).1 = inr tt
  ∧ length (trace (Main.materialize calm bootstrapped boot).2) = 14.
Proof.
  assert (∀ t, fails calm t = false) as Hcalm by done.
  assert (session.Windows bootstrapped ≠ []) as Hw by done.
  assert (session.SetupScript bootstrapped ≠ EmptyString →
          files boot !! tempName calm (trace boot) = None) as Hfresh by done.
  destruct (run_without_failure calm bootstrapped boot Hcalm Hw Hfresh)
    as (Hr & _ & _).
  split_and!; [exact Hcalm|exact Hw|exact Hfresh|exact Hr|reflexivity].
Defined.

(** ** The invocations of a run, kind by kind *)

Lemma filter_all {A} (P : A → Prop) `{∀ x, Decision (P x)} (l : list A) :
  (∀ x, x ∈ l → P x) → filter P l = l.
Proof.
  induction l as [|x l IH]; intros Hl; [done|].
  rewrite filter_cons_True by (apply Hl; by left).
  f_equal. apply IH. intros y Hy. apply Hl. by right.
Qed.

Ltac other_kind :=
  let H := fresh in
  intros H; unfold isSendKeys, isSetEnvironment in H; by inversion H.

Section Kinds.
Context (s : session.t) (env : gmap string string).

Lemma sendKeys_loopOps i ws :
  filter isSendKeys (loopOps s env i ws)
  = sendKeysOp s env
      <$> filter (λ w, 0 < length (window.Keystrokes w)) ws.
Proof.
  revert i. induction ws as [|w ws IH]; intros i; [done|].
  cbn [loopOps]. unfold windowOps. rewrite !filter_app, IH.
  assert (filter isSendKeys
            (if decide (0 < i) then [newWindowOp s env i w] else []) = [])
    as ->.
  { case_decide; [|done]. rewrite filter_cons_False; [done|other_kind]. }
  rewrite app_nil_l. case_decide.
  - rewrite filter_cons_True by done. by rewrite filter_cons_True.
  - by rewrite filter_nil, filter_cons_False.
Qed.

Lemma sendKeys_tmuxOps host h :
  filter isSendKeys (tmuxOps s env host h)
  = sendKeysOp s env
      <$> filter (λ w, 0 < length (window.Keystrokes w)) (session.Windows s).
Proof.
  unfold tmuxOps.
  rewrite <-(sendKeys_loopOps 0 (session.Windows s)).
  destruct (session.Windows s) as [|w0 ws] eqn:Hw; [done|].
  rewrite !filter_app, filter_cons_False by other_kind.
  rewrite (filter_none isSendKeys (_ <$> _)).
  2:{ intros e (kv & -> & _)%list_elem_of_fmap. other_kind. }
  rewrite !filter_cons_False, filter_nil by other_kind.
  by rewrite app_nil_r.
Qed.

Lemma setEnvironment_loopOps i ws :
  filter isSetEnvironment (loopOps s env i ws) = [].
Proof.
  apply filter_none. intros e He.
  apply elem_of_loopOps in He as [(j & w & _ & _ & ->)|(w & _ & _ & ->)];
    other_kind.
Qed.

Lemma setEnvironment_tmuxOps host h w0 ws :
  session.Windows s = w0 :: ws →
  filter isSetEnvironment (tmuxOps s env host h)
  = setEnvironmentOp s env
      <$> rangeOrder host (h ++ [newSessionOp s env w0])
            (session.Environment s).
Proof.
  intros Hw. unfold tmuxOps. rewrite Hw.
  rewrite !filter_app, filter_cons_False by other_kind.
  rewrite (filter_all isSetEnvironment (_ <$> _)).
  2:{ intros e (kv & -> & _)%list_elem_of_fmap. done. }
  rewrite setEnvironment_loopOps.
  rewrite !filter_cons_False, filter_nil by other_kind.
  by rewrite !app_nil_r.
Qed.

Lemma tmuxOps_subcommand host h e :
  e ∈ tmuxOps s env host h →
  is_Some (subcommand e)
  ∧ ∃ args, e = cmd_Run (Main.tmuxCmd s env args).
Proof.
  intros Hop. apply elem_of_tmuxOps in Hop
    as [(w0 & _ & ->)|[(w0 & [k v] & _ & _ & ->)|[(i & w & Hi & Hpos & ->)|
        [(w & _ & _ & ->)|[[_ ->]| ->]]]]]; split; by eexists.
Qed.
End Kinds.

(** Property X5.  The [send-keys] invocations of a run are, in the order
    of the windows, one for each window that has keystrokes, up to the
    point where the run stops, and all of them when it succeeds.  Each is
    [tmux -L <name> send-keys] followed by the window's keystrokes as they
    are in the document: no expansion, and no target. *)
Theorem run_sends_keystrokes_verbatim host s st :
  let env := environ (Main.materialize host s st).2 in
  let sent := filter isSendKeys (issued host s st) in
  let plan :=
    (λ w, cmd_Run (Main.tmuxCmd s env ("send-keys" :: window.Keystrokes w)))
      <$> filter (λ w, 0 < length (window.Keystrokes w))
            (session.Windows s) in
  sent `prefix_of` plan
  ∧ ((Main.materialize host s st).1 = inr tt → sent = plan)
  ∧ ∀ w, Args (Main.tmuxCmd s env ("send-keys" :: window.Keystrokes w))
         = ["tmux"; "-L"; session.Name s; "send-keys"]
           ++ window.Keystrokes w.
Proof.
  intros env sent plan. subst env sent plan.
  destruct (materialize_spec host s st)
    as (He & _ & l1 & l2 & Hiss & Hsub & _ & _ & Hpre & Hok & _).
  rewrite Hiss, filter_app, He.
  rewrite (filter_none _ l1), app_nil_l.
  2:{ intros e Hin Hc. apply Hsub in Hin. unfold isSendKeys in Hc.
      congruence. }
  change (λ w, cmd_Run (Main.tmuxCmd s ?e ("send-keys" :: window.Keystrokes w)))
    with (sendKeysOp s e).
  rewrite <-(sendKeys_tmuxOps s _ host (trace st ++ l1)).
  split_and!; [by apply filter_prefix| |done].
  intros Hr. by destruct (Hok Hr) as [-> _].
Qed.

(** Property X6.  The [set-environment] invocations of a run are one for
    each entry of [environment], in the order [range] yields them, up to the
    point where the run stops, and all of them when it succeeds.  The value
    passed is the entry's text expanded in the environment the run ends
    with, in which the entry itself is already set: it is expanded a second
    time. *)
Theorem run_sets_session_environment host s st :
  range_ok host →
  let env := environ (Main.materialize host s st).2 in
  let sets := filter isSetEnvironment (issued host s st) in
  ∃ kvs, kvs ≡ₚ map_to_list (session.Environment s)
    ∧ let plan :=
        (λ kv, cmd_Run (Main.tmuxCmd s env
                 ["set-environment"; kv.1; os.ExpandEnv env kv.2])) <$> kvs in
      sets `prefix_of` plan
      ∧ ((Main.materialize host s st).1 = inr tt → sets = plan).
Proof.
  intros Hrange env sets. subst env sets.
  destruct (materialize_spec host s st)
    as (He & _ & l1 & l2 & Hiss & Hsub & _ & _ & Hpre & Hok & _).
  rewrite Hiss, filter_app, He.
  rewrite (filter_none _ l1), app_nil_l.
  2:{ intros e Hin Hc. apply Hsub in Hin. unfold isSetEnvironment in Hc.
      congruence. }
  set (env := commitEnv _ _) in *.
  destruct (session.Windows s) as [|w0 ws] eqn:Hw.
  - unfold tmuxOps in Hpre. rewrite Hw in Hpre.
    apply prefix_nil_inv in Hpre as ->.
    exists (map_to_list (session.Environment s)). split; [done|].
    cbn zeta. rewrite filter_nil. split; [apply prefix_nil|].
    intros Hr. by destruct (Hok Hr) as [_ ?].
  - exists (rangeOrder host ((trace st ++ l1) ++ [newSessionOp s env w0])
              (session.Environment s)).
    split; [apply Hrange|]. cbn zeta.
    change (λ kv : string * string,
              cmd_Run (Main.tmuxCmd s env
                ["set-environment"; kv.1; os.ExpandEnv env kv.2]))
      with (setEnvironmentOp s env).
    rewrite <-(setEnvironment_tmuxOps s env host (trace st ++ l1) w0 ws Hw).
    split; [by apply filter_prefix|].
    intros Hr. by destruct (Hok Hr) as [-> _].
Qed.

Lemma run_sets_session_environment_witness :
  range_ok calm
  ∧ environ (Main.materialize calm nested boot).2 !! "HOME"
    = Some "/home/u/work"
  ∧ filter isSetEnvironment (issued calm nested boot)
    = [cmd_Run (Main.tmuxCmd nested
                  (environ (Main.materialize calm nested boot).2)
                  ["set-environment"; "HOME"; "/home/u/work/work"])].
Proof.
  split; [exact calm_range_ok|]. split; [reflexivity|].
  destruct (run_sets_session_environment calm nested boot calm_range_ok)
    as (kvs & _ & _ & _).
  reflexivity.
Defined.

(** Property X7.  [run] leaves every variable of the process environment
    that [environment] does not name as it was. *)
Theorem run_touches_only_named_variables host s st k :
  range_ok host →
  session.Environment s !! k = None →
  environ (Main.materialize host s st).2 !! k = environ st !! k.
Proof.
  intros Hrange Hk.
  destruct (materialize_spec host s st) as (-> & _).
  set (kvs := rangeOrder host (trace st) (session.Environment s)).
  assert (kvs ≡ₚ map_to_list (session.Environment s)) as Hp by apply Hrange.
  apply commitEnv_other.
  intros ((k' & v) & -> & Hin)%list_elem_of_fmap.
  rewrite Hp in Hin. apply elem_of_map_to_list in Hin. simpl in Hk.
  congruence.
Qed.

Lemma run_touches_only_named_variables_witness :
  range_ok calm
  ∧ session.Environment myproject !! "HOME" = None
  ∧ environ (Main.materialize calm myproject boot).2 !! "HOME"
    = Some "/home/u".
Proof.
  split; [exact calm_range_ok|]. split; [reflexivity|].
  rewrite (run_touches_only_named_variables calm myproject boot "HOME"
             calm_range_ok eq_refl).
  reflexivity.
Defined.

(** Property X8.  Every process a run starts inherits the three standard
    streams.  It is either [tmux], called with [-L <session name>] before
    the subcommand and run in the session's expanded [cwd], or the setup
    script, called without arguments in the directory of tmuxg itself. *)
Theorem run_children host s st c :
  cmd_Run c ∈ issued host s st →
  Stdin c = Inherited ∧ Stdout c = Inherited ∧ Stderr c = Inherited
  ∧ ((Path c = "tmux"
      ∧ take 3 (Args c) = ["tmux"; "-L"; session.Name s]
      ∧ Dir c = os.ExpandEnv (environ (Main.materialize host s st).2)
                  (session.Cwd s))
     ∨ (session.SetupScript s ≠ EmptyString
        ∧ Path c = tempName host (trace st)
        ∧ Args c = [tempName host (trace st)]
        ∧ Dir c = EmptyString)).
Proof.
  intros Hin.
  destruct (materialize_spec host s st)
    as (He & _ & l1 & l2 & Hiss & _ & Hcmd & _ & Hpre & _).
  rewrite Hiss in Hin. apply elem_of_app in Hin as [Hin|Hin].
  - destruct (Hcmd _ Hin) as [Hs ->]. split_and!; [done..|]. by right.
  - destruct Hpre as [k Hk].
    assert (cmd_Run c ∈ tmuxOps s
              (environ (Main.materialize host s st).2) host (trace st ++ l1))
      as Hop.
    { rewrite He, Hk. apply elem_of_app. by left. }
    apply tmuxOps_subcommand in Hop as (_ & args & [= ->]).
    split_and!; [done..|]. by left.
Qed.

Lemma run_children_witness :
  cmd_Run (Main.scriptCmd "/tmp/tmuxg-setup042")
    ∈ issued calm bootstrapped boot
  ∧ Stdin (Main.scriptCmd "/tmp/tmuxg-setup042") = Inherited.
Proof.
  assert (cmd_Run (Main.scriptCmd "/tmp/tmuxg-setup042")
            ∈ issued calm bootstrapped boot) as Hin.
  { vm_compute. repeat constructor. }
  split; [exact Hin|].
  by destruct (run_children calm bootstrapped boot _ Hin) as (? & _).
Defined.

(** Property X9.  In a run, every operation that is not a tmux invocation
    comes before every tmux invocation: the setup script has ended and its
    file has been removed when the first tmux command is issued. *)
Theorem setup_script_precedes_tmux host s st i j ei ej :
  issued host s st !! i = Some ei →
  issued host s st !! j = Some ej →
  subcommand ei = None → is_Some (subcommand ej) →
  i < j.
Proof.
  intros Hi Hj Hni Hsj.
  destruct (materialize_spec host s st)
    as (He & _ & l1 & l2 & Hiss & Hsub & _ & _ & Hpre & _).
  rewrite Hiss in Hi, Hj.
  assert (i < length l1) as Hlt.
  { destruct (decide (i < length l1)) as [|Hge]; [done|].
    rewrite lookup_app_r in Hi by lia.
    apply list_elem_of_lookup_2 in Hi.
    destruct Hpre as [k Hk].
    assert (ei ∈ tmuxOps s
              (commitEnv (rangeOrder host (trace st) (session.Environment s))
                 (environ st)) host (trace st ++ l1)) as Hop.
    { rewrite Hk. apply elem_of_app. by left. }
    apply tmuxOps_subcommand in Hop as [[x Hx] _]. congruence. }
  destruct (decide (j < length l1)) as [Hjl|]; [|lia].
  rewrite lookup_app_l in Hj by done.
  apply list_elem_of_lookup_2, Hsub in Hj. destruct Hsj. congruence.
Qed.

Lemma setup_script_precedes_tmux_witness :
  issued calm bootstrapped boot !! 6 = Some (os_Remove "/tmp/tmuxg-setup042")
  ∧ subcommand <$> issued calm bootstrapped boot !! 7
    = Some (Some "new-session")
  ∧ 6 < 7.
Proof.
  split; [reflexivity|]. split; [reflexivity|].
  eapply (setup_script_precedes_tmux calm bootstrapped boot 6 7);
    [reflexivity|reflexivity|reflexivity|by eexists].
Defined.

(** ** What [locateSession] returns *)

Section LocateCases.
Context (host : World) (join : list string → string).

Ltac locate_split :=
  cbn [record trace files environ with_files fst snd is_error
         os_IsNotExist negb isDir];
  match goal with
  | |- context [fails host ?t] => destruct (fails host t) eqn:?
  | |- context [match ?m !! ?p with _ => _ end] =>
      destruct (m !! p) as [[[] ? ?]|] eqn:?
  end.

Ltac locate_open :=
  rewrite configDir_bind; cbn [record trace files environ];
  unfold configDirOf, configPath;
  set (cd := if decide (_ = EmptyString) then _ else _);
  unfold bind, attempt, os_stat, os_mkdirAll, notef, wrap, ret, fail;
  repeat locate_split;
  cbn [record trace files environ with_files fst snd is_error
         os_IsNotExist negb isDir];
  intros ->;
  cbn [record trace files environ with_files fst snd is_error];
  rewrite <-?app_assoc; cbn [app].

Lemma Main_locateSession_cases name st :
  let stat1 := os_Stat name in
  let dir := configDirOf join (environ st) in
  let path := configPath join (environ st) name in
  let mk := os_MkdirAll dir mode_0644 in
  let stat2 := os_Stat path in
  let out := Main.locateSession host join name st in
  environ out.2 = environ st
  ∧ ((out = (inr name, record stat1 st) ∧ is_Some (files st !! name))
     ∨ (∃ cause format args, out.1 = inl (Notef cause format args)
          ∧ (files out.2 = files st
             ∨ files out.2
               = <[dir := {| isDir := true; data := EmptyString;
                             mode := mode_0644 |}]> (files st))
          ∧ ∃ l, trace out.2 = trace st ++ l
                 ∧ l `prefix_of` [stat1; mk; stat2])
     ∨ (out.1 = inr path ∧ files st !! name = None
        ∧ trace out.2 = trace st ++ [stat1; mk; stat2]
        ∧ (files out.2 = files st
           ∨ files out.2
             = <[dir := {| isDir := true; data := EmptyString;
                           mode := mode_0644 |}]> (files st))
        ∧ is_Some (files out.2 !! path))).
Proof.
  intros stat1 dir path mk stat2 out.
  assert (out = Main.locateSession host join name st) as Hout by done.
  clearbody out. subst stat1 dir path mk stat2.
  unfold Main.locateSession in Hout. revert Hout.
  unfold bind at 1. unfold attempt, os_stat.
  cbn [record trace files environ with_files fst snd].
  destruct (fails host (trace st ++ [os_Stat name])) eqn:Hf1.
  { cbn [os_IsNotExist negb]. unfold fail. intros ->. split; [done|].
    right; left. eexists _, _, _. split; [done|]. split; [by left|].
    exists [os_Stat name]. split; [done|]. by eexists. }
  destruct (files st !! name) as [f|] eqn:Hname.
  { unfold ret. intros ->. split; [done|]. left. by eauto. }
  cbn [os_IsNotExist negb].
  locate_open; (split; [done|]).
  all: try (right; left; eexists _, _, _; split; [done|];
            split; [first [by left|by right]|];
            eexists; split; [done|];
            first [by exists [os_Stat (join [join [cd; "tmuxg"]; name +:+ ".yaml"])]
                  |by exists []]).
  all: right; right; split_and!; try done; try (by left); try (by right);
       by rewrite ?lookup_insert_eq; eauto.
Qed.

Lemma Part000_locateSession_cases name st :
  let stat1 := os_Stat name in
  let dir := configDirOf join (environ st) in
  let path := configPath join (environ st) name in
  let mk := os_MkdirAll dir mode_0644 in
  let stat2 := os_Stat path in
  let out := Part000.locateSession host join name st in
  environ out.2 = environ st
  ∧ ((out = (inr name, record stat1 st)
      ∧ ∃ f, files st !! name = Some f ∧ isDir f = false)
     ∨ (∃ err, out.1 = inl err
          ∧ ((err = ErrNotExist stat2 ∧ files out.2 !! path = None
              ∧ trace out.2 = trace st ++ [stat1; mk; stat2])
             ∨ ∃ cause format args, err = Notef cause format args)
          ∧ ∃ l, trace out.2 = trace st ++ l
                 ∧ l `prefix_of` [stat1; mk; stat2])
     ∨ (out.1 = inr path
        ∧ (files st !! name = None
           ∨ ∃ f, files st !! name = Some f ∧ isDir f = true)
        ∧ trace out.2 = trace st ++ [stat1; mk; stat2]
        ∧ is_Some (files out.2 !! path))).
Proof.
  intros stat1 dir path mk stat2 out.
  assert (out = Part000.locateSession host join name st) as Hout by done.
  clearbody out. subst stat1 dir path mk stat2.
  unfold Part000.locateSession in Hout. revert Hout.
  unfold bind at 1. unfold attempt, os_stat.
  cbn [record trace files environ with_files fst snd].
  destruct (fails host (trace st ++ [os_Stat name])) eqn:Hf1.
  { cbn [os_IsNotExist negb]. unfold fail. intros ->. split; [done|].
    right; left. eexists. split; [done|]. split; [right; by eauto|].
    exists [os_Stat name]. split; [done|]. by eexists. }
  destruct (files st !! name) as [[[] d m]|] eqn:Hn;
    cbn [os_IsNotExist negb isDir].
  2:{ unfold ret. intros ->. split; [done|]. left. by eauto. }
  all: unfold Part000.inConfigDir.
  all: locate_open; (split; [done|]).
  all: first
    [ right; right; split_and!;
        [done|first [by left|right; by eauto]|done|by eauto]
    | right; left; eexists; (split; [done|]);
      (split; [first [left; by split_and!|right; by eauto]|]);
      eexists; (split; [done|]);
      first [by exists []|by eexists [_]|by eexists [_; _]] ].
Qed.
End LocateCases.

(** Property X10.  A path [locateSession] of [main.go] returns exists when
    it returns.  It is the argument, found by a single [os.Stat], or the
    file of that name in the configuration directory, looked for only when
    the argument does not exist; the environment is as before, and the only
    change to the files is the configuration directory, created with mode
    0644. *)
Theorem Main_locateSession_returns_existing_path host join name st p :
  (Main.locateSession host join name st).1 = inr p →
  let st' := (Main.locateSession host join name st).2 in
  let path := configPath join (environ st) name in
  let dir := configDirOf join (environ st) in
  environ st' = environ st
  ∧ is_Some (files st' !! p)
  ∧ ((p = name ∧ is_Some (files st !! name)
      ∧ st' = record (os_Stat name) st)
     ∨ (p = path ∧ files st !! name = None
        ∧ trace st' = trace st ++ [os_Stat name; os_MkdirAll dir mode_0644;
                                   os_Stat path]
        ∧ (files st' = files st
           ∨ files st'
             = <[dir := {| isDir := true; data := EmptyString;
                           mode := mode_0644 |}]> (files st)))).
Proof.
  intros Hp st' path dir. subst st' path dir.
  destruct (Main_locateSession_cases host join name st)
    as (He & [[Hout Hex]|[(cause & format & args & Herr & _)|
                          (Hr & Hname & Ht & Hfiles & Hex)]]).
  - rewrite Hout in Hp |- *. injection Hp as <-.
    split_and!; [done..|]. by left.
  - congruence.
  - rewrite Hr in Hp. injection Hp as <-. split_and!; [done..|]. by right.
Qed.

Lemma Main_locateSession_returns_existing_path_witness :
  (Main.locateSession calm plainJoin "myproject" configured).1
  = inr "/home/u/.config/tmuxg/myproject.yaml"
  ∧ is_Some (files (Main.locateSession calm plainJoin "myproject"
                      configured).2
             !! "/home/u/.config/tmuxg/myproject.yaml").
Proof.
  split; [reflexivity|].
  by destruct (Main_locateSession_returns_existing_path calm plainJoin
                 "myproject" configured _ eq_refl) as (_ & Hex & _).
Defined.

(** Property X11.  [locateSession] of [unnamed/part_000] returns the
    argument only when it names a file that is not a directory; an argument
    that names a directory is looked for in the configuration directory,
    like one that does not exist. *)
Theorem Part000_locateSession_skips_directories host join name st p :
  (Part000.locateSession host join name st).1 = inr p →
  let st' := (Part000.locateSession host join name st).2 in
  let path := configPath join (environ st) name in
  let dir := configDirOf join (environ st) in
  (p = name ∧ st' = record (os_Stat name) st
   ∧ ∃ f, files st !! name = Some f ∧ isDir f = false)
  ∨ (p = path
     ∧ (files st !! name = None
        ∨ ∃ f, files st !! name = Some f ∧ isDir f = true)
     ∧ trace st' = trace st ++ [os_Stat name; os_MkdirAll dir mode_0644;
                                os_Stat path]
     ∧ is_Some (files st' !! path)).
Proof.
  intros Hp st' path dir. subst st' path dir.
  destruct (Part000_locateSession_cases host join name st)
    as (He & [[Hout Hex]|[(err & Herr & _)|(Hr & Hname & Ht & Hex)]]).
  - rewrite Hout in Hp |- *. injection Hp as <-. by left.
  - congruence.
  - rewrite Hr in Hp. injection Hp as <-. by right.
Qed.

Lemma Part000_locateSession_skips_directories_witness :
  (Part000.locateSession calm plainJoin "myproject" crowded).1
  = inr "/home/u/.config/tmuxg/myproject.yaml"
  ∧ ∃ f, files crowded !! "myproject" = Some f ∧ isDir f = true.
Proof.
  split; [reflexivity|].
  destruct (Part000_locateSession_skips_directories calm plainJoin
              "myproject" crowded _ eq_refl)
    as [(Hp & _)|(_ & [Hnone|Hdir] & _)];
    [discriminate Hp|discriminate Hnone|exact Hdir].
Defined.

(** Property X12.  An error of [locateSession] of [unnamed/part_000]
    that [os.IsNotExist] recognises is the error of the second [os.Stat],
    passed on as it is, and the session file is then missing from the
    configuration directory; every other error is annotated. *)
Theorem Part000_locateSession_passes_not_exist host join name st err :
  (Part000.locateSession host join name st).1 = inl err →
  let st' := (Part000.locateSession host join name st).2 in
  let path := configPath join (environ st) name in
  let dir := configDirOf join (environ st) in
  if os_IsNotExist err
  then err = ErrNotExist (os_Stat path)
       ∧ files st' !! path = None
       ∧ trace st' = trace st ++ [os_Stat name; os_MkdirAll dir mode_0644;
                                  os_Stat path]
  else ∃ cause format args, err = Notef cause format args.
Proof.
  intros Herr st' path dir. subst st' path dir.
  destruct (Part000_locateSession_cases host join name st)
    as (He & [[Hout Hex]|[(err' & Herr' & Hkind & _)|(Hr & _)]]).
  - rewrite Hout in Herr. discriminate.
  - rewrite Herr' in Herr. injection Herr as ->.
    destruct Hkind as [(-> & Hnone & Ht)|(cause & format & args & ->)];
      simpl; eauto.
  - congruence.
Qed.

Lemma Part000_locateSession_passes_not_exist_witness :
  (Part000.locateSession calm plainJoin "absent" boot).1
  = inl (ErrNotExist (os_Stat "/home/u/.config/tmuxg/absent.yaml"))
  ∧ files (Part000.locateSession calm plainJoin "absent" boot).2
    !! "/home/u/.config/tmuxg/absent.yaml" = None.
Proof.
  split; [reflexivity|].
  by destruct (Part000_locateSession_passes_not_exist calm plainJoin
                 "absent" boot _ eq_refl) as (_ & Hnone & _).
Defined.

(** ** [run] as a whole *)

Section RunFacts.
Context (host : World) (join : list string → string).

Lemma materialize_trace s st :
  trace (Main.materialize host s st).2 = trace st ++ issued host s st.
Proof.
  unfold issued. rewrite materialize_unfold. cbn zeta.
  set (st1 := with_environ _ st).
  destruct (setup_summary host s st1) as (_ & _ & l1 & Ht1 & _).
  destruct (Main.setupScript host s st1) as [[e|[]] st2]; simpl in Ht1.
  - simpl. by rewrite Ht1, drop_app_length.
  - destruct (tmuxPart_summary host s st2) as (_ & _ & l2 & Ht2 & _).
    rewrite Ht2, Ht1. simpl. by rewrite <-app_assoc, drop_app_length.
Qed.

Lemma Main_locateSession_trace name st :
  ∃ l, trace (Main.locateSession host join name st).2 = trace st ++ l
       ∧ ∀ c, cmd_Run c ∉ l.
Proof.
  destruct (Main_locateSession_cases host join name st)
    as (_ & [[-> _]|[(_ & _ & _ & _ & _ & l & Ht & Hpre)|
                     (_ & _ & Ht & _)]]).
  - exists [os_Stat name]. split; [done|]. set_solver.
  - exists l. split; [done|]. intros c Hc.
    destruct Hpre as [k Hk].
    assert (cmd_Run c ∈ l ++ k) as Hin by (apply elem_of_app; by left).
    rewrite <-Hk in Hin. set_solver.
  - eexists. split; [done|]. set_solver.
Qed.

Lemma Main_newSession_cases (unmarshal : string → error + session.t)
    path st :
  (Main.newSession host unmarshal path st).2
  = record (ioutil_ReadFile path) st
  ∧ ∀ s, (Main.newSession host unmarshal path st).1 = inr s →
      fails host (trace st ++ [ioutil_ReadFile path]) = false
      ∧ ∃ f, files st !! path = Some f ∧ isDir f = false
             ∧ unmarshal (data f) = inr s.
Proof.
  unfold Main.newSession, bind, notef, wrap, ioutil_readFile, ret, fail.
  cbn [record trace files fst snd].
  destruct (fails host _); [done|].
  destruct (files st !! path) as [f|]; [|done].
  destruct (isDir f) eqn:Hd; [done|].
  destruct (unmarshal (data f)) as [e|s'] eqn:Hs; [done|].
  split; [done|]. intros s [= <-]. split; [done|]. by exists f.
Qed.
End RunFacts.

(** Property X13.  [run] of [main.go] starts a process only after
    [locateSession] has returned a path, that path names a file that is not
    a directory, and the decoder has accepted what the file holds; the
    process then belongs to the materialization of the decoded session. *)
Theorem run_starts_no_process_without_session host join unmarshal args st c :
  cmd_Run c ∈ ran host join unmarshal args st →
  ∃ arg name st1 f s,
    args !! 1 = Some arg
    ∧ Main.locateSession host join arg st = (inr name, st1)
    ∧ files st1 !! name = Some f ∧ isDir f = false
    ∧ unmarshal (data f) = inr s
    ∧ cmd_Run c ∈ issued host s (record (ioutil_ReadFile name) st1).
Proof.
  unfold ran, Main.run. case_decide as Hlen.
  { unfold fail. simpl. rewrite drop_all. by intros ?%elem_of_nil. }
  destruct args as [|prog [|arg rest]]; [simpl in Hlen; lia..|].
  change (default EmptyString ((prog :: arg :: rest) !! 1)) with arg.
  destruct (Main_locateSession_trace host join arg st) as (l & Ht & Hl).
  unfold bind at 1, mask at 1, wrap.
  destruct (Main.locateSession host join arg st) as [[e|name] st1] eqn:Hloc;
    simpl in Ht.
  { simpl. rewrite Ht, drop_app_length. intros Hin. by destruct (Hl c). }
  destruct (Main_newSession_cases host unmarshal name st1) as [Hst2 Hs].
  unfold bind at 1, mask at 1, wrap.
  destruct (Main.newSession host unmarshal name st1) as [[e|s] st2] eqn:Hnew;
    simpl in Hst2, Hs; subst st2.
  { simpl. rewrite Ht, <-app_assoc, drop_app_length.
    intros [Hin|Hin]%elem_of_app; [by destruct (Hl c)|set_solver]. }
  rewrite materialize_trace. simpl. rewrite Ht, <-!app_assoc, drop_app_length.
  intros [Hin|Hin]%elem_of_app; [by destruct (Hl c)|].
  apply elem_of_cons in Hin as [Hin|Hin]; [done|].
  destruct (Hs s eq_refl) as (_ & f & Hf & Hd & Hu).
  exists arg, name, st1, f, s. split_and!; done.
Qed.

Lemma run_starts_no_process_without_session_witness :
  cmd_Run (Main.tmuxCmd myproject
             (<["GOPATH" := "/home/u/myproject/gopath"]> (environ configured))
             ["attach"; "-t"; "myproject"])
    ∈ ran calm plainJoin (decodeAs myproject) ["tmuxg"; "myproject"]
        configured
  ∧ (Main.locateSession calm plainJoin "myproject" configured).1
    = inr "/home/u/.config/tmuxg/myproject.yaml".
Proof.
  assert (cmd_Run (Main.tmuxCmd myproject
             (<["GOPATH" := "/home/u/myproject/gopath"]> (environ configured))
             ["attach"; "-t"; "myproject"])
            ∈ ran calm plainJoin (decodeAs myproject) ["tmuxg"; "myproject"]
                configured) as Hin.
  { vm_compute. repeat constructor. }
  split; [exact Hin|].
  destruct (run_starts_no_process_without_session _ _ _ _ _ _ Hin)
    as (arg & name & st1 & f & s & Harg & Hloc & _).
  reflexivity.
Defined.

(** Property X14.  When its argument names an existing directory, [run] of
    [main.go] takes the directory for the session file: after one [os.Stat]
    it tries to read it, fails with the read error, and never looks into
    the configuration directory. *)
Theorem run_takes_directory_for_session_file host join unmarshal
    prog arg rest st f :
  files st !! arg = Some f → isDir f = true →
  fails host (trace st ++ [os_Stat arg]) = false →
  Main.run host join unmarshal (prog :: arg :: rest) st
  = (inl (Mask (Notef (SysError (ioutil_ReadFile arg))
                  "failed to read session file" [])),
     {| environ := environ st; files := files st;
        trace := trace st ++ [os_Stat arg; ioutil_ReadFile arg] |}).
Proof.
  intros Hf Hd Hstat. unfold Main.run.
  rewrite decide_False by (simpl; lia).
  change (default EmptyString ((prog :: arg :: rest) !! 1)) with arg.
  unfold Main.locateSession, Main.newSession.
  unfold bind, mask, wrap, attempt, os_stat, ioutil_readFile, notef, wrap,
    ret. cbn [record trace files environ fst snd].
  rewrite Hstat, Hf. cbn [record trace files environ fst snd].
  rewrite Hf, Hd.
  destruct (fails host ((trace st ++ [os_Stat arg])
                          ++ [ioutil_ReadFile arg]));
    simpl; unfold record; simpl; by rewrite <-app_assoc.
Qed.

Lemma run_takes_directory_for_session_file_witness :
  (∃ f, files crowded !! "myproject" = Some f ∧ isDir f = true)
  ∧ fails calm (trace crowded ++ [os_Stat "myproject"]) = false
  ∧ trace (Main.run calm plainJoin (decodeAs myproject)
             ["tmuxg"; "myproject"] crowded).2
    = [os_Stat "myproject"; ioutil_ReadFile "myproject"].
Proof.
  split; [by eexists|]. split; [reflexivity|].
  rewrite (run_takes_directory_for_session_file calm plainJoin
             (decodeAs myproject) "tmuxg" "myproject" [] crowded _
             eq_refl eq_refl eq_refl).
  reflexivity.
Defined.

(** Property X15.  The session [newSession] of [unnamed/part_000] returns
    is the decoded one with ["bash"] for the command of every window that
    has none: the windows are as many and in the same order, names,
    directories, keystrokes and the commands that are there are kept, and
    so are the session's own fields; no window is left without a
    command. *)
Theorem Part000_newSession_fills_in_bash host unmarshal path st s :
  (Part000.newSession host unmarshal path st).1 = inr s →
  ∃ f d, files st !! path = Some f ∧ unmarshal (data f) = inr d
    ∧ session.Name s = session.Name d
    ∧ session.SetupScript s = session.SetupScript d
    ∧ session.Environment s = session.Environment d
    ∧ session.Cwd s = session.Cwd d
    ∧ session.Focus s = session.Focus d
    ∧ length (session.Windows s) = length (session.Windows d)
    ∧ ∀ i w, session.Windows d !! i = Some w →
        ∃ w', session.Windows s !! i = Some w'
          ∧ window.Name w' = window.Name w
          ∧ window.Cwd w' = window.Cwd w
          ∧ window.Keystrokes w' = window.Keystrokes w
          ∧ window.Command w'
            = (if decide (window.Command w = EmptyString) then "bash"
               else window.Command w)
          ∧ window.Command w' ≠ EmptyString.
Proof.
  unfold Part000.newSession, bind, notef, wrap, ioutil_readFile, ret, fail.
  cbn [record trace files fst snd].
  destruct (fails host _); [done|].
  destruct (files st !! path) as [f|]; [|done].
  destruct (isDir f); [done|].
  destruct (unmarshal (data f)) as [e|d] eqn:Hs; [done|].
  intros [= <-]. exists f, d. cbn. split_and!; [done..| |].
  - by rewrite length_fmap.
  - intros i w Hi. eexists. split.
    { rewrite list_lookup_fmap, Hi. reflexivity. }
    case_decide as Hc; simpl; split_and!; done.
Qed.

Lemma Part000_newSession_fills_in_bash_witness :
  (∃ s, (Part000.newSession calm (decodeAs myproject)
           "/home/u/.config/tmuxg/myproject.yaml" configured).1 = inr s
        ∧ window.Command <$> session.Windows s = ["vim"; "bash"; "top"]).
Proof.
  eexists. split; [reflexivity|].
  destruct (Part000_newSession_fills_in_bash calm (decodeAs myproject)
              "/home/u/.config/tmuxg/myproject.yaml" configured _ eq_refl)
    as (f & d & _).
  reflexivity.
Defined.

(** ** The first revision of [unnamed/part_000]: [create] *)

Section CreateA.
Context (host : World) (s : session.t).

Lemma reports_setEnvironmentA kvs st :
  reports host (Part000a.setEnvironment host s kvs) st
    (setEnvironmentStepA s (environ st) <$> kvs) tt.
Proof.
  revert st. induction kvs as [|[k v] kvs IH]; intros st.
  - apply reports_ret.
  - cbn [Part000a.setEnvironment fmap list_fmap].
    apply (reports_bind host _ _ st [_] _ tt tt).
    { exact (reports_wrap host _ (Main.tmux host s _) st [_] tt
               (reports_tmux host s _ st)). }
    intros st1 He1 _ _. rewrite <-He1. apply IH.
Qed.

Lemma reports_createA st :
  session.Windows s ≠ [] →
  reports host (Part000a.create host s) st
    (createStepsA s (environ st) host (trace st)) tt.
Proof.
  intros Hw. unfold Part000a.create, createStepsA.
  destruct (session.Windows s) as [|w0 ws]; [done|].
  apply (reports_bind host _ _ st [_] _ tt tt).
  { exact (reports_wrap host _ (Main.tmux host s _) st [_] tt
             (reports_tmux host s _ st)). }
  intros st1 He1 _ Ht1.
  eapply reports_env;
    [|apply (reports_setEnvironmentA (rangeOrder host (trace st1) _) st1)].
  by rewrite He1, Ht1.
Qed.
End CreateA.

(** Property X16.  [create] of the first revision in [unnamed/part_000]
    issues [new-session] and then one [set-environment -t <name>] for each
    entry, up to the first failure.  A [set-environment] that fails ends
    [create] with an error, although the message calls it a warning. *)
Theorem Part000a_create_fails_on_warning host s st :
  session.Windows s ≠ [] →
  Part000a.create host s st
  = (match firstFailure host (trace st)
             (createStepsA s (environ st) host (trace st)) with
     | Some err => inl err
     | None => inr tt
     end,
     {| environ := environ st; files := files st;
        trace := trace st
                 ++ (attempted host (trace st)
                       (createStepsA s (environ st) host (trace st)).*1).1 |}).
Proof. intros Hw. apply reports_run, reports_createA, Hw. Qed.

Lemma Part000a_create_fails_on_warning_witness :
  session.Windows myproject ≠ []
  ∧ (Part000a.create (flaky 2) myproject boot).1
    = inl (Notef
             (Mask (SysError
                (cmd_Run (Main.tmuxCmd myproject (environ boot)
                   ["set-environment"; "-t"; "myproject"; "GOPATH";
                    "/home/u/myproject/gopath"]))))
             "warning: failed to set environment variable %q" ["GOPATH"]).
Proof.
  assert (session.Windows myproject ≠ []) as Hw by done.
  split; [exact Hw|].
  rewrite (Part000a_create_fails_on_warning (flaky 2) myproject boot Hw).
  reflexivity.
Defined.

(** ** The second revision of [unnamed/part_000] *)

Section StepsB.
Context (host : World) (s : session.t).

Lemma reports_createWindowB i w st :
  reports host (mask (Part000b.createWindow host s i w)) st
    [newWindowStepB s (environ st) i w] tt.
Proof.
  exact (reports_wrap host Mask _ st [_] tt
           (reports_wrap host _ (Part000b.tmux host s _) st [_] tt
              (reports_tmuxB host s _ st))).
Qed.

Lemma reports_sendKeysB w st :
  reports host (mask (Part000b.sendKeys host s w)) st
    (if decide (0 < length (window.Keystrokes w))
     then [sendKeysStepB s (environ st) w] else []) tt.
Proof.
  unfold Part000b.sendKeys. case_decide.
  - exact (reports_wrap host Mask _ st [_] tt
             (reports_wrap host _ (Part000b.tmux host s _) st [_] tt
                (reports_tmuxB host s _ st))).
  - apply (reports_wrap host Mask _ st []), reports_ret.
Qed.

Lemma reports_windowLoopB ws i acc st :
  reports host (Part000b.windowLoop host s i ws acc) st
    (loopStepsB s (environ st) i ws) (lastFocus s i ws acc).
Proof.
  revert i acc st. induction ws as [|w ws IH]; intros i acc st.
  - apply reports_ret.
  - cbn [Part000b.windowLoop loopStepsB]. unfold windowStepsB.
    rewrite <-app_assoc. eapply reports_bind.
    { case_decide.
      - apply reports_createWindowB.
      - apply reports_ret. }
    intros st1 He1 _ _. eapply reports_bind.
    { rewrite <-He1. apply reports_sendKeysB. }
    intros st2 He2 _ _. rewrite <-He1, <-He2. apply IH.
Qed.

Lemma reports_setEnvironmentB kvs st :
  reports host (Part000b.setEnvironment host s kvs) st
    ((λ kv, stepB s (environ st)
              (λ x, Notef (Mask x)
                      "failed to set session environment variables" [])
              ["set-environment"; "-t"; session.Name s; kv.1;
               os.ExpandEnv (environ st) kv.2]) <$> kvs) tt.
Proof.
  revert st. induction kvs as [|[k v] kvs IH]; intros st.
  - apply reports_ret.
  - cbn [Part000b.setEnvironment fmap list_fmap].
    apply (reports_bind host _ _ st [_] _ tt tt).
    { exact (reports_wrap host _ (Part000b.tmux host s _) st [_] tt
               (reports_tmuxB host s _ st)). }
    intros st1 He1 _ _. rewrite <-He1. apply IH.
Qed.

Lemma reports_updateEnvironmentB st :
  reports host (mask (Part000b.updateEnvironment host s)) st
    (setEnvironmentStepB s (environ st)
       <$> rangeOrder host (trace st) (session.Environment s)) tt.
Proof.
  eapply reports_env; [|apply reports_wrap].
  2:{ apply (reports_setEnvironmentB
               (rangeOrder host (trace st) (session.Environment s)) st). }
  rewrite <-list_fmap_compose.
  apply list_fmap_ext. intros _ [k v] _. reflexivity.
Qed.

Lemma reports_createB st w0 ws :
  session.Windows s = w0 :: ws →
  reports host (mask (Part000b.create host s)) st
    [newSessionStepB s (environ st) w0] tt.
Proof.
  intros Hw. unfold Part000b.create. rewrite Hw.
  exact (reports_wrap host Mask _ st [_] tt
           (reports_wrap host _ (Part000b.tmux host s _) st [_] tt
              (reports_tmuxB host s _ st))).
Qed.

Lemma reports_tmuxPartB st :
  session.Windows s ≠ [] →
  reports host
    (mask (Part000b.create host s) ;;'
     mask (Part000b.updateEnvironment host s) ;;'
     i ←' Part000b.windowLoop host s 0 (session.Windows s) 0;
     mask (Part000b.focus host s i) ;;'
     mask (Part000b.tmux host s ["attach"; "-t"; session.Name s])) st
    (stepsB s (environ st) host (trace st)) tt.
Proof.
  intros Hw. unfold stepsB.
  destruct (session.Windows s) as [|w0 ws] eqn:Hws; [done|].
  change ((?a :: ?l) ++ ?r) with ([a] ++ l ++ r).
  eapply reports_bind.
  { apply (reports_createB _ w0 ws). done. }
  intros st1 He1 _ Ht1. eapply reports_bind.
  { eapply reports_env; [|apply reports_updateEnvironmentB].
    by rewrite He1, Ht1. }
  intros st2 He2 _ _. eapply reports_bind.
  { rewrite <-He1, <-He2. apply reports_windowLoopB. }
  intros st3 He3 _ _.
  apply (reports_bind host _ _ st3 [_] [_] tt tt).
  { rewrite <-He1, <-He2, <-He3.
    exact (reports_wrap host Mask _ st3 [_] tt
             (reports_wrap host _ (Part000b.tmux host s _) st3 [_] tt
                (reports_tmuxB host s _ st3))). }
  intros st4 He4 _ _. rewrite <-He1, <-He2, <-He3, <-He4.
  exact (reports_wrap host Mask _ st4 [_] tt (reports_tmuxB host s _ st4)).
Qed.

Lemma materializeB_steps st :
  session.Windows s ≠ [] →
  let env' := commitEnv (rangeOrder host (trace st) (session.Environment s))
                (environ st) in
  Part000b.materialize host s st
  = (match firstFailure host (trace st) (stepsB s env' host (trace st)) with
     | Some err => inl err
     | None => inr tt
     end,
     {| environ := env'; files := files st;
        trace := trace st
                 ++ (attempted host (trace st)
                       (stepsB s env' host (trace st)).*1).1 |}).
Proof.
  intros Hw env'. unfold Part000b.materialize.
  unfold bind at 1 2, range. cbn beta iota. rewrite setenvAll_spec.
  exact (reports_run host _
           (with_environ
              (commitEnv (rangeOrder host (trace st) (session.Environment s)))
              st) _ _ (reports_tmuxPartB _ Hw)).
Qed.

Lemma materializeB_no_windows st :
  session.Windows s = [] →
  Part000b.materialize host s st
  = (inl (Mask NoWindowsConfigured),
     with_environ
       (commitEnv (rangeOrder host (trace st) (session.Environment s))) st).
Proof.
  intros Hw. unfold Part000b.materialize.
  unfold bind at 1 2, range. cbn beta iota. rewrite setenvAll_spec.
  unfold bind, mask, wrap, Part000b.create, fail. by rewrite Hw.
Qed.

Lemma elem_of_loopStepsB env e i ws :
  e ∈ (loopStepsB s env i ws).*1 →
  ∃ sub rest, e = cmd_Run (Part000b.tmuxCmd s env (sub :: rest))
              ∧ sub ∈ ["new-window"; "send-keys"].
Proof.
  revert i. induction ws as [|w ws IH]; intros i; cbn [loopStepsB].
  - by intros ?%elem_of_nil.
  - rewrite fmap_app. intros [Hin|Hin]%elem_of_app; [|by eapply IH].
    unfold windowStepsB in Hin. rewrite fmap_app in Hin.
    apply elem_of_app in Hin as [Hin|Hin];
      (case_decide; [|by apply elem_of_nil in Hin]);
      apply list_elem_of_singleton in Hin as ->;
      eexists _, _; (split; [reflexivity|]); set_solver.
Qed.

Lemma elem_of_stepsB env h e :
  e ∈ (stepsB s env host h).*1 →
  ∃ sub rest, e = cmd_Run (Part000b.tmuxCmd s env (sub :: rest))
              ∧ sub ∈ ["new-session"; "set-environment"; "new-window";
                       "send-keys"; "select-window"; "attach"].
Proof.
  unfold stepsB. destruct (session.Windows s) as [|w0 ws].
  { by intros ?%elem_of_nil. }
  rewrite !fmap_app, fmap_cons, !elem_of_app, elem_of_cons.
  rewrite <-list_fmap_compose, list_elem_of_fmap.
  intros [[->|(kv & -> & _)]|[Hin|Hin]].
  - eexists _, _. split; [reflexivity|]. set_solver.
  - eexists _, _. split; [reflexivity|]. set_solver.
  - apply elem_of_loopStepsB in Hin as (sub & rest & -> & Hsub).
    eexists _, _. split; [reflexivity|]. set_solver.
  - apply elem_of_cons in Hin as [->|Hin];
      [|apply list_elem_of_singleton in Hin as ->];
      eexists _, _; (split; [reflexivity|]); set_solver.
Qed.
End StepsB.

(** Property X17.  [run] of the second revision in [unnamed/part_000],
    from the moment the session is loaded and when it has windows: the
    environment is committed, then come [new-session], one
    [set-environment -t <name>] for each entry, [new-window] (without [-d])
    and [send-keys] window by window, [select-window] and [attach], all on
    the default tmux server, up to the first that fails; the error returned
    is the one of that step, [nil] when none fails. *)
Theorem Part000b_run_reports_first_failure host s st :
  session.Windows s ≠ [] →
  let env' := commitEnv (rangeOrder host (trace st) (session.Environment s))
                (environ st) in
  Part000b.materialize host s st
  = (match firstFailure host (trace st) (stepsB s env' host (trace st)) with
     | Some err => inl err
     | None => inr tt
     end,
     {| environ := env'; files := files st;
        trace := trace st
                 ++ (attempted host (trace st)
                       (stepsB s env' host (trace st)).*1).1 |}).
Proof. apply materializeB_steps. Qed.

Lemma Part000b_run_reports_first_failure_witness :
  session.Windows myproject ≠ []
  ∧ (Part000b.materialize calm myproject boot).1 = inr tt
  ∧ (Args <$> (trace (Part000b.materialize calm myproject boot).2
               ≫= λ e, match e with cmd_Run c => [c] | _ => [] end))
    = [ ["tmux"; "new-session"; "-d"; "-s"; "myproject"; "vim"];
        ["tmux"; "set-environment"; "-t"; "myproject"; "GOPATH";
         "/home/u/myproject/gopath"];
        ["tmux"; "send-keys"; "\n"];
        ["tmux"; "new-window"; "-t"; "myproject:1"; "-c";
         "/home/u/myproject/gopath/src/github.com/cmars/myproject";
         EmptyString];
        ["tmux"; "new-window"; "-t"; "myproject:2"; "-c";
         "/home/u/myproject/gopath/src/github.com/cmars/myproject"; "top"];
        ["tmux"; "select-window"; "-t"; "myproject:2"];
        ["tmux"; "attach"; "-t"; "myproject"] ].
Proof.
  assert (session.Windows myproject ≠ []) as Hw by done.
  split; [exact Hw|].
  rewrite (Part000b_run_reports_first_failure calm myproject boot Hw).
  split; reflexivity.
Defined.

(** Property X18.  [run] of the second revision in [unnamed/part_000]
    reads its argument as a path, first of all, and touches no other file:
    everything it does afterwards is a tmux invocation with one of the six
    subcommands. *)
Theorem Part000b_run_reads_argument_as_path host unmarshal args arg st :
  args !! 1 = Some arg →
  ∃ l, ranB host unmarshal args st = ioutil_ReadFile arg :: l
     ∧ ∀ e, e ∈ l →
         ∃ c sub, e = cmd_Run c ∧ Path c = "tmux"
           ∧ Args c !! 0 = Some "tmux" ∧ Args c !! 1 = Some sub
           ∧ sub ∈ ["new-session"; "set-environment"; "new-window";
                    "send-keys"; "select-window"; "attach"].
Proof.
  intros Harg. unfold ranB, Part000b.run.
  destruct args as [|prog [|arg' rest]]; [done..|].
  injection Harg as ->.
  rewrite decide_False by (simpl; lia).
  change (default EmptyString ((prog :: arg :: rest) !! 1)) with arg.
  unfold bind at 1, mask at 1, wrap.
  unfold Part000b.newSession, bind at 1, notef, wrap, ioutil_readFile.
  cbn [record trace files environ fst snd].
  assert (∀ st', trace st' = trace st ++ [ioutil_ReadFile arg] →
            ∃ l, drop (length (trace st)) (trace st')
                 = ioutil_ReadFile arg :: l
              ∧ ∀ e, e ∈ l →
                  ∃ c sub, e = cmd_Run c ∧ Path c = "tmux"
                    ∧ Args c !! 0 = Some "tmux" ∧ Args c !! 1 = Some sub
                    ∧ sub ∈ ["new-session"; "set-environment"; "new-window";
                             "send-keys"; "select-window"; "attach"])
    as Hstop.
  { intros st' ->. exists []. rewrite drop_app_length.
    split; [done|]. by intros e ?%elem_of_nil. }
  unfold fail, ret.
  destruct (fails host _); [by apply Hstop|].
  destruct (files st !! arg) as [f|]; [|by apply Hstop].
  destruct (isDir f); [by apply Hstop|].
  destruct (unmarshal (data f)) as [err|s]; [by apply Hstop|].
  cbn beta iota.
  destruct (decide (session.Windows s = [])) as [Hw|Hw].
  { rewrite materializeB_no_windows by done. by apply Hstop. }
  rewrite materializeB_steps by done. cbn [snd trace record].
  rewrite <-app_assoc, drop_app_length. eexists. split; [reflexivity|].
  intros e Hin.
  destruct (attempted_prefix host (trace st ++ [ioutil_ReadFile arg])
              (stepsB s (commitEnv (rangeOrder host
                                      (trace st ++ [ioutil_ReadFile arg])
                                      (session.Environment s)) (environ st))
                 host (trace st ++ [ioutil_ReadFile arg])).*1) as [k Hk].
  assert (e ∈ (stepsB s (commitEnv (rangeOrder host
                                      (trace st ++ [ioutil_ReadFile arg])
                                      (session.Environment s)) (environ st))
                 host (trace st ++ [ioutil_ReadFile arg])).*1) as He.
  { rewrite Hk. apply elem_of_app. by left. }
  apply elem_of_stepsB in He as (sub & rest' & -> & Hsub).
  by eexists _, sub.
Qed.

Lemma Part000b_run_reads_argument_as_path_witness :
  ["tmuxg"; "myproject"] !! 1 = Some "myproject"
  ∧ ranB calm (decodeAs myproject) ["tmuxg"; "myproject"] configured
    = [ioutil_ReadFile "myproject"].
Proof.
  split; [reflexivity|].
  destruct (Part000b_run_reads_argument_as_path calm (decodeAs myproject)
              ["tmuxg"; "myproject"] "myproject" configured eq_refl)
    as (l & Hl & _).
  reflexivity.
Defined.

(** ** The first revision of [unnamed/part_000]: [run] *)

Section RunR.
Context (host : World) (s : session.t).

Lemma reports_tmuxPartA st :
  session.Windows s ≠ [] →
  reports host
    (mask (Part000a.create host s) ;;'
     i ←' Main.windowLoop host s 0 (session.Windows s) 0;
     mask (Main.focus host s i) ;;'
     mask (Main.tmux host s ["attach"; "-t"; session.Name s])) st
    (tmuxStepsA s (environ st) host (trace st)) tt.
Proof.
  intros Hw. unfold tmuxStepsA.
  destruct (session.Windows s) as [|w0 ws] eqn:Hws; [done|].
  rewrite <-Hws in *.
  eapply reports_bind.
  { apply reports_wrap, reports_createA, Hw. }
  intros st1 He1 _ _. eapply reports_bind.
  { rewrite <-He1. apply reports_windowLoop. }
  intros st2 He2 _ _.
  apply (reports_bind host _ _ st2 [_] [_] tt tt).
  { rewrite <-He1, <-He2. apply reports_focus. }
  intros st3 He3 _ _. rewrite <-He1, <-He2, <-He3.
  apply reports_attach.
Qed.

Lemma tmuxStepsA_subcommand env h e :
  e ∈ (tmuxStepsA s env host h).*1 → is_Some (subcommand e).
Proof.
  unfold tmuxStepsA. destruct (session.Windows s) as [|w0 ws] eqn:Hws.
  { by intros ?%elem_of_nil. }
  rewrite <-Hws. rewrite !fmap_app, !elem_of_app.
  intros [Hin|[Hin|Hin]].
  - rewrite <-list_fmap_compose in Hin.
    apply list_elem_of_fmap in Hin as ([e' err] & -> & Hin).
    unfold createStepsA in Hin. rewrite Hws in Hin.
    apply elem_of_cons in Hin as [[= -> _]|Hin]; [by eexists|].
    apply list_elem_of_fmap in Hin as (kv & [= -> _] & _). by eexists.
  - rewrite loopSteps_ops in Hin.
    apply elem_of_loopOps in Hin as [(j & w & _ & _ & ->)|(w & _ & _ & ->)];
      by eexists.
  - apply elem_of_cons in Hin as [->|Hin]; [by eexists|].
    apply list_elem_of_singleton in Hin as ->. by eexists.
Qed.

(** The tmux part of the first revision's [run]: every operation is a tmux
    invocation, and nothing else changes. *)
Lemma tmuxPartA_trace st :
  ∃ l, trace ((mask (Part000a.create host s) ;;'
               i ←' Main.windowLoop host s 0 (session.Windows s) 0;
               mask (Main.focus host s i) ;;'
               mask (Main.tmux host s ["attach"; "-t"; session.Name s]))
                st).2
       = trace st ++ l
    ∧ ∀ e, e ∈ l → is_Some (subcommand e).
Proof.
  destruct (decide (session.Windows s = [])) as [Hw|Hw].
  - exists []. unfold bind, mask, wrap, Part000a.create, fail. rewrite Hw.
    simpl. rewrite app_nil_r. split; [done|]. by intros e ?%elem_of_nil.
  - rewrite (reports_run host _ _ _ _ (reports_tmuxPartA st Hw)).
    eexists. split; [reflexivity|]. intros e Hin.
    destruct (attempted_prefix host (trace st)
                (tmuxStepsA s (environ st) host (trace st)).*1) as [k Hk].
    eapply tmuxStepsA_subcommand. rewrite Hk. apply elem_of_app. by left.
Qed.

Lemma materializeR_unfold setup st :
  Part000r.materialize host setup s st
  = let st1 := record (os_Stat (session.Cwd s))
                 (with_environ
                    (commitEnv (rangeOrder host (trace st)
                                  (session.Environment s))) st) in
    let missing :=
      negb (fails host (trace st ++ [os_Stat (session.Cwd s)]))
      && bool_decide (files st !! session.Cwd s = None) in
    ((if setup || missing then
        notef "failed to execute setup script" [] (Main.setupScript host s)
      else ret tt) ;;'
     mask (Part000a.create host s) ;;'
     i ←' Main.windowLoop host s 0 (session.Windows s) 0;
     mask (Main.focus host s i) ;;'
     mask (Main.tmux host s ["attach"; "-t"; session.Name s])) st1.
Proof.
  unfold Part000r.materialize. unfold bind at 1 2, range. cbn beta iota.
  rewrite setenvAll_spec. unfold bind at 1, attempt, os_stat.
  cbn [record with_environ trace files environ fst snd].
  destruct (fails host (trace st ++ [os_Stat (session.Cwd s)])).
  { simpl. by rewrite orb_false_r. }
  destruct (files st !! session.Cwd s) as [f|]; simpl.
  - by rewrite orb_false_r.
  - done.
Qed.
End RunR.

(** Property X19.  [run] of the first revision decides on the setup script
    by [os.Stat] of [session.Cwd] as the document has it, not expanded:
    when no file has that very name, the setup script is run next, whether
    [-setup] was given or not. *)
Theorem first_revision_stats_cwd_unexpanded host setup s st :
  fails host (trace st ++ [os_Stat (session.Cwd s)]) = false →
  files st !! session.Cwd s = None →
  session.SetupScript s ≠ EmptyString →
  ∃ l, trace (Part000r.materialize host setup s st).2
       = trace st
         ++ os_Stat (session.Cwd s)
            :: ioutil_TempFile
                 (tempName host (trace st ++ [os_Stat (session.Cwd s)]))
            :: l.
Proof.
  intros Hstat Hcwd Hscript. rewrite materializeR_unfold. cbn zeta.
  rewrite Hstat, bool_decide_true, orb_true_r by done. cbn [negb andb].
  set (st1 := record _ _).
  destruct (setupScript_outcomes host s st1 Hscript)
    as (_ & _ & l1 & Ht1 & Hl1).
  assert (∃ l1', l1 = ioutil_TempFile (tempName host (trace st1)) :: l1')
    as [l1' ->].
  { destruct Hl1 as [[-> _]|(_ & _ & [[-> _]|[[-> _]|[[-> _]|[-> _]]]])];
      by eexists. }
  unfold bind at 1, notef, wrap.
  destruct (Main.setupScript host s st1) as [[e|[]] st2]; simpl in Ht1.
  - simpl. rewrite Ht1. exists l1'. subst st1. simpl.
    by rewrite <-app_assoc.
  - destruct (tmuxPartA_trace host s st2) as (l2 & -> & _).
    rewrite Ht1. exists (l1' ++ l2). subst st1. simpl.
    by rewrite <-!app_assoc.
Qed.

Lemma first_revision_stats_cwd_unexpanded_witness :
  is_Some (files checkedOut
           !! os.ExpandEnv
                (environ (Part000r.materialize calm false bootstrapped
                            checkedOut).2)
                (session.Cwd bootstrapped))
  ∧ files checkedOut !! session.Cwd bootstrapped = None
  ∧ session.SetupScript bootstrapped ≠ EmptyString
  ∧ take 2 (trace (Part000r.materialize calm false bootstrapped
                     checkedOut).2)
    = [os_Stat "${GOPATH}/src/github.com/cmars/myproject";
       ioutil_TempFile "/tmp/tmuxg-setup042"].
Proof.
  assert (session.SetupScript bootstrapped ≠ EmptyString) as Hne by done.
  split; [vm_compute; by eexists|]. split; [reflexivity|].
  split; [exact Hne|].
  destruct (first_revision_stats_cwd_unexpanded calm false bootstrapped
              checkedOut eq_refl eq_refl Hne) as (l & Hl).
  rewrite Hl. reflexivity.
Defined.

(** Property X20.  Without [-setup], when [os.Stat] of [session.Cwd] finds
    a file, or fails in another way than by its absence, the first
    revision's [run] does not run the setup script, even if the session has
    one: every operation after the [os.Stat] is a tmux invocation. *)
Theorem first_revision_skips_setup_script host s st :
  fails host (trace st ++ [os_Stat (session.Cwd s)]) = true
  ∨ is_Some (files st !! session.Cwd s) →
  ∃ l, trace (Part000r.materialize host false s st).2
       = trace st ++ os_Stat (session.Cwd s) :: l
    ∧ ∀ e, e ∈ l → is_Some (subcommand e).
Proof.
  intros Hcwd. rewrite materializeR_unfold. cbn zeta.
  assert (negb (fails host (trace st ++ [os_Stat (session.Cwd s)]))
          && bool_decide (files st !! session.Cwd s = None) = false) as ->.
  { destruct Hcwd as [->|[f Hf]]; [done|].
    rewrite bool_decide_false by congruence. apply andb_false_r. }
  cbn [orb]. set (st1 := record _ _).
  change ((ret tt ;;' ?m) st1) with (m st1).
  destruct (tmuxPartA_trace host s st1) as (l & -> & Hl).
  exists l. subst st1. simpl. by rewrite <-app_assoc.
Qed.

Lemma first_revision_skips_setup_script_witness :
  is_Some (files crowded !! "myproject")
  ∧ (∀ p, ioutil_TempFile p
          ∉ trace (Part000r.materialize calm false
                     {| session.Name := "here";
                        session.SetupScript := "make";
                        session.Environment := ∅;
                        session.Cwd := "myproject";
                        session.Windows :=
                          [window.mk "shell" "bash" EmptyString []];
                        session.Focus := EmptyString |} crowded).2).
Proof.
  assert (is_Some (files crowded !! "myproject")) as Hcwd
    by (vm_compute; by eexists).
  split; [exact Hcwd|]. intros p Hin.
  destruct (first_revision_skips_setup_script calm
              {| session.Name := "here";
                 session.SetupScript := "make";
                 session.Environment := ∅;
                 session.Cwd := "myproject";
                 session.Windows :=
                   [window.mk "shell" "bash" EmptyString []];
                 session.Focus := EmptyString |} crowded (or_intror Hcwd))
    as (l & Ht & Hl).
  rewrite Ht in Hin. simpl in Hin.
  apply elem_of_cons in Hin as [Hin|Hin]; [discriminate Hin|].
  destruct (Hl _ Hin) as [x Hx]. discriminate Hx.
Defined.

(** Property X21.  When [locateSession] reports that the session file is
    missing and [newSessionFile] then succeeds, the first revision's [run]
    (without [-edit]) goes on with the name [locateSession] returned beside
    its error, which is empty: it reads the file of the empty name and
    fails with that read error, whatever [newSessionFile] has created. *)
Theorem first_revision_reads_empty_path host join unmarshal setupFlag
    newSessionFile arg rest st err st1 st2 :
  Part000.locateSession host join arg st = (inl err, st1) →
  os_IsNotExist err = true →
  newSessionFile arg st1 = (inr tt, st2) →
  files st2 !! EmptyString = None →
  ∃ cause,
    Part000r.run host join unmarshal false setupFlag newSessionFile
      (arg :: rest) st
    = (inl (Mask (Notef cause "failed to read session file" [])),
       record (ioutil_ReadFile EmptyString) st2).
Proof.
  intros Hloc Hne Hnew Hempty. unfold Part000r.run.
  rewrite decide_False by (simpl; lia).
  change (default EmptyString ((arg :: rest) !! 0)) with arg.
  unfold bind at 1, attempt at 1. rewrite Hloc.
  cbn [Part000r.isNotExist]. rewrite Hne. cbn [orb].
  unfold bind at 1 2, attempt, ret. rewrite Hnew. cbn [fst snd].
  unfold bind at 1, mask, wrap, Part000.newSession, bind at 1, notef, wrap,
    ioutil_readFile.
  cbn [record trace files environ fst snd]. rewrite Hempty.
  destruct (fails host _); by eexists.
Qed.

Lemma first_revision_reads_empty_path_witness :
  (Part000.locateSession calm plainJoin "fresh" boot).1
  = inl (ErrNotExist (os_Stat "/home/u/.config/tmuxg/fresh.yaml"))
  ∧ is_Some (files (Part000r.run calm plainJoin (decodeAs myproject) false
                      false (scaffold plainJoin) ["fresh"] boot).2
             !! "/home/u/.config/tmuxg/fresh.yaml")
  ∧ last (trace (Part000r.run calm plainJoin (decodeAs myproject) false
                   false (scaffold plainJoin) ["fresh"] boot).2)
    = Some (ioutil_ReadFile EmptyString).
Proof.
  split; [reflexivity|].
  destruct (first_revision_reads_empty_path calm plainJoin
              (decodeAs myproject) false (scaffold plainJoin) "fresh" []
              boot _ _ _ eq_refl eq_refl eq_refl eq_refl) as (cause & Hrun).
  rewrite Hrun. split; [vm_compute; by eexists|reflexivity].
Defined.

(** ** Text without references *)

Lemma ExpandEnv_plain env p :
  has_byte "$" p = false → os.ExpandEnv env p = p.
Proof.
  intros Hp. unfold os.ExpandEnv, os.Expand.
  rewrite <-(app_empty_r p) at 1.
  rewrite expandFrom_literal by done. apply app_empty_r.
Qed.

(** Property X22.  A directory and a command without [$] reach
    [new-window] as they are written. *)
Theorem createWindow_passes_plain_text host s i w st :
  let cwd := if decide (window.Cwd w = EmptyString) then session.Cwd s
             else window.Cwd w in
  has_byte "$" cwd = false →
  has_byte "$" (window.Command w) = false →
  trace (Main.createWindow host s i w st).2
  = trace st
    ++ [cmd_Run (Main.tmuxCmd s (environ st)
          ["new-window"; "-d"; "-t"; target (session.Name s) i;
           "-c"; cwd; window.Command w])].
Proof.
  intros cwd Hcwd Hcmd.
  unfold Main.createWindow, bind, os_expandEnv, notef, wrap, Main.tmux,
    mask, wrap, cmd_run, sys.
  cbn [record trace files environ fst snd]. fold cwd.
  rewrite !ExpandEnv_plain by done.
  by destruct (fails host _).
Qed.

Lemma createWindow_passes_plain_text_witness :
  has_byte "$" "/srv/www" = false
  ∧ has_byte "$" "watch lxc list" = false
  ∧ Args <$> (trace (Main.createWindow calm nested 3
                       (window.mk "local lxc containers" "watch lxc list"
                          "/srv/www" []) boot).2
              ≫= λ e, match e with cmd_Run c => [c] | _ => [] end)
    = [["tmux"; "-L"; "nested"; "new-window"; "-d"; "-t"; "nested:3";
        "-c"; "/srv/www"; "watch lxc list"]].
Proof.
  split; [reflexivity|]. split; [reflexivity|].
  rewrite (createWindow_passes_plain_text calm nested 3
             (window.mk "local lxc containers" "watch lxc list"
                "/srv/www" []) boot eq_refl eq_refl).
  reflexivity.
Defined.
